(* ===================================================================== *)
(* AdvanceChatAppBackend: message pipeline, conversation state and       *)
(* presence registry, embedded from the JavaScript sources.              *)
(*                                                                       *)
(*   models/Message.js        -> Module Message                          *)
(*   models/Conversation.js   -> Module Conversation                     *)
(*   models/User.js           -> Module User (presence, block list)      *)
(*   middleware/auth.js       -> Module Auth                             *)
(*   routes/messages.js       -> Module MessageRoutes                    *)
(*   routes/conversations.js  -> Module ConversationRoutes               *)
(*   socket/socketHandler.js  -> Module SocketHandler                    *)
(*                                                                       *)
(* Conventions of the embedding.                                         *)
(*  - An ObjectId is represented by its hexadecimal string, so           *)
(*    `id.toString()` is the identity and `a.equals(b)` is string        *)
(*    equality.  Mongoose arrays compare ObjectIds by value in           *)
(*    `includes`, which is modelled the same way.                        *)
(*  - A Date is the number of milliseconds since the epoch (Z); every    *)
(*    `new Date()` / `Date.now()` of one request reads the `now` the     *)
(*    operation is given.                                                *)
(*  - A Number used as a counter is a Z (counters stay far below 2^53).  *)
(*  - A Mongoose Map is a gmap with string keys; a document method       *)
(*    `m.f(args)` that ends in `return this.save()` is split into the    *)
(*    pure update of the in-memory document (named f, as in the source)  *)
(*    and the write of the document to the store (module Store).         *)
(*  - The automatic createdAt/updatedAt stamps of `timestamps: true`     *)
(*    are not part of the records.                                       *)
(* ===================================================================== *)

From Stdlib Require Import ZArith Lia Bool.
From stdpp Require Import gmap strings list fin_maps.

Open Scope string_scope.
Open Scope list_scope.

Abbreviation ObjectId := string.
Abbreviation Date := Z.

(* ObjectId.prototype.equals *)
Definition equals (a b : ObjectId) : bool := String.eqb a b.

(* Array.prototype.includes on a Mongoose array of ObjectIds *)
Definition includes (l : list ObjectId) (x : ObjectId) : bool :=
  List.existsb (fun y => equals y x) l.

(* ===================================================================== *)
(* models/Message.js                                                     *)
(* ===================================================================== *)

Module MessageType.
Inductive t :=
  text | image | video | audio | file | location | contact | sticker | system.

Definition eqb (a b : t) : bool :=
  match a, b with
  | text, text | image, image | video, video | audio, audio | file, file
  | location, location | contact, contact | sticker, sticker
  | system, system => true
  | _, _ => false
  end.

(* the schema's enum of type names *)
Definition of_string (s : string) : option t :=
  if String.eqb s "text" then Some text
  else if String.eqb s "image" then Some image
  else if String.eqb s "video" then Some video
  else if String.eqb s "audio" then Some audio
  else if String.eqb s "file" then Some file
  else if String.eqb s "location" then Some location
  else if String.eqb s "contact" then Some contact
  else if String.eqb s "sticker" then Some sticker
  else if String.eqb s "system" then Some system
  else None.
End MessageType.

Module Content.
Record Media := {
  url : option string;
  filename : option string;
  size : option Z;
  mimeType : option string;
  duration : option Z;
  thumbnail : option string
}.
Record Location := {
  latitude : option Z;
  longitude : option Z;
  address : option string
}.
Record Contact := {
  name : option string;
  phone : option string;
  email : option string
}.
Record Sticker := {
  id : option string;
  sticker_url : option string
}.
Record t := {
  text : option string;
  media : option Media;
  location : option Location;
  contact : option Contact;
  sticker : option Sticker
}.

Definition empty : t :=
  {| text := None; media := None; location := None;
     contact := None; sticker := None |}.

(* this.content.text = s *)
Definition set_text (s : string) (c : t) : t :=
  {| text := Some s; media := media c; location := location c;
     contact := contact c; sticker := sticker c |}.
End Content.

Module Message.
Record ForwardedFrom := {
  message : ObjectId;
  user : ObjectId
}.

Record Metadata := {
  clientId : option string;
  deviceId : option string;
  platform : option string;
  version : option string
}.

Record t := {
  _id : ObjectId;
  conversation : ObjectId;
  sender : ObjectId;
  type : MessageType.t;
  content : Content.t;
  replyTo : option ObjectId;
  forwardedFrom : option ForwardedFrom;
  reactions : gmap string (list ObjectId);
  readBy : list (ObjectId * Date);
  deliveredTo : list (ObjectId * Date);
  isEdited : bool;
  editedAt : option Date;
  isDeleted : bool;
  deletedAt : option Date;
  deletedBy : option ObjectId;
  metadata : option Metadata
}.

Definition set_reactions (r : gmap string (list ObjectId)) (m : t) : t :=
  {| _id := _id m; conversation := conversation m; sender := sender m;
     type := type m; content := content m; replyTo := replyTo m;
     forwardedFrom := forwardedFrom m; reactions := r;
     readBy := readBy m; deliveredTo := deliveredTo m;
     isEdited := isEdited m; editedAt := editedAt m;
     isDeleted := isDeleted m; deletedAt := deletedAt m;
     deletedBy := deletedBy m; metadata := metadata m |}.

(* new Message({...}): the schema defaults fill what the caller leaves out *)
Definition new (id conv sndr : ObjectId) (ty : MessageType.t)
    (c : Content.t) (reply : option ObjectId)
    (fwd : option ForwardedFrom) (md : option Metadata) : t :=
  {| _id := id; conversation := conv; sender := sndr; type := ty;
     content := c; replyTo := reply; forwardedFrom := fwd;
     reactions := ∅; readBy := []; deliveredTo := [];
     isEdited := false; editedAt := None;
     isDeleted := false; deletedAt := None; deletedBy := None;
     metadata := md |}.

(* virtual('displayContent'); None is JavaScript's undefined *)
Definition displayContent (m : t) : option string :=
  if isDeleted m then Some "This message was deleted"
  else match type m with
       | MessageType.text => Content.text (content m)
       | MessageType.image => Some "📷 Image"
       | MessageType.video => Some "🎥 Video"
       | MessageType.audio => Some "🎵 Audio"
       | MessageType.file => Some "📎 File"
       | MessageType.location => Some "📍 Location"
       | MessageType.contact => Some "👤 Contact"
       | MessageType.sticker => Some "😀 Sticker"
       | MessageType.system => Content.text (content m)
       end.

(* methods.addReaction *)
Definition addReaction (reaction : string) (userId : ObjectId) (m : t) : t :=
  let r1 :=
    if bool_decide (is_Some (reactions m !! reaction)) then reactions m
    else <[reaction := []]> (reactions m) in
  let users := default [] (r1 !! reaction) in
  if negb (includes users userId)
  then set_reactions (<[reaction := users ++ [userId]]> r1) m
  else set_reactions r1 m.

(* methods.removeReaction *)
Definition removeReaction (reaction : string) (userId : ObjectId) (m : t) : t :=
  match reactions m !! reaction with
  | Some users =>
      let filteredUsers := List.filter (fun id => negb (equals id userId)) users in
      if (length filteredUsers =? 0)%nat
      then set_reactions (delete reaction (reactions m)) m
      else set_reactions (<[reaction := filteredUsers]> (reactions m)) m
  | None => m
  end.

(* methods.markAsRead *)
Definition markAsRead (userId : ObjectId) (now : Date) (m : t) : t :=
  match List.find (fun r => equals (fst r) userId) (readBy m) with
  | Some _ => m
  | None =>
      {| _id := _id m; conversation := conversation m; sender := sender m;
         type := type m; content := content m; replyTo := replyTo m;
         forwardedFrom := forwardedFrom m; reactions := reactions m;
         readBy := readBy m ++ [(userId, now)];
         deliveredTo := deliveredTo m;
         isEdited := isEdited m; editedAt := editedAt m;
         isDeleted := isDeleted m; deletedAt := deletedAt m;
         deletedBy := deletedBy m; metadata := metadata m |}
  end.

(* methods.markAsDelivered *)
Definition markAsDelivered (userId : ObjectId) (now : Date) (m : t) : t :=
  match List.find (fun d => equals (fst d) userId) (deliveredTo m) with
  | Some _ => m
  | None =>
      {| _id := _id m; conversation := conversation m; sender := sender m;
         type := type m; content := content m; replyTo := replyTo m;
         forwardedFrom := forwardedFrom m; reactions := reactions m;
         readBy := readBy m;
         deliveredTo := deliveredTo m ++ [(userId, now)];
         isEdited := isEdited m; editedAt := editedAt m;
         isDeleted := isDeleted m; deletedAt := deletedAt m;
         deletedBy := deletedBy m; metadata := metadata m |}
  end.

(* methods.editMessage *)
Definition editMessage (newContent : string) (now : Date) (m : t) : t :=
  {| _id := _id m; conversation := conversation m; sender := sender m;
     type := type m; content := Content.set_text newContent (content m);
     replyTo := replyTo m; forwardedFrom := forwardedFrom m;
     reactions := reactions m; readBy := readBy m;
     deliveredTo := deliveredTo m;
     isEdited := true; editedAt := Some now;
     isDeleted := isDeleted m; deletedAt := deletedAt m;
     deletedBy := deletedBy m; metadata := metadata m |}.

(* methods.deleteMessage *)
Definition deleteMessage (userId : ObjectId) (now : Date) (m : t) : t :=
  {| _id := _id m; conversation := conversation m; sender := sender m;
     type := type m; content := content m;
     replyTo := replyTo m; forwardedFrom := forwardedFrom m;
     reactions := reactions m; readBy := readBy m;
     deliveredTo := deliveredTo m;
     isEdited := isEdited m; editedAt := editedAt m;
     isDeleted := true; deletedAt := Some now;
     deletedBy := Some userId; metadata := metadata m |}.

(* the document methods.forwardMessage hands to Message.create; newId is
   the _id the driver generates for it *)
Definition forwardMessage (newId targetConversationId userId : ObjectId)
    (m : t) : t :=
  new newId targetConversationId userId (type m) (content m) None
      (Some {| message := _id m; user := sender m |}) None.

(* methods.getReactionCount *)
Definition getReactionCount (reaction : string) (m : t) : nat :=
  length (default [] (reactions m !! reaction)).

(* methods.hasUserReacted *)
Definition hasUserReacted (reaction : string) (userId : ObjectId) (m : t) : bool :=
  List.existsb (fun id => equals id userId) (default [] (reactions m !! reaction)).

(* schema validation run by save(): text maxlength 5000 (required paths
   and the type enum hold by construction of the record); the length is
   counted in bytes of the string, which is the JavaScript length for
   ASCII text *)
Definition validate (m : t) : bool :=
  match Content.text (content m) with
  | Some s => (String.length s <=? 5000)%nat
  | None => true
  end.
End Message.

(* ===================================================================== *)
(* models/Conversation.js                                                *)
(* ===================================================================== *)

(* const x = arr.find(p); if (x) { x.field = ... }: the first element that
   satisfies p is updated in place, the others are left as they are *)
Fixpoint update_first {A : Type} (p : A -> bool) (f : A -> A) (l : list A) : list A :=
  match l with
  | [] => []
  | x :: l' => if p x then f x :: l' else x :: update_first p f l'
  end.

Module Role.
Inductive t := admin | moderator | member.

Definition eqb (a b : t) : bool :=
  match a, b with
  | admin, admin | moderator, moderator | member, member => true
  | _, _ => false
  end.
End Role.

Module ConversationType.
Inductive t := direct | group.

Definition eqb (a b : t) : bool :=
  match a, b with
  | direct, direct | group, group => true
  | _, _ => false
  end.
End ConversationType.

Module Participant.
Record t := {
  user : ObjectId;
  role : Role.t;
  joinedAt : Date;
  leftAt : option Date;
  isActive : bool
}.

(* participant.isActive = false; participant.leftAt = new Date() *)
Definition leave (now : Date) (p : t) : t :=
  {| user := user p; role := role p; joinedAt := joinedAt p;
     leftAt := Some now; isActive := false |}.
End Participant.

Module MuteEntry.
Record t := {
  user : ObjectId;
  mutedUntil : option Date;
  mutedAt : Date
}.

(* existingMute.mutedUntil = mutedUntil; existingMute.mutedAt = new Date() *)
Definition remute (until : option Date) (now : Date) (e : t) : t :=
  {| user := user e; mutedUntil := until; mutedAt := now |}.
End MuteEntry.

Module Conversation.
Record t := {
  _id : ObjectId;
  name : option string;
  type : ConversationType.t;
  participants : list Participant.t;
  lastMessage : option ObjectId;
  lastMessageAt : Date;
  unreadCount : gmap string Z;
  isGroup : bool;
  archivedBy : list (ObjectId * Date);
  mutedBy : list MuteEntry.t;
  deletedBy : list (ObjectId * Date)
}.

Definition set_participants (ps : list Participant.t) (c : t) : t :=
  {| _id := _id c; name := name c; type := type c; participants := ps;
     lastMessage := lastMessage c; lastMessageAt := lastMessageAt c;
     unreadCount := unreadCount c; isGroup := isGroup c;
     archivedBy := archivedBy c; mutedBy := mutedBy c;
     deletedBy := deletedBy c |}.

Definition set_unreadCount (u : gmap string Z) (c : t) : t :=
  {| _id := _id c; name := name c; type := type c;
     participants := participants c;
     lastMessage := lastMessage c; lastMessageAt := lastMessageAt c;
     unreadCount := u; isGroup := isGroup c;
     archivedBy := archivedBy c; mutedBy := mutedBy c;
     deletedBy := deletedBy c |}.

Definition set_archivedBy (a : list (ObjectId * Date)) (c : t) : t :=
  {| _id := _id c; name := name c; type := type c;
     participants := participants c;
     lastMessage := lastMessage c; lastMessageAt := lastMessageAt c;
     unreadCount := unreadCount c; isGroup := isGroup c;
     archivedBy := a; mutedBy := mutedBy c;
     deletedBy := deletedBy c |}.

Definition set_mutedBy (ms : list MuteEntry.t) (c : t) : t :=
  {| _id := _id c; name := name c; type := type c;
     participants := participants c;
     lastMessage := lastMessage c; lastMessageAt := lastMessageAt c;
     unreadCount := unreadCount c; isGroup := isGroup c;
     archivedBy := archivedBy c; mutedBy := ms;
     deletedBy := deletedBy c |}.

(* conversation.lastMessage = id; conversation.lastMessageAt = new Date() *)
Definition set_lastMessage (id : ObjectId) (now : Date) (c : t) : t :=
  {| _id := _id c; name := name c; type := type c;
     participants := participants c;
     lastMessage := Some id; lastMessageAt := now;
     unreadCount := unreadCount c; isGroup := isGroup c;
     archivedBy := archivedBy c; mutedBy := mutedBy c;
     deletedBy := deletedBy c |}.

(* new Conversation({ type, name, participants }) with the schema defaults;
   the lastMessageAt default is Date.now *)
Definition new (id : ObjectId) (ty : ConversationType.t) (nm : option string)
    (ps : list Participant.t) (now : Date) : t :=
  {| _id := id; name := nm; type := ty; participants := ps;
     lastMessage := None; lastMessageAt := now;
     unreadCount := ∅; isGroup := false;
     archivedBy := []; mutedBy := []; deletedBy := [] |}.

(* participants.some(p => p.user.equals(userId) && p.isActive): the
   membership test every route and socket handler writes inline *)
Definition isActiveParticipant (c : t) (userId : ObjectId) : bool :=
  List.existsb
    (fun p => equals (Participant.user p) userId && Participant.isActive p)
    (participants c).

(* methods.addParticipant *)
Definition addParticipant (userId : ObjectId) (role : Role.t) (now : Date)
    (c : t) : t :=
  match List.find (fun p => equals (Participant.user p) userId) (participants c) with
  | Some _ => c
  | None =>
      set_participants
        (participants c ++
           [{| Participant.user := userId; Participant.role := role;
               Participant.joinedAt := now; Participant.leftAt := None;
               Participant.isActive := true |}]) c
  end.

(* methods.removeParticipant *)
Definition removeParticipant (userId : ObjectId) (now : Date) (c : t) : t :=
  set_participants
    (update_first (fun p => equals (Participant.user p) userId)
       (Participant.leave now) (participants c)) c.

(* methods.updateUnreadCount; `get(k) || 0` reads an absent key as 0 *)
Definition updateUnreadCount (userId : ObjectId) (count : Z) (c : t) : t :=
  let currentCount := default 0%Z (unreadCount c !! userId) in
  set_unreadCount (<[userId := (currentCount + count)%Z]> (unreadCount c)) c.

(* methods.resetUnreadCount *)
Definition resetUnreadCount (userId : ObjectId) (c : t) : t :=
  set_unreadCount (<[userId := 0%Z]> (unreadCount c)) c.

(* methods.archiveConversation; archivedAt takes its default, Date.now *)
Definition archiveConversation (userId : ObjectId) (now : Date) (c : t) : t :=
  match List.find (fun a => equals (fst a) userId) (archivedBy c) with
  | Some _ => c
  | None => set_archivedBy (archivedBy c ++ [(userId, now)]) c
  end.

(* methods.unarchiveConversation *)
Definition unarchiveConversation (userId : ObjectId) (c : t) : t :=
  set_archivedBy
    (List.filter (fun a => negb (equals (fst a) userId)) (archivedBy c)) c.

(* methods.muteConversation; duration None is the default null, and
   `duration ? ... : null` is also null for the falsy number 0 *)
Definition muteConversation (userId : ObjectId) (duration : option Z)
    (now : Date) (c : t) : t :=
  let mutedUntil :=
    match duration with
    | Some d => if (d =? 0)%Z then None else Some (now + d)%Z
    | None => None
    end in
  match List.find (fun m => equals (MuteEntry.user m) userId) (mutedBy c) with
  | Some _ =>
      set_mutedBy
        (update_first (fun m => equals (MuteEntry.user m) userId)
           (MuteEntry.remute mutedUntil now) (mutedBy c)) c
  | None =>
      set_mutedBy
        (mutedBy c ++
           [{| MuteEntry.user := userId; MuteEntry.mutedUntil := mutedUntil;
               MuteEntry.mutedAt := now |}]) c
  end.

(* methods.unmuteConversation *)
Definition unmuteConversation (userId : ObjectId) (c : t) : t :=
  set_mutedBy
    (List.filter (fun m => negb (equals (MuteEntry.user m) userId)) (mutedBy c)) c.

(* methods.isUserMuted: the answer, and the document as the call leaves it
   (the method reassigns this.mutedBy and does not save) *)
Definition isUserMuted (userId : ObjectId) (now : Date) (c : t) : bool * t :=
  match List.find (fun m => equals (MuteEntry.user m) userId) (mutedBy c) with
  | None => (false, c)
  | Some mute =>
      if match MuteEntry.mutedUntil mute with
         | Some until => (now <? until)%Z
         | None => false
         end
      then (true, c)
      else (false,
            set_mutedBy
              (List.filter (fun m => negb (equals (MuteEntry.user m) userId))
                 (mutedBy c)) c)
  end.

(* schema validation run by save(): name maxlength 100 *)
Definition validate (c : t) : bool :=
  match name c with
  | Some s => (String.length s <=? 100)%nat
  | None => true
  end.

(* methods.deleteForUser; deletedAt takes its default, Date.now *)
Definition deleteForUser (userId : ObjectId) (now : Date) (c : t) : t :=
  match List.find (fun d => equals (fst d) userId) (deletedBy c) with
  | Some _ => c
  | None =>
      {| _id := _id c; name := name c; type := type c;
         participants := participants c;
         lastMessage := lastMessage c; lastMessageAt := lastMessageAt c;
         unreadCount := unreadCount c; isGroup := isGroup c;
         archivedBy := archivedBy c; mutedBy := mutedBy c;
         deletedBy := deletedBy c ++ [(userId, now)] |}
  end.
End Conversation.

(* ===================================================================== *)
(* The process and its store                                             *)
(* ===================================================================== *)

Module World.
(* the value socketHandler.js keeps per user in connectedUsers (its copy of
   the user document is left out) *)
Record Presence := {
  socketId : string;
  userId : ObjectId
}.

Inductive Target :=
| to_socket (sid : string)                  (* socket.emit *)
| to_room_except (room : string) (sid : string)   (* socket.to(room).emit *)
| to_room (room : string)                   (* io.to(room).emit *)
| broadcast_except (sid : string).          (* socket.broadcast.emit *)

Inductive Payload :=
| P_error (message : string)
| P_user (userId : ObjectId)
| P_conversation (conversationId : ObjectId)
| P_message (m : Message.t)
| P_sent (clientId : option string) (m : Message.t)
| P_notification (title : string) (message : option string)
    (conversationId messageId : ObjectId)
| P_reaction (messageId : ObjectId) (reaction : string) (userId : ObjectId).

Record Emit := {
  target : Target;
  event : string;
  payload : Payload
}.

Record t := {
  messages : gmap ObjectId Message.t;           (* collection Message *)
  conversations : gmap ObjectId Conversation.t; (* collection Conversation *)
  connectedUsers : gmap string Presence;        (* const connectedUsers = new Map() *)
  outbox : list Emit;                           (* socket events sent so far *)
  faults : list bool   (* outcome of the coming store writes: true = the write is refused *)
}.

Definition set_messages (ms : gmap ObjectId Message.t) (w : t) : t :=
  {| messages := ms; conversations := conversations w;
     connectedUsers := connectedUsers w; outbox := outbox w;
     faults := faults w |}.

Definition set_conversations (cs : gmap ObjectId Conversation.t) (w : t) : t :=
  {| messages := messages w; conversations := cs;
     connectedUsers := connectedUsers w; outbox := outbox w;
     faults := faults w |}.

Definition set_connectedUsers (cu : gmap string Presence) (w : t) : t :=
  {| messages := messages w; conversations := conversations w;
     connectedUsers := cu; outbox := outbox w;
     faults := faults w |}.

Definition set_outbox (o : list Emit) (w : t) : t :=
  {| messages := messages w; conversations := conversations w;
     connectedUsers := connectedUsers w; outbox := o;
     faults := faults w |}.

Definition set_faults (f : list bool) (w : t) : t :=
  {| messages := messages w; conversations := conversations w;
     connectedUsers := connectedUsers w; outbox := outbox w;
     faults := f |}.

Definition empty : t :=
  {| messages := ∅; conversations := ∅; connectedUsers := ∅;
     outbox := []; faults := [] |}.
End World.

(* Asynchronous code of one request, run to completion: a computation
   reads and writes the world and either returns or throws. *)
Module Store.
Inductive Error :=
| ValidationError      (* save() rejected the document (validation or cast) *)
| StoreError           (* the store refused the write *)
| TypeError.           (* a property of null or undefined was read *)

Inductive Result (A : Type) :=
| Ok (a : A)
| Throw (e : Error).
Arguments Ok {A} a.
Arguments Throw {A} e.

Definition M (A : Type) : Type := World.t -> Result A * World.t.

Definition ret {A} (a : A) : M A := fun w => (Ok a, w).

Definition bind {A B} (c : M A) (k : A -> M B) : M B :=
  fun w =>
    match c w with
    | (Ok a, w') => k a w'
    | (Throw e, w') => (Throw e, w')
    end.

Definition throw {A} (e : Error) : M A := fun w => (Throw e, w).

(* try { c } catch (error) { h } *)
Definition try_catch {A} (c : M A) (h : M A) : M A :=
  fun w =>
    match c w with
    | (Ok a, w') => (Ok a, w')
    | (Throw _, w') => h w'
    end.

Definition get : M World.t := fun w => (Ok w, w).

(* one write to the store: it consumes the next fault flag *)
Definition write (f : World.t -> World.t) : M unit :=
  fun w =>
    match World.faults w with
    | true :: fs => (Throw StoreError, World.set_faults fs w)
    | false :: fs => (Ok tt, World.set_faults fs (f w))
    | [] => (Ok tt, f w)
    end.

(* Message.findById *)
Definition Message_findById (id : ObjectId) : M (option Message.t) :=
  fun w => (Ok (World.messages w !! id), w).

(* Conversation.findById *)
Definition Conversation_findById (id : ObjectId) : M (option Conversation.t) :=
  fun w => (Ok (World.conversations w !! id), w).

(* Conversation.find(query): the documents of the collection the query
   selects *)
Definition Conversation_find (query : Conversation.t -> bool)
    : M (list Conversation.t) :=
  fun w =>
    (Ok (List.filter query (map_to_list (World.conversations w)).*2), w).

(* Conversation.findOne(query) *)
Definition Conversation_findOne (query : Conversation.t -> bool)
    : M (option Conversation.t) :=
  fun w =>
    (Ok (List.find query (map_to_list (World.conversations w)).*2), w).

(* message.save(): validation, then the write *)
Definition save_message (m : Message.t) : M unit :=
  if Message.validate m
  then write (fun w => World.set_messages (<[Message._id m := m]> (World.messages w)) w)
  else throw ValidationError.

(* conversation.save() *)
Definition save_conversation (c : Conversation.t) : M unit :=
  if Conversation.validate c
  then write (fun w =>
                World.set_conversations
                  (<[Conversation._id c := c]> (World.conversations w)) w)
  else throw ValidationError.

(* socket.emit and friends *)
Definition emit (t : World.Target) (ev : string) (p : World.Payload) : M unit :=
  fun w =>
    (Ok tt,
     World.set_outbox
       (World.outbox w ++
          [{| World.target := t; World.event := ev; World.payload := p |}]) w).

(* for (const x of l) { s = await body(s, x) }: the loop threads the
   in-memory document s the body mutates *)
Fixpoint for_of {A S} (l : list A) (body : S -> A -> M S) (s : S) : M S :=
  match l with
  | [] => ret s
  | x :: l' => bind (body s x) (for_of l' body)
  end.

(* stdpp's monad notations: x ← c; k and c;; k *)
#[global] Instance M_ret : MRet M := @ret.
#[global] Instance M_bind : MBind M := fun A B k c => bind c k.
End Store.

(* ===================================================================== *)
(* HTTP plumbing shared by the routes                                    *)
(* ===================================================================== *)

Module Http.
Inductive Data :=
| D_none
| D_message (m : Message.t)
| D_messages (ms : list Message.t)
| D_reaction (reaction : string) (count : nat)
| D_conversation (c : Conversation.t).

(* res.status(code).json({ message, data }) *)
Record Response := {
  status : nat;
  message : string;
  data : Data
}.

Definition json (code : nat) (msg : string) : Response :=
  {| status := code; message := msg; data := D_none |}.

Definition json_data (code : nat) (msg : string) (d : Data) : Response :=
  {| status := code; message := msg; data := d |}.

(* a content field of a request body: a string or an object *)
Inductive BodyContent :=
| CStr (s : string)
| CObj (c : Content.t).

(* express-validator notEmpty() *)
Definition notEmpty (c : option BodyContent) : bool :=
  match c with
  | None => false
  | Some (CStr s) => negb (String.eqb s "")
  | Some (CObj _) => true
  end.

(* asyncHandler + the error-handling middleware of server.js: an error
   thrown by the handler is answered with 500 *)
Definition asyncHandler (h : Store.M Response) : Store.M Response :=
  Store.try_catch h (mret (json 500 "Something went wrong!")).
End Http.

(* ===================================================================== *)
(* middleware/auth.js                                                    *)
(* ===================================================================== *)

Module Auth.
Import Store Http.

(* authorizeMessageAccess.  userId is req.user._id as authenticate set it;
   params_messageId and body_messageId are req.params.messageId and
   req.body.messageId.  The result is the response the middleware sends,
   or the document it stores in req.message before calling next(). *)
Definition authorizeMessageAccess (userId : ObjectId)
    (params_messageId body_messageId : option ObjectId)
    : M (Response + Message.t) :=
  try_catch
    (let messageId :=
       match params_messageId with
       | Some i => Some i
       | None => body_messageId
       end in
     (* findById(undefined) finds nothing *)
     message ← match messageId with
               | Some i => Message_findById i
               | None => mret None
               end;
     match message with
     | None => mret (inl (json 404 "Message not found."))
     | Some message =>
         let isSender := equals (Message.sender message) userId in
         if negb isSender then
           conversation ← Conversation_findById (Message.conversation message);
           match conversation with
           | None => mret (inl (json 404 "Conversation not found."))
           | Some conversation =>
               if negb (Conversation.isActiveParticipant conversation userId)
               then mret (inl (json 403 "Access denied. Not authorized to access this message."))
               else mret (inr message)
           end
         else mret (inr message)
     end)
    (mret (inl (json 500 "Server error."))).

(* authorizeConversationAccess: the response it sends, or req.conversation *)
Definition authorizeConversationAccess (userId : ObjectId)
    (params_conversationId body_conversationId : option ObjectId)
    : M (Response + Conversation.t) :=
  try_catch
    (let conversationId :=
       match params_conversationId with
       | Some i => Some i
       | None => body_conversationId
       end in
     conversation ← match conversationId with
                    | Some i => Conversation_findById i
                    | None => mret None
                    end;
     match conversation with
     | None => mret (inl (json 404 "Conversation not found."))
     | Some conversation =>
         if negb (Conversation.isActiveParticipant conversation userId)
         then mret (inl (json 403 "Access denied. Not a participant of this conversation."))
         else mret (inr conversation)
     end)
    (mret (inl (json 500 "Server error."))).
End Auth.

(* ===================================================================== *)
(* routes/messages.js                                                    *)
(* ===================================================================== *)

Module MessageRoutes.
Import Store Http.

(* ---- POST /api/messages/conversations/:conversationId/messages ---- *)

Record SendRequest := {
  send_user : ObjectId;                 (* req.user._id *)
  send_conversationId : ObjectId;       (* req.params.conversationId *)
  send_content : option BodyContent;    (* req.body.content *)
  send_type : option string;            (* req.body.type *)
  send_replyTo : option ObjectId;       (* req.body.replyTo *)
  send_clientId : option string;        (* req.body.clientId *)
  send_deviceId : option string;        (* req.headers['x-device-id'] *)
  send_platform : option string;        (* req.headers['x-platform'] *)
  send_version : option string          (* req.headers['x-version'] *)
}.

(* body('type').optional().isIn([...]): the list leaves 'system' out *)
Definition type_isIn (ty : option string) : bool :=
  match ty with
  | None => true
  | Some s =>
      match MessageType.of_string s with
      | Some MessageType.system => false
      | Some _ => true
      | None => false
      end
  end.

(* content: type === 'text' ? { text: content } : content, as the schema
   casts it; None when the cast fails and save() will reject the document *)
Definition send_cast_content (ty : MessageType.t) (c : BodyContent)
    : option Content.t :=
  match ty, c with
  | MessageType.text, CStr s => Some (Content.set_text s Content.empty)
  | MessageType.text, CObj _ => None
  | _, CObj o => Some o
  | _, CStr _ => None
  end.

(* for (const participant of conversation.participants)
     if (!participant.user.equals(sender) && participant.isActive)
       await conversation.updateUnreadCount(participant.user) *)
Definition update_unread_loop (sender : ObjectId) (conversation : Conversation.t)
    : M Conversation.t :=
  for_of (Conversation.participants conversation)
    (fun conversation participant =>
       if negb (equals (Participant.user participant) sender)
          && Participant.isActive participant
       then
         let conversation :=
           Conversation.updateUnreadCount (Participant.user participant) 1
             conversation in
         save_conversation conversation;;
         mret conversation
       else mret conversation)
    conversation.

(* new Message({ conversation, sender, type, content, replyTo, metadata });
   None when a field does not cast, in which case save() rejects the
   document *)
Definition new_message (req : SendRequest) (newId : ObjectId)
    : option Message.t :=
  match MessageType.of_string (default "text" (send_type req)),
        send_content req with
  | Some type, Some content =>
      match send_cast_content type content with
      | Some content =>
          Some (Message.new newId (send_conversationId req)
                  (send_user req) type content (send_replyTo req) None
                  (Some {| Message.clientId := send_clientId req;
                           Message.deviceId := send_deviceId req;
                           Message.platform := send_platform req;
                           Message.version := send_version req |}))
      | None => None
      end
  | _, _ => None
  end.

Definition send (req : SendRequest) (newId : ObjectId) (now : Date)
    : M Response :=
  asyncHandler
    (if negb (notEmpty (send_content req) && type_isIn (send_type req))
     then mret (json 400 "Validation failed")
     else
       conversation ← Conversation_findById (send_conversationId req);
       match conversation with
       | None => mret (json 404 "Conversation not found")
       | Some conversation =>
           if negb (Conversation.isActiveParticipant conversation (send_user req))
           then mret (json 403 "Not a participant of this conversation")
           else
             match new_message req newId with
             | None => throw ValidationError
             | Some message =>
                 save_message message;;
                 (* populate and the displayContent virtual write nothing *)
                 (* Update conversation last message *)
                 let conversation :=
                   Conversation.set_lastMessage (Message._id message) now
                     conversation in
                 save_conversation conversation;;
                 (* Update unread count for other participants *)
                 update_unread_loop (send_user req) conversation;;
                 mret (json_data 201 "Message sent successfully"
                         (D_message message))
             end
       end).

(* ---- PUT /api/messages/:id ---- *)

Record EditRequest := {
  edit_user : ObjectId;                 (* req.user._id *)
  edit_id : ObjectId;                   (* req.params.id *)
  edit_messageId : option ObjectId;     (* req.body.messageId *)
  edit_content : option BodyContent     (* req.body.content *)
}.

(* The routes of this file are mounted on '/:id', so req.params has no
   messageId and authorizeMessageAccess reads req.body.messageId. *)
Definition edit (req : EditRequest) (now : Date) : M Response :=
  access ← Auth.authorizeMessageAccess (edit_user req) None (edit_messageId req);
  match access with
  | inl response => mret response
  | inr message =>
      asyncHandler
        (if negb (notEmpty (edit_content req))
         then mret (json 400 "Validation failed")
         else if negb (equals (Message.sender message) (edit_user req))
         then mret (json 403 "Only message sender can edit message")
         else if negb (MessageType.eqb (Message.type message) MessageType.text)
         then mret (json 400 "Only text messages can be edited")
         else
           match edit_content req with
           | Some (CStr content) =>
               let message := Message.editMessage content now message in
               save_message message;;
               mret (json_data 200 "Message edited successfully"
                       (D_message message))
           | _ => throw ValidationError   (* content.text does not cast *)
           end)
  end.

(* ---- DELETE /api/messages/:id ---- *)

Record DeleteRequest := {
  delete_user : ObjectId;
  delete_id : ObjectId;
  delete_messageId : option ObjectId
}.

Definition delete_ (req : DeleteRequest) (now : Date) : M Response :=
  access ← Auth.authorizeMessageAccess (delete_user req) None
             (delete_messageId req);
  match access with
  | inl response => mret response
  | inr message =>
      asyncHandler
        (let isSender := equals (Message.sender message) (delete_user req) in
         conversation ← Conversation_findById (Message.conversation message);
         match conversation with
         | None => throw TypeError
         | Some conversation =>
             let participant :=
               List.find
                 (fun p => equals (Participant.user p) (delete_user req))
                 (Conversation.participants conversation) in
             let isAdmin :=
               match participant with
               | Some p => Role.eqb (Participant.role p) Role.admin
               | None => false
               end in
             if negb isSender && negb isAdmin
             then mret (json 403 "Not authorized to delete this message")
             else
               let message := Message.deleteMessage (delete_user req) now message in
               save_message message;;
               mret (json 200 "Message deleted successfully")
         end)
  end.

(* ---- POST /api/messages/:id/reactions ---- *)

Record ReactionRequest := {
  reaction_user : ObjectId;
  reaction_id : ObjectId;
  reaction_messageId : option ObjectId;
  reaction_reaction : option string     (* body.reaction, or params.reaction *)
}.

Definition add_reaction (req : ReactionRequest) : M Response :=
  access ← Auth.authorizeMessageAccess (reaction_user req) None
             (reaction_messageId req);
  match access with
  | inl response => mret response
  | inr message =>
      asyncHandler
        (match reaction_reaction req with
         | Some reaction =>
             if String.eqb reaction ""
             then mret (json 400 "Validation failed")
             else
               let message :=
                 Message.addReaction reaction (reaction_user req) message in
               save_message message;;
               mret (json_data 200 "Reaction added successfully"
                       (D_reaction reaction
                          (Message.getReactionCount reaction message)))
         | None => mret (json 400 "Validation failed")
         end)
  end.

(* ---- DELETE /api/messages/:id/reactions/:reaction ---- *)

Record RemoveReactionRequest := {
  unreact_user : ObjectId;
  unreact_id : ObjectId;
  unreact_reaction : string;            (* req.params.reaction *)
  unreact_messageId : option ObjectId
}.

Definition remove_reaction (req : RemoveReactionRequest) : M Response :=
  access ← Auth.authorizeMessageAccess (unreact_user req) None
             (unreact_messageId req);
  match access with
  | inl response => mret response
  | inr message =>
      asyncHandler
        (let message :=
           Message.removeReaction (unreact_reaction req) (unreact_user req)
             message in
         save_message message;;
         mret (json 200 "Reaction removed successfully"))
  end.

(* ---- POST /api/messages/:id/forward ---- *)

Record ForwardRequest := {
  forward_user : ObjectId;
  forward_id : ObjectId;
  forward_messageId : option ObjectId;
  forward_conversationIds : option (list ObjectId)   (* body.conversationIds *)
}.

(* body('conversationIds').isArray({ min: 1 }) *)
Definition isArray_min1 (ids : option (list ObjectId)) : bool :=
  match ids with
  | Some (_ :: _) => true
  | _ => false
  end.

(* { _id: { $in: conversationIds },
     'participants.user': userId,
     'participants.isActive': true }
   Each dotted condition on the array field holds when some element of
   the array meets it; the query has no $elemMatch, so the two conditions
   may be met by different elements. *)
Definition forward_query (conversationIds : list ObjectId) (userId : ObjectId)
    (c : Conversation.t) : bool :=
  includes conversationIds (Conversation._id c)
  && List.existsb (fun p => equals (Participant.user p) userId)
       (Conversation.participants c)
  && List.existsb (fun p => Participant.isActive p)
       (Conversation.participants c).

(* the body of the forwarding loop; newId i is the _id Message.create
   gives the i-th copy *)
Definition forward_one (originalMessage : Message.t) (userId : ObjectId)
    (newId : nat -> ObjectId) (now : Date)
    (acc : nat * list Message.t) (conversation : Conversation.t)
    : M (nat * list Message.t) :=
  let forwardedMessage :=
    Message.forwardMessage (newId (fst acc)) (Conversation._id conversation)
      userId originalMessage in
  save_message forwardedMessage;;
  let conversation :=
    Conversation.set_lastMessage (Message._id forwardedMessage) now
      conversation in
  save_conversation conversation;;
  mret (S (fst acc), snd acc ++ [forwardedMessage]).

Definition forward (req : ForwardRequest) (newId : nat -> ObjectId)
    (now : Date) : M Response :=
  access ← Auth.authorizeMessageAccess (forward_user req) None
             (forward_messageId req);
  match access with
  | inl response => mret response
  | inr originalMessage =>
      asyncHandler
        (match forward_conversationIds req with
         | Some conversationIds =>
             if negb (isArray_min1 (Some conversationIds))
             then mret (json 400 "Validation failed")
             else
               (* Verify user is participant of all target conversations *)
               conversations ←
                 Conversation_find
                   (forward_query conversationIds (forward_user req));
               if negb (length conversations =? length conversationIds)%nat
               then mret (json 400 "Some conversations not found or access denied")
               else
                 (* Forward message to each conversation *)
                 r ← for_of conversations
                       (forward_one originalMessage (forward_user req) newId now)
                       (0%nat, []);
                 mret (json_data 200 "Message forwarded successfully"
                         (D_messages (snd r)))
         | None => mret (json 400 "Validation failed")
         end)
  end.
End MessageRoutes.

(* ===================================================================== *)
(* routes/conversations.js                                               *)
(* ===================================================================== *)

Module ConversationRoutes.
Import Store Http.

(* statics.findDirectConversation:
   { type: 'direct', 'participants.user': { $all: [userId1, userId2] },
     'participants.isActive': true } *)
Definition direct_query (userId1 userId2 : ObjectId) (c : Conversation.t) : bool :=
  ConversationType.eqb (Conversation.type c) ConversationType.direct
  && List.existsb (fun p => equals (Participant.user p) userId1)
       (Conversation.participants c)
  && List.existsb (fun p => equals (Participant.user p) userId2)
       (Conversation.participants c)
  && List.existsb (fun p => Participant.isActive p)
       (Conversation.participants c).

(* ---- POST /api/conversations ---- *)

Record CreateRequest := {
  create_user : ObjectId;
  create_participants : option (list ObjectId);   (* body.participants *)
  create_type : option ConversationType.t;  (* body.type when it is one of the two names *)
  create_name : option string
}.

(* a participant sub-document built from { user, role } and the defaults *)
Definition participant (userId : ObjectId) (role : Role.t) (now : Date)
    : Participant.t :=
  {| Participant.user := userId; Participant.role := role;
     Participant.joinedAt := now; Participant.leftAt := None;
     Participant.isActive := true |}.

Definition create_new (req : CreateRequest) (type : ConversationType.t)
    (participants : list ObjectId) (newId : ObjectId) (now : Date)
    : M Response :=
  let conversation :=
    Conversation.new newId type (create_name req)
      (participant (create_user req) Role.admin now
         :: List.map (fun p => participant p Role.member now) participants)
      now in
  save_conversation conversation;;
  mret (json_data 201 "Conversation created successfully"
          (D_conversation conversation)).

Definition create (req : CreateRequest) (newId : ObjectId) (now : Date)
    : M Response :=
  asyncHandler
    (match create_participants req, create_type req with
     | Some (p0 :: ps), Some type =>
         if negb (match create_name req with
                  | Some s => (String.length s <=? 100)%nat
                  | None => true
                  end)
         then mret (json 400 "Validation failed")
         else
           let participants := p0 :: ps in
           if ConversationType.eqb type ConversationType.direct
              && (length participants =? 1)%nat
           then
             existingConversation ←
               Conversation_findOne (direct_query (create_user req) p0);
             match existingConversation with
             | Some c =>
                 mret (json_data 200 "Direct conversation already exists"
                         (D_conversation c))
             | None => create_new req type participants newId now
             end
           else create_new req type participants newId now
     | _, _ => mret (json 400 "Validation failed")
     end).

(* the requests of the routes mounted on '/:id': req.params has no
   conversationId, so authorizeConversationAccess reads
   req.body.conversationId *)
Record Request := {
  req_user : ObjectId;
  req_id : ObjectId;                         (* req.params.id *)
  req_conversationId : option ObjectId;      (* req.body.conversationId *)
  req_participants : option (list ObjectId); (* req.body.participants *)
  req_participantId : ObjectId;              (* req.params.participantId *)
  req_duration : option Z                    (* req.body.duration, a number *)
}.

(* ---- PUT /api/conversations/:id/read ---- *)

(* Message.updateMany({ conversation, 'readBy.user': { $ne: user } },
                      { $push: { readBy: { user, readAt } } }) *)
Definition push_read (conversationId userId : ObjectId) (now : Date)
    (m : Message.t) : Message.t :=
  if equals (Message.conversation m) conversationId
     && negb (List.existsb (fun r => equals (fst r) userId) (Message.readBy m))
  then Message.markAsRead userId now m
  else m.

Definition read (req : Request) (now : Date) : M Response :=
  access ← Auth.authorizeConversationAccess (req_user req) None
             (req_conversationId req);
  match access with
  | inl response => mret response
  | inr conversation =>
      asyncHandler
        (let conversation :=
           Conversation.resetUnreadCount (req_user req) conversation in
         save_conversation conversation;;
         write (fun w =>
                  World.set_messages
                    (push_read (Conversation._id conversation) (req_user req)
                       now <$> World.messages w) w);;
         mret (json 200 "Conversation marked as read"))
  end.

(* ---- POST /api/conversations/:id/participants ---- *)

Definition role_may_manage (r : Role.t) : bool :=
  Role.eqb r Role.admin || Role.eqb r Role.moderator.

Definition add_participants (req : Request) (now : Date) : M Response :=
  access ← Auth.authorizeConversationAccess (req_user req) None
             (req_conversationId req);
  match access with
  | inl response => mret response
  | inr conversation =>
      asyncHandler
        (match req_participants req with
         | Some (p0 :: ps) =>
             match List.find (fun p => equals (Participant.user p) (req_user req))
                     (Conversation.participants conversation) with
             | None => throw TypeError
             | Some userParticipant =>
                 if ConversationType.eqb (Conversation.type conversation)
                      ConversationType.group
                    && negb (role_may_manage (Participant.role userParticipant))
                 then mret (json 403 "Insufficient permissions to add participants")
                 else
                   conversation ←
                     for_of (p0 :: ps)
                       (fun conversation participantId =>
                          let conversation :=
                            Conversation.addParticipant participantId
                              Role.member now conversation in
                          save_conversation conversation;;
                          mret conversation)
                       conversation;
                   mret (json_data 200 "Participants added successfully"
                           (D_conversation conversation))
             end
         | _ => mret (json 400 "Validation failed")
         end)
  end.

(* ---- DELETE /api/conversations/:id/participants/:participantId ---- *)

Definition remove_participant (req : Request) (now : Date) : M Response :=
  access ← Auth.authorizeConversationAccess (req_user req) None
             (req_conversationId req);
  match access with
  | inl response => mret response
  | inr conversation =>
      asyncHandler
        (let find_user u :=
           List.find (fun p => equals (Participant.user p) u)
             (Conversation.participants conversation) in
         match find_user (req_participantId req) with
         | None => mret (json 404 "Participant not found")
         | Some targetParticipant =>
             let is_group :=
               ConversationType.eqb (Conversation.type conversation)
                 ConversationType.group in
             match find_user (req_user req) with
             | None =>
                 if is_group then throw TypeError
                 else
                   let conversation :=
                     Conversation.removeParticipant (req_participantId req)
                       now conversation in
                   save_conversation conversation;;
                   mret (json 200 "Participant removed successfully")
             | Some userParticipant =>
                 if is_group
                    && negb (role_may_manage (Participant.role userParticipant))
                 then mret (json 403 "Insufficient permissions to remove participants")
                 else if is_group
                         && Role.eqb (Participant.role targetParticipant) Role.admin
                 then mret (json 403 "Cannot remove admin from conversation")
                 else
                   let conversation :=
                     Conversation.removeParticipant (req_participantId req)
                       now conversation in
                   save_conversation conversation;;
                   mret (json 200 "Participant removed successfully")
             end
         end)
  end.

(* ---- POST /api/conversations/:id/leave ---- *)

Definition leave (req : Request) (now : Date) : M Response :=
  access ← Auth.authorizeConversationAccess (req_user req) None
             (req_conversationId req);
  match access with
  | inl response => mret response
  | inr conversation =>
      asyncHandler
        (let is_group :=
           ConversationType.eqb (Conversation.type conversation)
             ConversationType.group in
         let participant :=
           List.find (fun p => equals (Participant.user p) (req_user req))
             (Conversation.participants conversation) in
         let admins :=
           List.filter (fun p => Role.eqb (Participant.role p) Role.admin)
             (Conversation.participants conversation) in
         let remove :=
           (let conversation :=
              Conversation.removeParticipant (req_user req) now conversation in
            save_conversation conversation;;
            mret (json 200 "Left conversation successfully")) in
         if is_group then
           match participant with
           | None => throw TypeError
           | Some participant =>
               if Role.eqb (Participant.role participant) Role.admin
                  && (length admins =? 1)%nat
               then mret (json 400 "Cannot leave group as the only admin. Transfer admin role first.")
               else remove
           end
         else remove)
  end.

(* ---- POST /api/conversations/:id/mute and /unmute ---- *)

Definition mute (req : Request) (now : Date) : M Response :=
  access ← Auth.authorizeConversationAccess (req_user req) None
             (req_conversationId req);
  match access with
  | inl response => mret response
  | inr conversation =>
      asyncHandler
        (let conversation :=
           Conversation.muteConversation (req_user req) (req_duration req)
             now conversation in
         save_conversation conversation;;
         mret (json 200 "Conversation muted successfully"))
  end.

Definition unmute (req : Request) : M Response :=
  access ← Auth.authorizeConversationAccess (req_user req) None
             (req_conversationId req);
  match access with
  | inl response => mret response
  | inr conversation =>
      asyncHandler
        (let conversation :=
           Conversation.unmuteConversation (req_user req) conversation in
         save_conversation conversation;;
         mret (json 200 "Conversation unmuted successfully"))
  end.
(* ---- POST /api/conversations/:id/archive and /unarchive ---- *)

Definition archive (req : Request) (now : Date) : M Response :=
  access ← Auth.authorizeConversationAccess (req_user req) None
             (req_conversationId req);
  match access with
  | inl response => mret response
  | inr conversation =>
      asyncHandler
        (let conversation :=
           Conversation.archiveConversation (req_user req) now conversation in
         save_conversation conversation;;
         mret (json 200 "Conversation archived successfully"))
  end.

Definition unarchive (req : Request) : M Response :=
  access ← Auth.authorizeConversationAccess (req_user req) None
             (req_conversationId req);
  match access with
  | inl response => mret response
  | inr conversation =>
      asyncHandler
        (let conversation :=
           Conversation.unarchiveConversation (req_user req) conversation in
         save_conversation conversation;;
         mret (json 200 "Conversation unarchived successfully"))
  end.

(* ---- DELETE /api/conversations/:id ---- *)

(* Message.deleteMany({ conversation: id }) *)
Definition deleteMany_messages (conversationId : ObjectId) (w : World.t)
    : World.t :=
  World.set_messages
    (filter (fun km => Message.conversation km.2 ≠ conversationId)
       (World.messages w)) w.

(* conversation.remove(), the document method of Mongoose up to version 6:
   the document with this _id is deleted *)
Definition remove_conversation (conversationId : ObjectId) (w : World.t)
    : World.t :=
  World.set_conversations (delete conversationId (World.conversations w)) w.

Definition delete_ (req : Request) : M Response :=
  access ← Auth.authorizeConversationAccess (req_user req) None
             (req_conversationId req);
  match access with
  | inl response => mret response
  | inr conversation =>
      asyncHandler
        (let remove :=
           ((* Delete all messages in conversation *)
            write (deleteMany_messages (Conversation._id conversation));;
            (* Delete conversation *)
            write (remove_conversation (Conversation._id conversation));;
            mret (json 200 "Conversation deleted successfully")) in
         (* For group conversations, only admin can delete *)
         if ConversationType.eqb (Conversation.type conversation)
              ConversationType.group
         then
           match List.find (fun p => equals (Participant.user p) (req_user req))
                   (Conversation.participants conversation) with
           | None => throw TypeError
           | Some participant =>
               if negb (Role.eqb (Participant.role participant) Role.admin)
               then mret (json 403 "Only admin can delete group conversations")
               else remove
           end
         else remove)
  end.
End ConversationRoutes.

(* ===================================================================== *)
(* socket/socketHandler.js                                               *)
(* ===================================================================== *)

Module SocketHandler.
Import Store.

(* what the handlers read of a connected, authenticated socket *)
Record Socket := {
  id : string;                   (* socket.id *)
  userId : ObjectId;             (* socket.userId, set by authenticateSocket *)
  firstName : string;            (* socket.user.firstName *)
  lastName : string;             (* socket.user.lastName *)
  deviceId : option string;      (* socket.handshake.auth.deviceId *)
  platform : option string;
  version : option string
}.

Definition isOnline (w : World.t) (userId : ObjectId) : bool :=
  bool_decide (is_Some (World.connectedUsers w !! userId)).

(* io.on('connection', socket => ...): the part run at connection time *)
Definition connection (socket : Socket) : M unit :=
  (fun w =>
     (Ok tt,
      World.set_connectedUsers
        (<[userId socket :=
             {| World.socketId := id socket; World.userId := userId socket |}]>
           (World.connectedUsers w)) w));;
  emit (World.broadcast_except (id socket)) "user:online"
    (World.P_user (userId socket)).

(* socket.on('disconnect', ...); User.findByIdAndUpdate is a write to a
   collection the world does not hold *)
Definition disconnect (socket : Socket) : M unit :=
  (fun w =>
     (Ok tt,
      World.set_connectedUsers
        (delete (userId socket) (World.connectedUsers w)) w));;
  try_catch
    (write (fun w => w);;
     emit (World.broadcast_except (id socket)) "user:offline"
       (World.P_user (userId socket)))
    (mret tt).

(* socket.on('conversation:join', ...); socket.join changes Socket.IO's
   room table, which the world does not hold *)
Definition conversation_join (socket : Socket) (conversationId : ObjectId)
    : M unit :=
  try_catch
    (conversation ← Conversation_findById conversationId;
     match conversation with
     | None =>
         emit (World.to_socket (id socket)) "error"
           (World.P_error "Conversation not found")
     | Some conversation =>
         if negb (Conversation.isActiveParticipant conversation (userId socket))
         then emit (World.to_socket (id socket)) "error"
                (World.P_error "Not a participant of this conversation")
         else
           let conversation :=
             Conversation.resetUnreadCount (userId socket) conversation in
           save_conversation conversation;;
           emit (World.to_socket (id socket)) "conversation:joined"
             (World.P_conversation conversationId)
     end)
    (emit (World.to_socket (id socket)) "error"
       (World.P_error "Failed to join conversation")).

(* data.message of 'message:send' *)
Record SendData := {
  type : option string;
  content : option Http.BodyContent;
  replyTo : option ObjectId;
  clientId : option string
}.

(* type: message.type || 'text' *)
Definition send_type (d : SendData) : string :=
  match type d with
  | Some s => if String.eqb s "" then "text" else s
  | None => "text"
  end.

(* content: message.content as the schema casts it; None when the cast
   fails and save() will reject the document *)
Definition send_cast_content (c : option Http.BodyContent) : option Content.t :=
  match c with
  | None => Some Content.empty
  | Some (Http.CObj o) => Some o
  | Some (Http.CStr _) => None
  end.

(* Send notifications to offline participants *)
Definition notify_loop (socket : Socket) (conversationId : ObjectId)
    (newMessage : Message.t) (conversation : Conversation.t) : M unit :=
  for_of (Conversation.participants conversation)
    (fun _ participant =>
       if negb (equals (Participant.user participant) (userId socket))
          && Participant.isActive participant
       then
         w ← get;
         match World.connectedUsers w !! Participant.user participant with
         | Some _ => mret tt
         | None =>
             emit (World.to_room ("user:" +:+ Participant.user participant))
               "notification:new"
               (World.P_notification
                  (firstName socket +:+ " " +:+ lastName socket)
                  (Message.displayContent newMessage)
                  conversationId (Message._id newMessage))
         end
       else mret tt)
    tt.

(* new Message({ conversation, sender, type, content, replyTo, metadata });
   None when the type is not in the enum or the content does not cast, in
   which case save() rejects the document *)
Definition new_message (socket : Socket) (conversationId : ObjectId)
    (message : SendData) (newId : ObjectId) : option Message.t :=
  match MessageType.of_string (send_type message),
        send_cast_content (content message) with
  | Some ty, Some c =>
      Some (Message.new newId conversationId (userId socket) ty c
              (replyTo message) None
              (Some {| Message.clientId := clientId message;
                       Message.deviceId := deviceId socket;
                       Message.platform := platform socket;
                       Message.version := version socket |}))
  | _, _ => None
  end.

(* the try block of socket.on('message:send', ...) *)
Definition message_send_try (socket : Socket) (conversationId : ObjectId)
    (message : SendData) (newId : ObjectId) (now : Date) : M unit :=
  conversation ← Conversation_findById conversationId;
  match conversation with
  | None =>
      emit (World.to_socket (id socket)) "error"
        (World.P_error "Conversation not found")
  | Some conversation =>
      if negb (Conversation.isActiveParticipant conversation (userId socket))
      then emit (World.to_socket (id socket)) "error"
             (World.P_error "Not a participant of this conversation")
      else
        match new_message socket conversationId message newId with
        | None => throw ValidationError
        | Some newMessage =>
            save_message newMessage;;
            (* Update conversation last message *)
            let conversation :=
              Conversation.set_lastMessage (Message._id newMessage) now
                conversation in
            save_conversation conversation;;
            (* Update unread count for other participants *)
            conversation ←
              MessageRoutes.update_unread_loop (userId socket) conversation;
            emit (World.to_room_except ("conversation:" +:+ conversationId)
                    (id socket))
              "message:new" (World.P_message newMessage);;
            emit (World.to_socket (id socket)) "message:sent"
              (World.P_sent (clientId message) newMessage);;
            notify_loop socket conversationId newMessage conversation
        end
  end.

(* socket.on('message:send', ...) *)
Definition message_send (socket : Socket) (conversationId : ObjectId)
    (message : SendData) (newId : ObjectId) (now : Date) : M unit :=
  try_catch (message_send_try socket conversationId message newId now)
    (emit (World.to_socket (id socket)) "error"
       (World.P_error "Failed to send message")).

(* socket.on('message:react', ...) *)
Definition message_react (socket : Socket) (messageId : ObjectId)
    (reaction : string) : M unit :=
  try_catch
    (message ← Message_findById messageId;
     match message with
     | None =>
         emit (World.to_socket (id socket)) "error"
           (World.P_error "Message not found")
     | Some message =>
         conversation ← Conversation_findById (Message.conversation message);
         match conversation with
         | None => throw TypeError
         | Some conversation =>
             if negb (Conversation.isActiveParticipant conversation (userId socket))
             then emit (World.to_socket (id socket)) "error"
                    (World.P_error "Not authorized to react to this message")
             else
               let message :=
                 Message.addReaction reaction (userId socket) message in
               save_message message;;
               emit (World.to_room_except
                       ("conversation:" +:+ Message.conversation message)
                       (id socket))
                 "message:reaction"
                 (World.P_reaction messageId reaction (userId socket))
         end
     end)
    (emit (World.to_socket (id socket)) "error"
       (World.P_error "Failed to add reaction")).

(* socket.on('message:remove_reaction', ...) *)
Definition message_remove_reaction (socket : Socket) (messageId : ObjectId)
    (reaction : string) : M unit :=
  try_catch
    (message ← Message_findById messageId;
     match message with
     | None =>
         emit (World.to_socket (id socket)) "error"
           (World.P_error "Message not found")
     | Some message =>
         let message :=
           Message.removeReaction reaction (userId socket) message in
         save_message message;;
         emit (World.to_room_except
                 ("conversation:" +:+ Message.conversation message)
                 (id socket))
           "message:reaction_removed"
           (World.P_reaction messageId reaction (userId socket))
     end)
    (emit (World.to_socket (id socket)) "error"
       (World.P_error "Failed to remove reaction")).
End SocketHandler.

(* ===================================================================== *)
(* Vocabulary of the statements                                          *)
(* ===================================================================== *)

(* the text displayContent shows for a deleted message *)
Definition placeholder : string := "This message was deleted".

(* the list a reaction token maps to, [] when the token has no entry *)
Definition reactors (m : Message.t) (reaction : string) : list ObjectId :=
  default [] (Message.reactions m !! reaction).

(* no token is stored with an empty list of users *)
Definition reactions_wf (m : Message.t) : Prop :=
  ∀ reaction users, Message.reactions m !! reaction = Some users → users ≠ [].

(* the operations that mutate a stored message *)
Inductive MessageOp :=
| Op_addReaction (reaction : string) (userId : ObjectId)
| Op_removeReaction (reaction : string) (userId : ObjectId)
| Op_markAsRead (userId : ObjectId) (now : Date)
| Op_markAsDelivered (userId : ObjectId) (now : Date)
| Op_editMessage (newContent : string) (now : Date)
| Op_deleteMessage (userId : ObjectId) (now : Date).

Definition apply_op (m : Message.t) (op : MessageOp) : Message.t :=
  match op with
  | Op_addReaction r u => Message.addReaction r u m
  | Op_removeReaction r u => Message.removeReaction r u m
  | Op_markAsRead u now => Message.markAsRead u now m
  | Op_markAsDelivered u now => Message.markAsDelivered u now m
  | Op_editMessage s now => Message.editMessage s now m
  | Op_deleteMessage u now => Message.deleteMessage u now m
  end.

Definition apply_ops (ops : list MessageOp) (m : Message.t) : Message.t :=
  List.fold_left apply_op ops m.

(* the participant entries a conversation holds for a user *)
Definition entries (c : Conversation.t) (userId : ObjectId) : list Participant.t :=
  List.filter (fun p => equals (Participant.user p) userId)
    (Conversation.participants c).

(* the mute entry mutedBy.find returns for a user *)
Definition mute_of (c : Conversation.t) (userId : ObjectId) : option MuteEntry.t :=
  List.find (fun m => equals (MuteEntry.user m) userId) (Conversation.mutedBy c).

(* Weakest precondition of a computation: Q holds of the value and the
   world when it returns, E of the world when it throws. *)
Definition wp {A} (c : Store.M A) (Q : A → World.t → Prop)
    (E : World.t → Prop) (w : World.t) : Prop :=
  match c w with
  | (Store.Ok a, w') => Q a w'
  | (Store.Throw _, w') => E w'
  end.

(* every stored conversation satisfies Q *)
Definition conv_inv (Q : Conversation.t → Prop) (w : World.t) : Prop :=
  ∀ k c, World.conversations w !! k = Some c → Q c.

(* a conversation is stored under its own _id *)
Definition store_wf (w : World.t) : Prop :=
  ∀ k c, World.conversations w !! k = Some c → Conversation._id c = k.

(* the unread counter of a user, as updateUnreadCount reads it *)
Definition unread (c : Conversation.t) (userId : ObjectId) : Z :=
  default 0%Z (Conversation.unreadCount c !! userId).


(* the document the unread loop of a send leaves in memory *)
Definition bump_unread (sender : ObjectId) (ps : list Participant.t)
    (c : Conversation.t) : Conversation.t :=
  List.fold_left
    (fun c p =>
       if negb (equals (Participant.user p) sender) && Participant.isActive p
       then Conversation.updateUnreadCount (Participant.user p) 1 c
       else c)
    ps c.

(* no stored counter is negative *)
Definition counters_nonneg (c : Conversation.t) : Prop :=
  ∀ u n, Conversation.unreadCount c !! u = Some n → (0 ≤ n)%Z.








(* every stored message satisfies Q *)
Definition msg_inv (Q : Message.t → Prop) (w : World.t) : Prop :=
  ∀ k m, World.messages w !! k = Some m → Q m.

(* the store is well formed: conversations sit under their own _id and no
   stored message maps a reaction token to an empty list *)
Definition world_wf (w : World.t) : Prop :=
  store_wf w ∧ msg_inv reactions_wf w.

(* a computation keeps the store well formed, whether it returns or throws *)
Definition keeps {A} (c : Store.M A) : Prop :=
  ∀ w, world_wf w → wp c (fun _ => world_wf) world_wf w.

(* the requests the embedding covers *)
Inductive Request :=
| R_send (req : MessageRoutes.SendRequest) (newId : ObjectId) (now : Date)
| R_edit (req : MessageRoutes.EditRequest) (now : Date)
| R_delete (req : MessageRoutes.DeleteRequest) (now : Date)
| R_add_reaction (req : MessageRoutes.ReactionRequest)
| R_remove_reaction (req : MessageRoutes.RemoveReactionRequest)
| R_forward (req : MessageRoutes.ForwardRequest) (newId : nat → ObjectId)
    (now : Date)
| R_create (req : ConversationRoutes.CreateRequest) (newId : ObjectId)
    (now : Date)
| R_read (req : ConversationRoutes.Request) (now : Date)
| R_add_participants (req : ConversationRoutes.Request) (now : Date)
| R_remove_participant (req : ConversationRoutes.Request) (now : Date)
| R_leave (req : ConversationRoutes.Request) (now : Date)
| R_mute (req : ConversationRoutes.Request) (now : Date)
| R_unmute (req : ConversationRoutes.Request)
| R_connection (socket : SocketHandler.Socket)
| R_disconnect (socket : SocketHandler.Socket)
| R_conversation_join (socket : SocketHandler.Socket) (conversationId : ObjectId)
| R_message_send (socket : SocketHandler.Socket) (conversationId : ObjectId)
    (message : SocketHandler.SendData) (newId : ObjectId) (now : Date)
| R_message_react (socket : SocketHandler.Socket) (messageId : ObjectId)
    (reaction : string)
| R_message_remove_reaction (socket : SocketHandler.Socket)
    (messageId : ObjectId) (reaction : string).

Definition handle (w : World.t) (r : Request) : World.t :=
  match r with
  | R_send req newId now => snd (MessageRoutes.send req newId now w)
  | R_edit req now => snd (MessageRoutes.edit req now w)
  | R_delete req now => snd (MessageRoutes.delete_ req now w)
  | R_add_reaction req => snd (MessageRoutes.add_reaction req w)
  | R_remove_reaction req => snd (MessageRoutes.remove_reaction req w)
  | R_forward req newId now => snd (MessageRoutes.forward req newId now w)
  | R_create req newId now => snd (ConversationRoutes.create req newId now w)
  | R_read req now => snd (ConversationRoutes.read req now w)
  | R_add_participants req now =>
      snd (ConversationRoutes.add_participants req now w)
  | R_remove_participant req now =>
      snd (ConversationRoutes.remove_participant req now w)
  | R_leave req now => snd (ConversationRoutes.leave req now w)
  | R_mute req now => snd (ConversationRoutes.mute req now w)
  | R_unmute req => snd (ConversationRoutes.unmute req w)
  | R_connection socket => snd (SocketHandler.connection socket w)
  | R_disconnect socket => snd (SocketHandler.disconnect socket w)
  | R_conversation_join socket cid =>
      snd (SocketHandler.conversation_join socket cid w)
  | R_message_send socket cid message newId now =>
      snd (SocketHandler.message_send socket cid message newId now w)
  | R_message_react socket mid reaction =>
      snd (SocketHandler.message_react socket mid reaction w)
  | R_message_remove_reaction socket mid reaction =>
      snd (SocketHandler.message_remove_reaction socket mid reaction w)
  end.

(* the worlds the server reaches from an empty store, whatever faults the
   store injects on the way *)
Inductive reachable : World.t → Prop :=
| reachable_empty : reachable World.empty
| reachable_faults w fs : reachable w → reachable (World.set_faults fs w)
| reachable_handle w r : reachable w → reachable (handle w r).

(* ---- models/User.js: presence and the block list ---- *)

Module UserStatus.
Inductive t := online | offline | away | busy | invisible.
End UserStatus.

Module User.
(* the paths of the document the methods below read or write *)
Record t := {
  _id : ObjectId;
  status : UserStatus.t;
  isOnline : bool;
  lastSeen : Date;
  blockedUsers : list ObjectId;
  blockedBy : list ObjectId
}.

(* methods.updateOnlineStatus *)
Definition updateOnlineStatus (online : bool) (now : Date) (u : t) : t :=
  {| _id := _id u;
     status := if negb online then UserStatus.offline else status u;
     isOnline := online; lastSeen := now;
     blockedUsers := blockedUsers u; blockedBy := blockedBy u |}.

(* methods.blockUser *)
Definition blockUser (userId : ObjectId) (u : t) : t :=
  if negb (includes (blockedUsers u) userId)
  then {| _id := _id u; status := status u; isOnline := isOnline u;
          lastSeen := lastSeen u;
          blockedUsers := blockedUsers u ++ [userId];
          blockedBy := blockedBy u |}
  else u.

(* methods.unblockUser *)
Definition unblockUser (userId : ObjectId) (u : t) : t :=
  {| _id := _id u; status := status u; isOnline := isOnline u;
     lastSeen := lastSeen u;
     blockedUsers :=
       List.filter (fun id => negb (equals id userId)) (blockedUsers u);
     blockedBy := blockedBy u |}.

(* methods.isBlocked *)
Definition isBlocked (userId : ObjectId) (u : t) : bool :=
  List.existsb (fun id => equals id userId) (blockedUsers u).

(* methods.isBlockedBy *)
Definition isBlockedBy (userId : ObjectId) (u : t) : bool :=
  List.existsb (fun id => equals id userId) (blockedBy u).
End User.

(* ---- vocabulary of the further properties ---- *)

(* the user has an entry in archivedBy *)
Definition archived (c : Conversation.t) (userId : ObjectId) : bool :=
  List.existsb (fun a => equals (fst a) userId) (Conversation.archivedBy c).

(* the users of the participant slots, in order *)
Definition slot_users (c : Conversation.t) : list ObjectId :=
  Participant.user <$> Conversation.participants c.

(* the first participant slot of the user: participants.find(p =>
   p.user.equals(userId)) *)
Definition slot (c : Conversation.t) (userId : ObjectId) : option Participant.t :=
  List.find (fun p => equals (Participant.user p) userId)
    (Conversation.participants c).

(* the slots whose role is admin *)
Definition admins (c : Conversation.t) : list Participant.t :=
  List.filter (fun p => Role.eqb (Participant.role p) Role.admin)
    (Conversation.participants c).

(* the user may read the message: its sender, or an active participant of
   its conversation *)
Definition may_access (w : World.t) (u : ObjectId) (m : Message.t) : Prop :=
  Message.sender m = u
  ∨ ∃ c, World.conversations w !! Message.conversation m = Some c
         ∧ Conversation.isActiveParticipant c u = true.

(* socket.emit('error', { message: reason }) *)
Definition error_to (socket : SocketHandler.Socket) (reason : string)
    : World.Emit :=
  {| World.target := World.to_socket (SocketHandler.id socket);
     World.event := "error"; World.payload := World.P_error reason |}.

(* the users a 'message:send' notifies: one entry for each active slot of
   a user other than the sender who has no registered socket in w *)
Definition notified (w : World.t) (sender : ObjectId) (ps : list Participant.t)
    : list ObjectId :=
  Participant.user
  <$> List.filter
        (fun p => negb (equals (Participant.user p) sender)
                  && Participant.isActive p
                  && negb (SocketHandler.isOnline w (Participant.user p)))
        ps.

(* the 'notification:new' event sent to the room of user u *)
Definition notification (socket : SocketHandler.Socket)
    (conversationId : ObjectId) (m : Message.t) (u : ObjectId) : World.Emit :=
  {| World.target := World.to_room ("user:" +:+ u);
     World.event := "notification:new";
     World.payload :=
       World.P_notification
         (SocketHandler.firstName socket +:+ " " +:+ SocketHandler.lastName socket)
         (Message.displayContent m) conversationId (Message._id m) |}.

(* the document the loop of POST .../participants leaves in memory *)
Definition add_all (ps : list ObjectId) (now : Date) (c : Conversation.t)
    : Conversation.t :=
  List.fold_left (fun c p => Conversation.addParticipant p Role.member now c)
    ps c.

(* ---- the invariant of the store ---- *)

(* what holds of every stored message: no reaction token with an empty
   list, no user twice under a token or among the read receipts, a text
   within the schema's bound, the edit mark on text messages only, and the
   deletion mark together with the user who set it *)
Definition message_ok (m : Message.t) : Prop :=
  reactions_wf m
  ∧ (∀ t, NoDup (reactors m t))
  ∧ NoDup (Message.readBy m).*1
  ∧ Message.validate m = true
  ∧ (Message.isEdited m = true → Message.type m = MessageType.text)
  ∧ (Message.isDeleted m = true ↔ is_Some (Message.deletedBy m)).

(* a slot is active exactly when it has no leaving date *)
Definition slot_ok (p : Participant.t) : Prop :=
  Participant.isActive p = true ↔ Participant.leftAt p = None.

(* what holds of every stored conversation: no negative unread counter,
   no user twice in the mute list or in the archive list, a name within
   the schema's bound, a slot with role admin, and consistent slots *)
Definition conversation_ok (c : Conversation.t) : Prop :=
  counters_nonneg c
  ∧ NoDup (MuteEntry.user <$> Conversation.mutedBy c)
  ∧ NoDup (Conversation.archivedBy c).*1
  ∧ Conversation.validate c = true
  ∧ Role.admin ∈ Participant.role <$> Conversation.participants c
  ∧ Forall slot_ok (Conversation.participants c).

(* a message is stored under its own _id *)
Definition messages_keyed (w : World.t) : Prop :=
  ∀ k m, World.messages w !! k = Some m → Message._id m = k.

Definition world_ok (w : World.t) : Prop :=
  store_wf w ∧ messages_keyed w
  ∧ msg_inv message_ok w ∧ conv_inv conversation_ok w.

(* a computation keeps the invariant, whether it returns or throws, and
   returns a value that satisfies P *)
Definition keeps_ok {A} (c : Store.M A) (P : A → Prop) : Prop :=
  ∀ w, world_ok w → wp c (fun a w' => P a ∧ world_ok w') world_ok w.

(* all the requests of the embedding *)
Inductive Step :=
| Step_request (r : Request)
| Step_archive (req : ConversationRoutes.Request) (now : Date)
| Step_unarchive (req : ConversationRoutes.Request)
| Step_delete_conversation (req : ConversationRoutes.Request).

Definition run (w : World.t) (s : Step) : World.t :=
  match s with
  | Step_request r => handle w r
  | Step_archive req now => snd (ConversationRoutes.archive req now w)
  | Step_unarchive req => snd (ConversationRoutes.unarchive req w)
  | Step_delete_conversation req => snd (ConversationRoutes.delete_ req w)
  end.

(* the worlds the server reaches from an empty store by any requests,
   whatever faults the store injects on the way *)
Inductive reachable_all : World.t → Prop :=
| reachable_all_empty : reachable_all World.empty
| reachable_all_faults w fs :
    reachable_all w → reachable_all (World.set_faults fs w)
| reachable_all_run w s : reachable_all w → reachable_all (run w s).

(* ===================================================================== *)
(* Basic facts                                                           *)
(* ===================================================================== *)

Lemma equals_refl (a : ObjectId) : equals a a = true.
Proof. apply String.eqb_refl. Qed.

Lemma equals_true (a b : ObjectId) : equals a b = true ↔ a = b.
Proof. apply String.eqb_eq. Qed.

Lemma equals_false (a b : ObjectId) : equals a b = false ↔ a ≠ b.
Proof. apply String.eqb_neq. Qed.

Lemma includes_true (l : list ObjectId) (x : ObjectId) :
  includes l x = true ↔ x ∈ l.
Proof.
  unfold includes. rewrite List.existsb_exists, list_elem_of_In. split.
  - intros (y & Hy & E). apply equals_true in E. by subst.
  - intros H. exists x. split; [done | apply equals_refl].
Qed.

Lemma includes_snoc (l : list ObjectId) (x : ObjectId) :
  includes (l ++ [x]) x = true.
Proof. apply includes_true. set_solver. Qed.

Lemma set_reactions_same (m : Message.t) :
  Message.set_reactions (Message.reactions m) m = m.
Proof. by destruct m. Qed.

(* ===================================================================== *)
(* Reactions                                                             *)
(* ===================================================================== *)

Section reactions.
Variables (reaction : string) (userId : ObjectId).

(* what addReaction leaves under the token *)
Lemma addReaction_reactions (m : Message.t) :
  Message.reactions (Message.addReaction reaction userId m)
  = <[reaction :=
        if includes (reactors m reaction) userId
        then reactors m reaction
        else reactors m reaction ++ [userId]]> (Message.reactions m).
Proof.
  unfold Message.addReaction, reactors.
  destruct (Message.reactions m !! reaction) as [us|] eqn:E; simpl.
  - rewrite ?E. simpl.
    destruct (includes us userId); simpl; [|done].
    by rewrite insert_id.
  - rewrite ?lookup_insert_eq. simpl. by rewrite insert_insert_eq.
Qed.

Lemma addReaction_includes (m : Message.t) :
  includes (reactors (Message.addReaction reaction userId m) reaction) userId
  = true.
Proof.
  unfold reactors at 1. rewrite addReaction_reactions, lookup_insert_eq. simpl.
  destruct (includes (reactors m reaction) userId) eqn:E; [done|].
  apply includes_snoc.
Qed.

Lemma filter_out_only (l : list ObjectId) :
  (∀ x, x ∈ l → x = userId) →
  List.filter (fun id => negb (equals id userId)) l = [].
Proof.
  induction l as [|a l IH]; intros H; [done|]. simpl.
  rewrite (H a) by set_solver. rewrite equals_refl. simpl.
  apply IH. intros x Hx. apply H. set_solver.
Qed.

Lemma filter_out_absent (l : list ObjectId) :
  includes l userId = false →
  List.filter (fun id => negb (equals id userId)) l = l.
Proof.
  induction l as [|a l IH]; [done|]. simpl.
  intros H. apply orb_false_iff in H as [H1 H2].
  rewrite H1. simpl. by rewrite IH.
Qed.

Lemma removeReaction_no_empty (m : Message.t) :
  Message.reactions (Message.removeReaction reaction userId m) !! reaction
  ≠ Some [].
Proof.
  unfold Message.removeReaction.
  destruct (Message.reactions m !! reaction) as [us|] eqn:E.
  - destruct (List.filter _ us) as [|a l] eqn:F; simpl.
    + by rewrite lookup_delete_eq.
    + by rewrite lookup_insert_eq.
  - by rewrite E.
Qed.
End reactions.

(** C5. Reaction round trip and idempotence.  When no user other than U
    is recorded under token t, addReaction(t,U) followed by
    removeReaction(t,U) deletes the entry of t and leaves every other
    token as it was; whatever the message, removeReaction never leaves t
    mapped to an empty list; and a second addReaction(t,U) changes
    nothing. *)
Theorem reaction_roundtrip_and_idempotence
    (m : Message.t) (t : string) (U : ObjectId) :
  ((∀ x, x ∈ reactors m t → x = U) →
   Message.reactions (Message.removeReaction t U (Message.addReaction t U m))
   = delete t (Message.reactions m)
   ∧ Message.reactions
       (Message.removeReaction t U (Message.addReaction t U m)) !! t = None)
  ∧ Message.reactions (Message.removeReaction t U m) !! t ≠ Some []
  ∧ Message.addReaction t U (Message.addReaction t U m)
    = Message.addReaction t U m.
Proof.
  split; [|split].
  - intros Honly.
    assert (Message.reactions
              (Message.removeReaction t U (Message.addReaction t U m))
            = delete t (Message.reactions m)) as ->.
    { unfold Message.removeReaction.
      rewrite addReaction_reactions, lookup_insert_eq.
      rewrite filter_out_only; simpl.
      - by rewrite delete_insert_eq.
      - intros x Hx. destruct (includes (reactors m t) U); [by apply Honly|].
        apply elem_of_app in Hx as [Hl|Hr]; [by apply Honly|].
        by apply list_elem_of_singleton in Hr. }
    split; [done | apply lookup_delete_eq].
  - apply removeReaction_no_empty.
  - pose proof (addReaction_includes t U m) as Hin.
    set (m' := Message.addReaction t U m) in *.
    unfold Message.addReaction at 1. unfold reactors in Hin.
    destruct (Message.reactions m' !! t) as [us|] eqn:E.
    + rewrite bool_decide_eq_true_2 by eauto. rewrite E. simpl in *.
      rewrite Hin. simpl. apply set_reactions_same.
    + simpl in Hin. discriminate.
Qed.

Lemma reaction_roundtrip_witness :
  let m := Message.new "m1" "c1" "u1" MessageType.text Content.empty None None None in
  Message.reactions
    (Message.removeReaction "👍" "u2" (Message.addReaction "👍" "u2" m))
  !! "👍" = None.
Proof.
  intros m.
  apply (proj1 (reaction_roundtrip_and_idempotence m "👍" "u2")).
  intros x Hx. vm_compute in Hx. by apply elem_of_nil in Hx.
Defined.

(* The invariant of the reaction mapping: a new message satisfies it and
   every operation on a message keeps it. *)
Lemma reactions_wf_new id conv sndr ty c reply fwd md :
  reactions_wf (Message.new id conv sndr ty c reply fwd md).
Proof. intros t us H. simpl in H. by rewrite lookup_empty in H. Qed.

Lemma reactions_wf_addReaction (m : Message.t) t U :
  reactions_wf m → reactions_wf (Message.addReaction t U m).
Proof.
  intros Hwf t' us. rewrite addReaction_reactions.
  destruct (decide (t = t')) as [->|Hne].
  - rewrite lookup_insert_eq. intros [= <-].
    destruct (includes (reactors m t') U) eqn:E.
    + apply includes_true in E. intros Hnil. rewrite Hnil in E.
      by apply elem_of_nil in E.
    + by destruct (reactors m t').
  - rewrite lookup_insert_ne by done. apply Hwf.
Qed.

Lemma reactions_wf_removeReaction (m : Message.t) t U :
  reactions_wf m → reactions_wf (Message.removeReaction t U m).
Proof.
  intros Hwf t' us. destruct (decide (t = t')) as [->|Hne].
  - intros H Hnil. subst us. by apply (removeReaction_no_empty t' U m).
  - unfold Message.removeReaction.
    destruct (Message.reactions m !! t) as [l|]; [|apply Hwf].
    destruct (length _ =? 0)%nat; simpl.
    + rewrite lookup_delete_ne by done. apply Hwf.
    + rewrite lookup_insert_ne by done. apply Hwf.
Qed.

Lemma reactions_wf_apply_op (m : Message.t) (op : MessageOp) :
  reactions_wf m → reactions_wf (apply_op m op).
Proof.
  destruct op; simpl.
  - apply reactions_wf_addReaction.
  - apply reactions_wf_removeReaction.
  - unfold Message.markAsRead. by destruct (List.find _ _).
  - unfold Message.markAsDelivered. by destruct (List.find _ _).
  - done.
  - done.
Qed.

Lemma reactions_wf_apply_ops (ops : list MessageOp) (m : Message.t) :
  reactions_wf m → reactions_wf (apply_ops ops m).
Proof.
  revert m. induction ops as [|op ops IH]; intros m H; [done|].
  simpl. apply IH. by apply reactions_wf_apply_op.
Qed.

(** C9. removeReaction on an absent entry.  On a message whose reaction
    mapping stores no empty list (which holds of every new message, is
    kept by every message operation and so holds of every message the
    server stores: reactions_wf_new, reactions_wf_apply_ops,
    reachable_world_wf), removeReaction(t,U) returns the message
    unchanged when t has no entry and when U is not among the users of t.
    The function is total: it has a result on every input. *)
Theorem removeReaction_absent_unchanged
    (m : Message.t) (t : string) (U : ObjectId) :
  reactions_wf m →
  (Message.reactions m !! t = None
   ∨ ∃ users, Message.reactions m !! t = Some users ∧ includes users U = false) →
  Message.removeReaction t U m = m.
Proof.
  intros Hwf [Hnone | (users & Hsome & Hout)]; unfold Message.removeReaction.
  - by rewrite Hnone.
  - rewrite Hsome. rewrite filter_out_absent by done.
    destruct users as [|a l]; [by apply Hwf in Hsome|]. simpl.
    rewrite insert_id by done. apply set_reactions_same.
Qed.

Lemma removeReaction_absent_witness :
  let m0 := Message.new "m1" "c1" "u1" MessageType.text Content.empty None None None in
  let m := Message.addReaction "🔥" "u1" m0 in
  Message.removeReaction "👍" "u2" m = m ∧ Message.removeReaction "🔥" "u2" m = m.
Proof.
  intros m0 m.
  assert (reactions_wf m) as Hwf
    by (apply reactions_wf_addReaction, reactions_wf_new).
  split.
  - apply (removeReaction_absent_unchanged m "👍" "u2" Hwf).
    left. vm_compute. reflexivity.
  - apply (removeReaction_absent_unchanged m "🔥" "u2" Hwf).
    right. exists ["u1"]. split; vm_compute; reflexivity.
Defined.

(** C10. Frame condition of editMessage.  For every message, of any type,
    editMessage(s) sets content.text to s, isEdited to true and editedAt to
    the current time, and leaves sender, conversation, type, replyTo,
    forwardedFrom, reactions, readBy, deliveredTo, isDeleted and every other
    field, the other parts of content included, as they were. *)
Theorem editMessage_frame (m : Message.t) (s : string) (now : Date) :
  let m' := Message.editMessage s now m in
  Content.text (Message.content m') = Some s
  ∧ Message.isEdited m' = true
  ∧ Message.editedAt m' = Some now
  ∧ Message.sender m' = Message.sender m
  ∧ Message.conversation m' = Message.conversation m
  ∧ Message.type m' = Message.type m
  ∧ Message.replyTo m' = Message.replyTo m
  ∧ Message.forwardedFrom m' = Message.forwardedFrom m
  ∧ Message.reactions m' = Message.reactions m
  ∧ Message.readBy m' = Message.readBy m
  ∧ Message.deliveredTo m' = Message.deliveredTo m
  ∧ Message.isDeleted m' = Message.isDeleted m
  ∧ Message._id m' = Message._id m
  ∧ Message.deletedAt m' = Message.deletedAt m
  ∧ Message.deletedBy m' = Message.deletedBy m
  ∧ Message.metadata m' = Message.metadata m
  ∧ Content.media (Message.content m') = Content.media (Message.content m)
  ∧ Content.location (Message.content m') = Content.location (Message.content m)
  ∧ Content.contact (Message.content m') = Content.contact (Message.content m)
  ∧ Content.sticker (Message.content m') = Content.sticker (Message.content m).
Proof. repeat split. Qed.

(* ===================================================================== *)
(* Array helpers                                                         *)
(* ===================================================================== *)

Section arrays.
Context {A : Type} (p : A → bool).

Lemma find_none_filter (l : list A) :
  List.find p l = None ↔ List.filter p l = [].
Proof.
  induction l as [|x l IH]; simpl; [done|].
  destruct (p x); [split; discriminate | done].
Qed.

Lemma filter_nil_existsb (q : A → bool) (l : list A) :
  (∀ x, q x = true → p x = true) →
  List.filter p l = [] → List.existsb q l = false.
Proof.
  intros Hqp. induction l as [|x l IH]; simpl; [done|].
  destruct (p x) eqn:E; [discriminate|]. intros H.
  destruct (q x) eqn:Q; [apply Hqp in Q; congruence|]. by apply IH.
Qed.

Lemma find_snoc (l : list A) (e : A) :
  List.find p l = None → p e = true → List.find p (l ++ [e]) = Some e.
Proof.
  induction l as [|x l IH]; simpl; intros H He; [by rewrite He|].
  destruct (p x); [discriminate | by apply IH].
Qed.

Lemma find_update_first (f : A → A) (l : list A) :
  (∀ x, p x = true → p (f x) = true) →
  List.find p (update_first p f l) = f <$> List.find p l.
Proof.
  intros Hf. induction l as [|x l IH]; simpl; [done|].
  destruct (p x) eqn:E; simpl; [by rewrite Hf | by rewrite E].
Qed.

Lemma update_first_idem (f g : A → A) (l : list A) :
  (∀ x, p x = true → p (f x) = true) →
  update_first p g (update_first p f l)
  = update_first p (fun x => g (f x)) l.
Proof.
  intros Hf. induction l as [|x l IH]; simpl; [done|].
  destruct (p x) eqn:E; simpl; [by rewrite Hf | by rewrite E, IH].
Qed.

Lemma update_first_ext (f g : A → A) (l : list A) :
  (∀ x, f x = g x) → update_first p f l = update_first p g l.
Proof.
  intros H. induction l as [|x l IH]; simpl; [done|].
  destruct (p x); [by rewrite H | by rewrite IH].
Qed.

Lemma filter_out_find (l : list A) :
  List.find p (List.filter (fun x => negb (p x)) l) = None.
Proof.
  induction l as [|x l IH]; simpl; [done|].
  destruct (p x) eqn:E; simpl; [done | by rewrite E].
Qed.
End arrays.

(* ===================================================================== *)
(* Participants                                                          *)
(* ===================================================================== *)

Lemma removeParticipant_inactive (c : Conversation.t) (U : ObjectId) (now : Date) :
  (length (entries c U) ≤ 1)%nat →
  Conversation.isActiveParticipant (Conversation.removeParticipant U now c) U = false.
Proof.
  unfold Conversation.isActiveParticipant, Conversation.removeParticipant, entries.
  simpl. induction (Conversation.participants c) as [|x l IH]; simpl; [done|].
  destruct (equals (Participant.user x) U) eqn:E; simpl; intros H.
  - rewrite E. simpl.
    apply (filter_nil_existsb (fun p => equals (Participant.user p) U)).
    + intros y Hy. by apply andb_true_iff in Hy as [? _].
    + destruct (List.filter _ l); [done | simpl in H; lia].
  - rewrite E. simpl. by apply IH.
Qed.

Lemma addParticipant_present (c : Conversation.t) (U : ObjectId) (r : Role.t)
    (now : Date) :
  entries c U ≠ [] → Conversation.addParticipant U r now c = c.
Proof.
  unfold entries, Conversation.addParticipant. intros H.
  destruct (List.find _ _) eqn:F; [done|].
  by apply find_none_filter in F.
Qed.

Lemma addParticipant_absent_active (c : Conversation.t) (U : ObjectId)
    (r : Role.t) (now : Date) :
  entries c U = [] →
  Conversation.isActiveParticipant (Conversation.addParticipant U r now c) U = true.
Proof.
  unfold entries, Conversation.addParticipant. intros H.
  apply find_none_filter in H. rewrite H.
  unfold Conversation.isActiveParticipant. simpl.
  rewrite List.existsb_app. simpl. rewrite equals_refl. simpl.
  apply orb_true_r.
Qed.

Lemma addParticipant_entries (c : Conversation.t) (U : ObjectId) (r : Role.t)
    (now : Date) :
  entries (Conversation.addParticipant U r now c) U ≠ [].
Proof.
  unfold Conversation.addParticipant.
  destruct (List.find _ _) eqn:F.
  - intros H. apply find_none_filter in H. unfold entries in *. congruence.
  - unfold entries. simpl. rewrite List.filter_app. simpl.
    rewrite equals_refl. by destruct (List.filter _ _).
Qed.

(** C4 (amended).  removeParticipant(C,U) leaves isActiveParticipant(C,U)
    false when C holds at most one participant entry for U.
    addParticipant(C,U) leaves it true when U has no entry in C or is
    already active; when C already holds an entry for U, also one that
    was deactivated when U left, addParticipant changes nothing.  Both
    operations are idempotent: a second addParticipant changes nothing,
    and a second removeParticipant changes no membership (and nothing at
    all when it reads the same clock). *)
Theorem participant_membership
    (c : Conversation.t) (U : ObjectId) (r r' : Role.t) (now now' : Date) :
  ((length (entries c U) ≤ 1)%nat →
   Conversation.isActiveParticipant (Conversation.removeParticipant U now c) U
   = false)
  ∧ (entries c U = [] ∨ Conversation.isActiveParticipant c U = true →
     Conversation.isActiveParticipant (Conversation.addParticipant U r now c) U
     = true)
  ∧ (entries c U ≠ [] → Conversation.addParticipant U r now c = c)
  ∧ Conversation.addParticipant U r' now' (Conversation.addParticipant U r now c)
    = Conversation.addParticipant U r now c
  ∧ Conversation.removeParticipant U now (Conversation.removeParticipant U now c)
    = Conversation.removeParticipant U now c
  ∧ (∀ V, Conversation.isActiveParticipant
            (Conversation.removeParticipant U now'
               (Conversation.removeParticipant U now c)) V
          = Conversation.isActiveParticipant
              (Conversation.removeParticipant U now c) V).
Proof.
  repeat apply conj.
  - apply removeParticipant_inactive.
  - intros [Hnone | Hact]; [by apply addParticipant_absent_active|].
    rewrite addParticipant_present; [done|].
    intros Hnil. unfold Conversation.isActiveParticipant in Hact.
    assert (List.existsb
              (fun p => equals (Participant.user p) U && Participant.isActive p)
              (Conversation.participants c) = false) as Hf; [|congruence].
    apply (filter_nil_existsb (fun p => equals (Participant.user p) U));
      [|done].
    intros y Hy. by apply andb_true_iff in Hy as [? _].
  - apply addParticipant_present.
  - apply addParticipant_present, addParticipant_entries.
  - unfold Conversation.removeParticipant, Conversation.set_participants.
    simpl. f_equal.
    rewrite update_first_idem by done. by apply update_first_ext.
  - intros V. unfold Conversation.removeParticipant,
      Conversation.isActiveParticipant. simpl.
    rewrite update_first_idem by done.
    induction (Conversation.participants c) as [|x l IH]; simpl; [done|].
    destruct (equals (Participant.user x) U); simpl; [done | by rewrite IH].
Qed.

Lemma participant_membership_witness :
  let c :=
    Conversation.new "c1" ConversationType.group None
      [ConversationRoutes.participant "u1" Role.admin 0%Z;
       ConversationRoutes.participant "u2" Role.member 0%Z] 0%Z in
  Conversation.isActiveParticipant (Conversation.removeParticipant "u2" 5%Z c) "u2"
  = false
  ∧ Conversation.isActiveParticipant
      (Conversation.addParticipant "u3" Role.member 5%Z c) "u3" = true
  ∧ Conversation.addParticipant "u2" Role.member 5%Z c = c.
Proof.
  intros c.
  pose proof (participant_membership c "u2" Role.member Role.member 5%Z 5)
    as (Hrem & _ & Hkeep & _).
  pose proof (participant_membership c "u3" Role.member Role.member 5%Z 5)
    as (_ & Hadd & _).
  split; [|split].
  - apply Hrem. vm_compute. lia.
  - apply Hadd. left. vm_compute. reflexivity.
  - apply Hkeep. vm_compute. discriminate.
Defined.

(** C4, counterexample.  U leaves and is added again: addParticipant finds
    the deactivated entry and does nothing, so U is not an active
    participant right after addParticipant.  With two entries for U,
    removeParticipant deactivates the first only. *)
Lemma readd_after_leave_stays_inactive :
  let c :=
    Conversation.new "c1" ConversationType.group None
      [ConversationRoutes.participant "u1" Role.admin 0%Z;
       ConversationRoutes.participant "u2" Role.member 0%Z] 0%Z in
  let left := Conversation.removeParticipant "u2" 5%Z c in
  Conversation.isActiveParticipant
    (Conversation.addParticipant "u2" Role.member 9%Z left) "u2" = false
  ∧ Conversation.addParticipant "u2" Role.member 9%Z left = left
  ∧ (let twice :=
       Conversation.new "c2" ConversationType.group None
         [ConversationRoutes.participant "u1" Role.admin 0%Z;
          ConversationRoutes.participant "u2" Role.member 0%Z;
          ConversationRoutes.participant "u2" Role.member 0%Z] 0%Z in
     Conversation.isActiveParticipant
       (Conversation.removeParticipant "u2" 5%Z twice) "u2" = true).
Proof. vm_compute. repeat split. Qed.

(* ===================================================================== *)
(* Mute                                                                  *)
(* ===================================================================== *)

(* the expiry muteConversation computes from the duration *)
Lemma muteConversation_entry (c : Conversation.t) (U : ObjectId)
    (duration : option Z) (now : Date) :
  ∃ e, mute_of (Conversation.muteConversation U duration now c) U = Some e
       ∧ MuteEntry.mutedAt e = now
       ∧ MuteEntry.mutedUntil e
         = match duration with
           | Some d => if (d =? 0)%Z then None else Some (now + d)%Z
           | None => None
           end.
Proof.
  unfold mute_of, Conversation.muteConversation.
  destruct (List.find _ (Conversation.mutedBy c)) as [e|] eqn:F; simpl.
  - rewrite find_update_first by done. rewrite F. simpl. eauto.
  - rewrite (find_snoc _ _ _ F) by (simpl; apply equals_refl). eauto.
Qed.

Lemma isUserMuted_spec (c : Conversation.t) (U : ObjectId) (now : Date)
    (e : MuteEntry.t) :
  mute_of c U = Some e →
  Conversation.isUserMuted U now c
  = if match MuteEntry.mutedUntil e with
       | Some until => (now <? until)%Z
       | None => false
       end
    then (true, c)
    else (false, Conversation.unmuteConversation U c).
Proof. unfold mute_of, Conversation.isUserMuted. by intros ->. Qed.

Lemma unmuteConversation_mute_of (c : Conversation.t) (U : ObjectId) :
  mute_of (Conversation.unmuteConversation U c) U = None.
Proof.
  unfold mute_of, Conversation.unmuteConversation. simpl.
  apply (filter_out_find (fun m => equals (MuteEntry.user m) U)).
Qed.


(** C7, the code at the failing input.  After muteConversation(C,U) with
    no duration (and likewise with duration 0), isUserMuted(C,U) answers
    false at every later time, and the read removes the mute entry of U:
    the entry has no expiry, the test `mutedUntil && mutedUntil > now` is
    false for it, and the method falls through to the branch that removes
    expired mutes. *)
Theorem indefinite_mute_reads_unmuted
    (c : Conversation.t) (U : ObjectId) (now later : Date) :
  let c1 := Conversation.muteConversation U None now c in
  (∃ e, mute_of c1 U = Some e ∧ MuteEntry.mutedUntil e = None)
  ∧ fst (Conversation.isUserMuted U later c1) = false
  ∧ mute_of (snd (Conversation.isUserMuted U later c1)) U = None.
Proof.
  intros c1.
  destruct (muteConversation_entry c U None now) as (e & He & _ & Hu).
  fold c1 in He. split; [eauto|].
  rewrite (isUserMuted_spec _ _ _ _ He), Hu. simpl.
  split; [done | apply unmuteConversation_mute_of].
Qed.

(* ===================================================================== *)
(* Presence registry                                                     *)
(* ===================================================================== *)

Lemma connection_connectedUsers (s : SocketHandler.Socket) (w : World.t) :
  World.connectedUsers (snd (SocketHandler.connection s w))
  = <[SocketHandler.userId s :=
        {| World.socketId := SocketHandler.id s;
           World.userId := SocketHandler.userId s |}]> (World.connectedUsers w).
Proof. reflexivity. Qed.

Lemma disconnect_connectedUsers (s : SocketHandler.Socket) (w : World.t) :
  World.connectedUsers (snd (SocketHandler.disconnect s w))
  = delete (SocketHandler.userId s) (World.connectedUsers w).
Proof.
  unfold SocketHandler.disconnect, mbind, Store.M_bind, Store.bind,
    Store.try_catch, Store.write, Store.emit. simpl.
  destruct (World.faults w) as [|[] fs]; reflexivity.
Qed.

(** C8 (amended).  The registry is keyed by user and nothing else.  A
    connection of user U with handle h maps U to h, replacing whatever
    handle was recorded (last writer wins).  The disconnect of a socket
    authenticated as U deletes the entry of U whichever handle it holds,
    so U is offline afterwards; the entries of other users are untouched,
    and a repeated disconnect changes nothing more. *)
Theorem presence_registry_user_keyed (s : SocketHandler.Socket) (w : World.t) :
  let U := SocketHandler.userId s in
  World.connectedUsers (snd (SocketHandler.connection s w)) !! U
  = Some {| World.socketId := SocketHandler.id s; World.userId := U |}
  ∧ SocketHandler.isOnline (snd (SocketHandler.connection s w)) U = true
  ∧ World.connectedUsers (snd (SocketHandler.disconnect s w)) !! U = None
  ∧ SocketHandler.isOnline (snd (SocketHandler.disconnect s w)) U = false
  ∧ (∀ V, V ≠ U →
       World.connectedUsers (snd (SocketHandler.disconnect s w)) !! V
       = World.connectedUsers w !! V)
  ∧ World.connectedUsers
      (snd (SocketHandler.disconnect s (snd (SocketHandler.disconnect s w))))
    = World.connectedUsers (snd (SocketHandler.disconnect s w)).
Proof.
  intros U. unfold SocketHandler.isOnline.
  rewrite !disconnect_connectedUsers, connection_connectedUsers.
  fold U. rewrite lookup_insert_eq, lookup_delete_eq.
  repeat apply conj; try done.
  - intros V HV. by rewrite lookup_delete_ne.
  - apply delete_delete_eq.
Qed.

Lemma presence_registry_witness :
  let s := {| SocketHandler.id := "h1"; SocketHandler.userId := "u1";
              SocketHandler.firstName := "Ada"; SocketHandler.lastName := "L";
              SocketHandler.deviceId := None; SocketHandler.platform := None;
              SocketHandler.version := None |} in
  let s' := {| SocketHandler.id := "h9"; SocketHandler.userId := "u2";
               SocketHandler.firstName := "Bo"; SocketHandler.lastName := "M";
               SocketHandler.deviceId := None; SocketHandler.platform := None;
               SocketHandler.version := None |} in
  let w := snd (SocketHandler.connection s' World.empty) in
  World.connectedUsers (snd (SocketHandler.disconnect s w)) !! "u2"
  = World.connectedUsers w !! "u2".
Proof.
  intros s s' w.
  destruct (presence_registry_user_keyed s w) as (_ & _ & _ & _ & Hother & _).
  apply Hother. discriminate.
Defined.

(** C8, counterexample.  U connects with handle h1, reconnects with handle
    h2, and then the socket h1 disconnects: the entry of U is deleted
    although it held h2, and U is offline. *)
Lemma stale_disconnect_unregisters_user :
  let s1 := {| SocketHandler.id := "h1"; SocketHandler.userId := "u1";
               SocketHandler.firstName := "Ada"; SocketHandler.lastName := "L";
               SocketHandler.deviceId := None; SocketHandler.platform := None;
               SocketHandler.version := None |} in
  let s2 := {| SocketHandler.id := "h2"; SocketHandler.userId := "u1";
               SocketHandler.firstName := "Ada"; SocketHandler.lastName := "L";
               SocketHandler.deviceId := None; SocketHandler.platform := None;
               SocketHandler.version := None |} in
  let w2 := snd (SocketHandler.connection s2
                   (snd (SocketHandler.connection s1 World.empty))) in
  World.connectedUsers w2 !! "u1"
  = Some {| World.socketId := "h2"; World.userId := "u1" |}
  ∧ SocketHandler.isOnline (snd (SocketHandler.disconnect s1 w2)) "u1" = false
  ∧ World.connectedUsers (snd (SocketHandler.disconnect s1 w2)) !! "u1" = None.
Proof. vm_compute. repeat split. Qed.

(* ===================================================================== *)
(* Reasoning about computations                                          *)
(* ===================================================================== *)

Section wp_rules.
Context {A B : Type}.
Implicit Types (Q : A → World.t → Prop) (E : World.t → Prop) (w : World.t).

Lemma wp_ret (a : A) Q E w : Q a w → wp (mret a) Q E w.
Proof. done. Qed.

Lemma wp_throw (e : Store.Error) Q E w : E w → wp (Store.throw e) Q E w.
Proof. done. Qed.

Lemma wp_bind (c : Store.M B) (k : B → Store.M A) Q E w :
  wp c (fun b => wp (k b) Q E) E w → wp (c ≫= k) Q E w.
Proof.
  unfold wp, mbind, Store.M_bind, Store.bind.
  by destruct (c w) as [[b|e] w'].
Qed.

Lemma wp_try_catch (c h : Store.M A) Q E w :
  wp c Q (wp h Q E) w → wp (Store.try_catch c h) Q E w.
Proof.
  unfold wp, Store.try_catch. by destruct (c w) as [[a|e] w'].
Qed.

Lemma wp_mono (c : Store.M A) Q Q' E E' w :
  wp c Q E w →
  (∀ a w', Q a w' → Q' a w') → (∀ w', E w' → E' w') →
  wp c Q' E' w.
Proof.
  unfold wp. destruct (c w) as [[a|e] w']; eauto.
Qed.

End wp_rules.

Lemma wp_write (f : World.t → World.t) (Q : unit → World.t → Prop)
    (E : World.t → Prop) (w : World.t) :
  match World.faults w with
  | true :: fs => E (World.set_faults fs w)
  | false :: fs => Q tt (World.set_faults fs (f w))
  | [] => Q tt (f w)
  end →
  wp (Store.write f) Q E w.
Proof.
  unfold wp, Store.write. by destruct (World.faults w) as [|[] fs].
Qed.

Lemma wp_save_message (m : Message.t) (Q : unit → World.t → Prop)
    (E : World.t → Prop) (w : World.t) :
  (if Message.validate m
   then wp (Store.write
              (fun w => World.set_messages
                          (<[Message._id m := m]> (World.messages w)) w)) Q E w
   else E w) →
  wp (Store.save_message m) Q E w.
Proof. unfold Store.save_message. by destruct (Message.validate m). Qed.

Lemma wp_save_conversation (c : Conversation.t) (Q : unit → World.t → Prop)
    (E : World.t → Prop) (w : World.t) :
  (if Conversation.validate c
   then wp (Store.write
              (fun w => World.set_conversations
                          (<[Conversation._id c := c]> (World.conversations w)) w))
          Q E w
   else E w) →
  wp (Store.save_conversation c) Q E w.
Proof. unfold Store.save_conversation. by destruct (Conversation.validate c). Qed.

Lemma wp_emit t ev p (Q : unit → World.t → Prop) (E : World.t → Prop)
    (w : World.t) :
  Q tt (World.set_outbox
          (World.outbox w ++
             [{| World.target := t; World.event := ev; World.payload := p |}]) w) →
  wp (Store.emit t ev p) Q E w.
Proof. done. Qed.

Lemma wp_for_of {X S} (l : list X) (body : S → X → Store.M S)
    (J : S → World.t → Prop) (E : World.t → Prop) (s : S) (w : World.t) :
  J s w →
  (∀ s x w, x ∈ l → J s w → wp (body s x) J E w) →
  wp (Store.for_of l body s) J E w.
Proof.
  revert s w. induction l as [|x l IH]; intros s w HJ Hbody; simpl.
  - by apply wp_ret.
  - apply (wp_bind (body s x) (Store.for_of l body)).
    eapply wp_mono; [apply Hbody; [set_solver | done] | | done].
    intros s' w' HJ'. apply IH; [done|].
    intros s'' y w'' Hy. apply Hbody. set_solver.
Qed.

Lemma wp_Conversation_findById (i : ObjectId)
    (Q : option Conversation.t → World.t → Prop) (E : World.t → Prop)
    (w : World.t) :
  Q (World.conversations w !! i) w → wp (Store.Conversation_findById i) Q E w.
Proof. done. Qed.

Lemma wp_get (Q : World.t → World.t → Prop) (E : World.t → Prop) (w : World.t) :
  Q w w → wp Store.get Q E w.
Proof. done. Qed.

(* Invariants of the steps that follow the persist of a send.  I is a
   property of the world that the fault list and the outbox do not affect
   and that a write of a conversation satisfying Jc keeps. *)
Section invariants.
Variables (I : World.t → Prop) (Jc : Conversation.t → Prop).
Hypothesis I_faults : ∀ fs w, I w → I (World.set_faults fs w).
Hypothesis I_outbox : ∀ o w, I w → I (World.set_outbox o w).
Hypothesis I_conv :
  ∀ c w, Jc c → I w →
    I (World.set_conversations
         (<[Conversation._id c := c]> (World.conversations w)) w).
Hypothesis J_bump : ∀ c u, Jc c → Jc (Conversation.updateUnreadCount u 1 c).
Hypothesis J_last : ∀ c i now, Jc c → Jc (Conversation.set_lastMessage i now c).






End invariants.

(* ===================================================================== *)
(* Send: atomicity at the persist step                                   *)
(* ===================================================================== *)

Lemma http_new_message_id req newId m :
  MessageRoutes.new_message req newId = Some m → Message._id m = newId.
Proof.
  unfold MessageRoutes.new_message.
  destruct (MessageType.of_string _); [|done].
  destruct (MessageRoutes.send_content req); [|done].
  destruct (MessageRoutes.send_cast_content _ _); [|done].
  by intros [= <-].
Qed.

Lemma socket_new_message_id socket cid data newId m :
  SocketHandler.new_message socket cid data newId = Some m →
  Message._id m = newId.
Proof.
  unfold SocketHandler.new_message.
  destruct (MessageType.of_string _); [|done].
  destruct (SocketHandler.send_cast_content _); [|done].
  by intros [= <-].
Qed.









(* ===================================================================== *)
(* Unread counters                                                       *)
(* ===================================================================== *)


Lemma bump_unread_frame S ps c :
  Conversation._id (bump_unread S ps c) = Conversation._id c
  ∧ Conversation.participants (bump_unread S ps c) = Conversation.participants c
  ∧ Conversation.lastMessage (bump_unread S ps c) = Conversation.lastMessage c
  ∧ Conversation.lastMessageAt (bump_unread S ps c) = Conversation.lastMessageAt c
  ∧ Conversation.validate (bump_unread S ps c) = Conversation.validate c
  ∧ Conversation.unreadCount (bump_unread S ps c) !! S
    = Conversation.unreadCount c !! S.
Proof.
  revert c. induction ps as [|p ps IH]; intros c; [done|]. simpl.
  destruct (equals (Participant.user p) S) eqn:E; simpl; [apply IH|].
  destruct (Participant.isActive p); [|apply IH].
  destruct (IH (Conversation.updateUnreadCount (Participant.user p) 1 c))
    as (-> & -> & -> & -> & -> & ->).
  repeat split. simpl. apply equals_false in E. by rewrite lookup_insert_ne.
Qed.



(* the unread loop, exactly: when it completes, the document in memory and
   in the store is bump_unread of the document it started from *)
Lemma update_unread_loop_exact S cs0 ps c w :
  World.conversations w = <[Conversation._id c := c]> cs0 →
  wp (Store.for_of ps
        (fun conversation participant =>
           if negb (equals (Participant.user participant) S)
              && Participant.isActive participant
           then
             Store.save_conversation
               (Conversation.updateUnreadCount (Participant.user participant) 1
                  conversation);;
             mret (Conversation.updateUnreadCount (Participant.user participant)
                     1 conversation)
           else mret conversation)
        c)
    (fun c' w' =>
       c' = bump_unread S ps c
       ∧ World.conversations w' = <[Conversation._id c := c']> cs0
       ∧ World.messages w' = World.messages w
       ∧ World.outbox w' = World.outbox w
       ∧ World.connectedUsers w' = World.connectedUsers w)
    (fun _ => True) w.
Proof.
  revert c w. induction ps as [|p ps IH]; intros c w Hw; simpl.
  - by apply wp_ret.
  - apply (wp_bind _ (Store.for_of ps _)).
    destruct (negb _ && _).
    + apply wp_bind, wp_save_conversation.
      destruct (Conversation.validate _); [|done].
      set (c1 := Conversation.updateUnreadCount (Participant.user p) 1 c).
      assert (∀ w1, World.conversations w1 = <[Conversation._id c1 := c1]> cs0 →
                World.messages w1 = World.messages w →
                World.outbox w1 = World.outbox w →
                World.connectedUsers w1 = World.connectedUsers w →
                wp (Store.for_of ps
                      (fun conversation participant =>
                         if negb (equals (Participant.user participant) S)
                            && Participant.isActive participant
                         then
                           Store.save_conversation
                             (Conversation.updateUnreadCount
                                (Participant.user participant) 1 conversation);;
                           mret (Conversation.updateUnreadCount
                                   (Participant.user participant) 1 conversation)
                         else mret conversation)
                      c1)
                  (fun c' w' =>
                     c' = bump_unread S ps c1
                     ∧ World.conversations w' = <[Conversation._id c := c']> cs0
                     ∧ World.messages w' = World.messages w
                     ∧ World.outbox w' = World.outbox w
                     ∧ World.connectedUsers w' = World.connectedUsers w)
                  (fun _ => True) w1) as Hnext.
      { intros w1 H1 H2 H3 H4.
        eapply wp_mono; [by apply IH | | done].
        intros c' w' (-> & Hc & ? & ? & ?). simpl in Hc.
        repeat split; congruence. }
      apply wp_write.
      destruct (World.faults w) as [|[] fs]; [| done |];
        apply wp_ret, Hnext; simpl; try done;
        by rewrite Hw, insert_insert_eq.
    + apply wp_ret. by apply IH.
Qed.

(* what a send that succeeds leaves in the store *)
Lemma http_send_success req newId now w resp w' :
  store_wf w →
  MessageRoutes.send req newId now w = (Store.Ok resp, w') →
  Http.status resp = 201%nat →
  ∃ c m,
    World.conversations w !! MessageRoutes.send_conversationId req = Some c
    ∧ Conversation.isActiveParticipant c (MessageRoutes.send_user req) = true
    ∧ MessageRoutes.new_message req newId = Some m
    ∧ World.messages w' = <[newId := m]> (World.messages w)
    ∧ World.conversations w'
      = <[MessageRoutes.send_conversationId req :=
            bump_unread (MessageRoutes.send_user req)
              (Conversation.participants c)
              (Conversation.set_lastMessage newId now c)]>
          (World.conversations w).
Proof.
  intros Hwf Hrun Hst.
  set (Q := fun (resp : Http.Response) (w' : World.t) =>
              Http.status resp = 201%nat →
              ∃ c m,
                World.conversations w !! MessageRoutes.send_conversationId req
                = Some c
                ∧ Conversation.isActiveParticipant c (MessageRoutes.send_user req)
                  = true
                ∧ MessageRoutes.new_message req newId = Some m
                ∧ World.messages w' = <[newId := m]> (World.messages w)
                ∧ World.conversations w'
                  = <[MessageRoutes.send_conversationId req :=
                        bump_unread (MessageRoutes.send_user req)
                          (Conversation.participants c)
                          (Conversation.set_lastMessage newId now c)]>
                      (World.conversations w)).
  assert (wp (MessageRoutes.send req newId now) Q (fun _ => True) w) as H.
  { unfold MessageRoutes.send, Http.asyncHandler. apply wp_try_catch.
    destruct (negb _); [by apply wp_ret|].
    apply wp_bind, wp_Conversation_findById.
    destruct (World.conversations w !! _) as [c|] eqn:Hc; [|by apply wp_ret].
    destruct (negb _) eqn:Hact; [by apply wp_ret|].
    apply negb_false_iff in Hact.
    destruct (MessageRoutes.new_message req newId) as [m|] eqn:Hm;
      [|by apply wp_throw, wp_ret].
    pose proof (http_new_message_id _ _ _ Hm) as Hid.
    pose proof (Hwf _ _ Hc) as Hcid.
    apply wp_bind, wp_save_message.
    destruct (Message.validate m); [|by apply wp_ret].
    assert (∀ w1,
              World.messages w1 = <[newId := m]> (World.messages w) →
              World.conversations w1 = World.conversations w →
              wp (Store.save_conversation
                    (Conversation.set_lastMessage (Message._id m) now c) ≫=
                  (fun _ =>
                     MessageRoutes.update_unread_loop
                       (MessageRoutes.send_user req)
                       (Conversation.set_lastMessage (Message._id m) now c) ≫=
                     (fun _ =>
                        mret (Http.json_data 201 "Message sent successfully"
                                (Http.D_message m)))))
                Q (wp (mret (Http.json 500 "Something went wrong!")) Q
                     (fun _ => True)) w1) as Htail.
    { intros w1 Hms Hcs. rewrite Hid.
      set (cl := Conversation.set_lastMessage newId now c).
      assert (∀ w2,
                World.messages w2 = <[newId := m]> (World.messages w) →
                World.conversations w2
                = <[Conversation._id cl := cl]> (World.conversations w) →
                wp (MessageRoutes.update_unread_loop
                      (MessageRoutes.send_user req) cl ≫=
                    (fun _ =>
                       mret (Http.json_data 201 "Message sent successfully"
                               (Http.D_message m))))
                  Q (wp (mret (Http.json 500 "Something went wrong!")) Q
                       (fun _ => True)) w2) as Hloop.
      { intros w2 Hms2 Hcs2. apply wp_bind.
        unfold MessageRoutes.update_unread_loop.
        eapply wp_mono;
          [by apply (update_unread_loop_exact _ (World.conversations w)) | | done].
        intros c' w3 (-> & Hcs3 & Hms3 & _). apply wp_ret. intros _.
        exists c, m. repeat split; try done; [congruence|].
        rewrite Hcs3. simpl. by rewrite Hcid. }
      apply wp_bind, wp_save_conversation.
      destruct (Conversation.validate cl); [|by apply wp_ret].
      apply wp_write.
      destruct (World.faults w1) as [|[] fs]; [| by apply wp_ret |];
        apply Hloop; simpl; by rewrite ?Hms, ?Hcs. }
    apply wp_write.
    destruct (World.faults w) as [|[] fs]; [| by apply wp_ret |];
      apply Htail; simpl; by rewrite ?Hid. }
  unfold wp in H. rewrite Hrun in H. by apply H.
Qed.


(* ---- invariants of the requests that touch unread counters ---- *)


(* I is a property of the stored conversations, Jc the property of one
   conversation it rests on; the sends and the resets keep I. *)
Section request_invariants.
Variables (I : World.t → Prop) (Jc : Conversation.t → Prop).
Hypothesis I_faults : ∀ fs w, I w → I (World.set_faults fs w).
Hypothesis I_outbox : ∀ o w, I w → I (World.set_outbox o w).
Hypothesis I_messages : ∀ ms w, I w → I (World.set_messages ms w).
Hypothesis I_conv :
  ∀ c w, Jc c → I w →
    I (World.set_conversations
         (<[Conversation._id c := c]> (World.conversations w)) w).
Hypothesis I_get :
  ∀ w k c, I w → World.conversations w !! k = Some c → Jc c.
Hypothesis J_bump : ∀ c u, Jc c → Jc (Conversation.updateUnreadCount u 1 c).
Hypothesis J_last : ∀ c i now, Jc c → Jc (Conversation.set_lastMessage i now c).
Hypothesis J_reset : ∀ c u, Jc c → Jc (Conversation.resetUnreadCount u c).





End request_invariants.

(* ---- no counter is negative ---- *)

Lemma counters_nonneg_update c u :
  counters_nonneg c → counters_nonneg (Conversation.updateUnreadCount u 1 c).
Proof.
  intros Hc v n. unfold Conversation.updateUnreadCount. simpl.
  destruct (decide (u = v)) as [->|Hne].
  - rewrite lookup_insert_eq. intros [= <-].
    destruct (Conversation.unreadCount c !! v) as [k|] eqn:E; simpl; [|lia].
    apply Hc in E. lia.
  - rewrite lookup_insert_ne by done. apply Hc.
Qed.

Lemma counters_nonneg_reset c u :
  counters_nonneg c → counters_nonneg (Conversation.resetUnreadCount u c).
Proof.
  intros Hc v n. unfold Conversation.resetUnreadCount. simpl.
  destruct (decide (u = v)) as [->|Hne].
  - rewrite lookup_insert_eq. by intros [= <-].
  - rewrite lookup_insert_ne by done. apply Hc.
Qed.



(* ---- a conversation stays stored under its own _id ---- *)

Lemma store_wf_empty : store_wf World.empty.
Proof. intros k c H. simpl in H. by rewrite lookup_empty in H. Qed.

Lemma store_wf_save c w :
  store_wf w →
  store_wf
    (World.set_conversations
       (<[Conversation._id c := c]> (World.conversations w)) w).
Proof.
  intros Hw k c'. simpl.
  destruct (decide (Conversation._id c = k)) as [Heq|Hne].
  - rewrite <- Heq, lookup_insert_eq. by intros [= <-].
  - rewrite lookup_insert_ne by done. apply Hw.
Qed.

Lemma store_wf_singleton (c : Conversation.t) (w : World.t) :
  World.conversations w = {[Conversation._id c := c]} → store_wf w.
Proof.
  intros Hw k c' Hk. rewrite Hw in Hk.
  apply lookup_singleton_Some in Hk as [<- <-]. done.
Qed.




(* ===================================================================== *)
(* Deleted messages                                                      *)
(* ===================================================================== *)

Lemma apply_op_isDeleted (m : Message.t) (op : MessageOp) :
  Message.isDeleted m = true → Message.isDeleted (apply_op m op) = true.
Proof.
  intros H. destruct op; simpl; try done.
  - unfold Message.addReaction. by destruct (negb _).
  - unfold Message.removeReaction.
    destruct (Message.reactions m !! reaction); [|done].
    by destruct (length _ =? 0)%nat.
  - unfold Message.markAsRead. by destruct (List.find _ _).
  - unfold Message.markAsDelivered. by destruct (List.find _ _).
Qed.

Lemma apply_ops_isDeleted (ops : list MessageOp) (m : Message.t) :
  Message.isDeleted m = true → Message.isDeleted (apply_ops ops m) = true.
Proof.
  revert m. induction ops as [|op ops IH]; intros m H; [done|].
  simpl. apply IH. by apply apply_op_isDeleted.
Qed.

(* authorizeMessageAccess lets the sender through *)
Lemma authorizeMessageAccess_sender (u i : ObjectId) (m : Message.t) (w : World.t) :
  World.messages w !! i = Some m →
  Message.sender m = u →
  Auth.authorizeMessageAccess u None (Some i) w = (Store.Ok (inr m), w).
Proof.
  intros Hm Hs. unfold Auth.authorizeMessageAccess, Store.try_catch, mbind,
    Store.M_bind, Store.bind, Store.Message_findById. simpl.
  rewrite Hm, Hs, equals_refl. reflexivity.
Qed.

Lemma save_message_ok (m : Message.t) (w : World.t) :
  Message.validate m = true →
  World.faults w = [] →
  Store.save_message m w
  = (Store.Ok tt,
     World.set_messages (<[Message._id m := m]> (World.messages w)) w).
Proof.
  intros Hv Hf. unfold Store.save_message, Store.write. by rewrite Hv, Hf.
Qed.

Lemma edit_accepts (req : MessageRoutes.EditRequest) (now : Date) (w : World.t)
    (i : ObjectId) (m : Message.t) (s : string) :
  MessageRoutes.edit_messageId req = Some i →
  World.messages w !! i = Some m →
  Message._id m = i →
  Message.sender m = MessageRoutes.edit_user req →
  Message.type m = MessageType.text →
  MessageRoutes.edit_content req = Some (Http.CStr s) →
  s ≠ "" →
  (String.length s ≤ 5000)%nat →
  World.faults w = [] →
  MessageRoutes.edit req now w
  = (Store.Ok (Http.json_data 200 "Message edited successfully"
                 (Http.D_message (Message.editMessage s now m))),
     World.set_messages
       (<[i := Message.editMessage s now m]> (World.messages w)) w).
Proof.
  intros Hi Hm Hid Hs Ht Hc Hne Hlen Hf.
  unfold MessageRoutes.edit. unfold mbind at 1, Store.M_bind at 1, Store.bind at 1.
  rewrite Hi, (authorizeMessageAccess_sender _ _ _ _ Hm Hs).
  unfold Http.asyncHandler, Store.try_catch.
  rewrite Hc, Hs, Ht, equals_refl. simpl.
  assert (String.eqb s "" = false) as -> by by apply String.eqb_neq.
  simpl. unfold mbind, Store.M_bind, Store.bind.
  rewrite save_message_ok; [by rewrite <- Hid | | done].
  unfold Message.validate. simpl. by apply Nat.leb_le.
Qed.

Lemma addReaction_validate r u m :
  Message.validate (Message.addReaction r u m) = Message.validate m.
Proof. unfold Message.addReaction. by destruct (negb _). Qed.

Lemma addReaction_id r u m :
  Message._id (Message.addReaction r u m) = Message._id m.
Proof. unfold Message.addReaction. by destruct (negb _). Qed.

Lemma add_reaction_accepts (req : MessageRoutes.ReactionRequest) (w : World.t)
    (i : ObjectId) (m : Message.t) (r : string) :
  MessageRoutes.reaction_messageId req = Some i →
  World.messages w !! i = Some m →
  Message._id m = i →
  Message.sender m = MessageRoutes.reaction_user req →
  Message.validate m = true →
  MessageRoutes.reaction_reaction req = Some r →
  r ≠ "" →
  World.faults w = [] →
  MessageRoutes.add_reaction req w
  = (Store.Ok
       (Http.json_data 200 "Reaction added successfully"
          (Http.D_reaction r
             (Message.getReactionCount r
                (Message.addReaction r (MessageRoutes.reaction_user req) m)))),
     World.set_messages
       (<[i := Message.addReaction r (MessageRoutes.reaction_user req) m]>
          (World.messages w)) w).
Proof.
  intros Hi Hm Hid Hs Hv Hr Hne Hf.
  unfold MessageRoutes.add_reaction.
  unfold mbind at 1, Store.M_bind at 1, Store.bind at 1.
  rewrite Hi, (authorizeMessageAccess_sender _ _ _ _ Hm Hs).
  unfold Http.asyncHandler, Store.try_catch. rewrite Hr.
  assert (String.eqb r "" = false) as -> by by apply String.eqb_neq.
  unfold mbind, Store.M_bind, Store.bind.
  rewrite save_message_ok; [| by rewrite addReaction_validate | done].
  by rewrite addReaction_id, Hid.
Qed.

(** C1 (amended).  The isDeleted flag set by deleteMessage is never
    cleared: after any sequence of message operations the message is still
    deleted and its displayContent is the fixed placeholder.  The routes do
    not gate on the flag.  PUT /api/messages/:id checks the sender and the
    type only, so an edit of a text message by its sender with a non-empty
    content of at most 5000 characters is accepted with status 200 and
    replaces content.text, deleted or not; POST /api/messages/:id/reactions
    accepts the reaction and stores the changed reaction mapping, deleted
    or not. *)
Theorem deleted_flag_sticky_not_enforced :
  (∀ m u now, Message.isDeleted (Message.deleteMessage u now m) = true)
  ∧ (∀ m ops,
       Message.isDeleted m = true →
       Message.isDeleted (apply_ops ops m) = true
       ∧ Message.displayContent (apply_ops ops m) = Some placeholder)
  ∧ (∀ req now w i m s,
       MessageRoutes.edit_messageId req = Some i →
       World.messages w !! i = Some m →
       Message._id m = i →
       Message.sender m = MessageRoutes.edit_user req →
       Message.type m = MessageType.text →
       MessageRoutes.edit_content req = Some (Http.CStr s) →
       s ≠ "" →
       (String.length s ≤ 5000)%nat →
       World.faults w = [] →
       MessageRoutes.edit req now w
       = (Store.Ok (Http.json_data 200 "Message edited successfully"
                      (Http.D_message (Message.editMessage s now m))),
          World.set_messages
            (<[i := Message.editMessage s now m]> (World.messages w)) w))
  ∧ (∀ req w i m r,
       MessageRoutes.reaction_messageId req = Some i →
       World.messages w !! i = Some m →
       Message._id m = i →
       Message.sender m = MessageRoutes.reaction_user req →
       Message.validate m = true →
       MessageRoutes.reaction_reaction req = Some r →
       r ≠ "" →
       World.faults w = [] →
       MessageRoutes.add_reaction req w
       = (Store.Ok
            (Http.json_data 200 "Reaction added successfully"
               (Http.D_reaction r
                  (Message.getReactionCount r
                     (Message.addReaction r (MessageRoutes.reaction_user req) m)))),
          World.set_messages
            (<[i := Message.addReaction r (MessageRoutes.reaction_user req) m]>
               (World.messages w)) w)).
Proof.
  repeat apply conj.
  - done.
  - intros m ops Hd. pose proof (apply_ops_isDeleted ops m Hd) as H.
    split; [done|]. unfold Message.displayContent. by rewrite H.
  - apply edit_accepts.
  - apply add_reaction_accepts.
Qed.

Lemma deleted_flag_witness :
  let m :=
    Message.deleteMessage "u1" 5%Z
      (Message.new "m1" "c1" "u1" MessageType.text
         (Content.set_text "hello" Content.empty) None None None) in
  let w := World.set_messages {["m1" := m]} World.empty in
  let req :=
    {| MessageRoutes.edit_user := "u1"; MessageRoutes.edit_id := "m1";
       MessageRoutes.edit_messageId := Some "m1";
       MessageRoutes.edit_content := Some (Http.CStr "changed") |} in
  Message.isDeleted m = true
  ∧ Message.displayContent
      (apply_ops [Op_editMessage "x" 6%Z; Op_addReaction "👍" "u2"] m)
    = Some placeholder
  ∧ ∃ resp w',
      MessageRoutes.edit req 9%Z w = (Store.Ok resp, w')
      ∧ Http.status resp = 200%nat
      ∧ (λ m', Content.text (Message.content m')) <$> World.messages w' !! "m1"
        = Some (Some "changed").
Proof.
  intros m w req.
  destruct deleted_flag_sticky_not_enforced as (_ & Hsticky & Hedit & _).
  split; [reflexivity|]. split.
  - apply (Hsticky m). reflexivity.
  - eexists _, _. split.
    + apply (Hedit req 9%Z w "m1" m "changed"); try reflexivity.
      * discriminate.
      * vm_compute. lia.
    + split; [reflexivity|]. vm_compute. reflexivity.
Defined.

(** C1, counterexample.  u1 sends "hello" to a conversation with u2 and
    deletes it; the edit of the deleted message by u1 is answered with
    200 and the stored text becomes "changed"; the reaction of u2 to the
    deleted message is answered with 200 and stored. *)
Lemma deleted_message_still_edited_and_reacted :
  let w0 :=
    snd (ConversationRoutes.create
           {| ConversationRoutes.create_user := "u1";
              ConversationRoutes.create_participants := Some ["u2"];
              ConversationRoutes.create_type := Some ConversationType.direct;
              ConversationRoutes.create_name := None |}
           "c1" 100%Z World.empty) in
  let w1 :=
    snd (MessageRoutes.send
           {| MessageRoutes.send_user := "u1";
              MessageRoutes.send_conversationId := "c1";
              MessageRoutes.send_content := Some (Http.CStr "hello");
              MessageRoutes.send_type := None;
              MessageRoutes.send_replyTo := None;
              MessageRoutes.send_clientId := None;
              MessageRoutes.send_deviceId := None;
              MessageRoutes.send_platform := None;
              MessageRoutes.send_version := None |} "m1" 200%Z w0) in
  let w2 :=
    snd (MessageRoutes.delete_
           {| MessageRoutes.delete_user := "u1"; MessageRoutes.delete_id := "m1";
              MessageRoutes.delete_messageId := Some "m1" |} 300%Z w1) in
  let edited :=
    MessageRoutes.edit
      {| MessageRoutes.edit_user := "u1"; MessageRoutes.edit_id := "m1";
         MessageRoutes.edit_messageId := Some "m1";
         MessageRoutes.edit_content := Some (Http.CStr "changed") |} 400%Z w2 in
  let reacted :=
    MessageRoutes.add_reaction
      {| MessageRoutes.reaction_user := "u2"; MessageRoutes.reaction_id := "m1";
         MessageRoutes.reaction_messageId := Some "m1";
         MessageRoutes.reaction_reaction := Some "👍" |} (snd edited) in
  Message.isDeleted <$> World.messages w2 !! "m1" = Some true
  ∧ (λ m, Content.text (Message.content m)) <$> World.messages w2 !! "m1"
    = Some (Some "hello")
  ∧ match fst edited with
    | Store.Ok resp => Http.status resp = 200%nat
    | Store.Throw _ => False
    end
  ∧ (λ m, Content.text (Message.content m)) <$> World.messages (snd edited) !! "m1"
    = Some (Some "changed")
  ∧ match fst reacted with
    | Store.Ok resp => Http.status resp = 200%nat
    | Store.Throw _ => False
    end
  ∧ (λ m, Message.reactions m !! "👍") <$> World.messages (snd reacted) !! "m1"
    = Some (Some ["u2"])
  ∧ Message.isDeleted <$> World.messages (snd reacted) !! "m1" = Some true.
Proof. vm_compute. repeat split. Qed.

(* ===================================================================== *)
(* Forward                                                               *)
(* ===================================================================== *)

Lemma NoDup_fmap_filter {X Y} (f : X → Y) (q : X → bool) (l : list X) :
  NoDup (f <$> l) → NoDup (f <$> List.filter q l).
Proof.
  induction l as [|x l IH]; simpl; [done|].
  rewrite NoDup_cons. intros [Hx Hl].
  destruct (q x); [|by apply IH]. simpl. apply NoDup_cons. split; [|by apply IH].
  intros Hin. apply Hx.
  apply list_elem_of_fmap in Hin as (y & -> & Hy).
  apply list_elem_of_fmap_2. apply list_elem_of_In in Hy.
  apply List.filter_In in Hy as [Hy _]. by apply list_elem_of_In.
Qed.

(* the documents a query finds, for a store that is well formed *)
Lemma found_ids (q : Conversation.t → bool) (w : World.t) :
  store_wf w →
  NoDup (Conversation._id <$> List.filter q (map_to_list (World.conversations w)).*2)
  ∧ ∀ i, i ∈ Conversation._id <$>
               List.filter q (map_to_list (World.conversations w)).*2 →
         ∃ c, World.conversations w !! i = Some c ∧ q c = true.
Proof.
  intros Hwf. split.
  - apply NoDup_fmap_filter.
    assert (Conversation._id <$> (map_to_list (World.conversations w)).*2
            = (map_to_list (World.conversations w)).*1) as ->;
      [|apply NoDup_fst_map_to_list].
    rewrite <- list_fmap_compose. apply list_fmap_ext.
    intros n [k c] Hn. simpl.
    apply (Hwf k c). apply elem_of_map_to_list.
    by eapply list_elem_of_lookup_2.
  - intros i Hi. apply list_elem_of_fmap in Hi as (c & -> & Hc).
    apply list_elem_of_In, List.filter_In in Hc as [Hc Hq].
    apply list_elem_of_In, list_elem_of_fmap in Hc as ([k c'] & -> & Hkc).
    apply elem_of_map_to_list in Hkc. simpl in *.
    exists c'. split; [|done]. by rewrite (Hwf _ _ Hkc).
Qed.

(* the query selects every target the user is an active participant of *)
Lemma forward_query_of_member (ids : list ObjectId) (U : ObjectId)
    (c : Conversation.t) :
  Conversation._id c ∈ ids →
  Conversation.isActiveParticipant c U = true →
  MessageRoutes.forward_query ids U c = true.
Proof.
  intros Hin Hact. unfold MessageRoutes.forward_query.
  apply includes_true in Hin. rewrite Hin. simpl.
  unfold Conversation.isActiveParticipant in Hact.
  apply List.existsb_exists in Hact as (p & Hp & Hq).
  apply andb_true_iff in Hq as [Hu Ha].
  apply andb_true_iff. split; apply List.existsb_exists; eauto.
Qed.

(* With respect to its own query the route is all or nothing: when one
   target id names no conversation that the query selects, the request is
   answered with 400 and the world is left as it was. *)
Lemma forward_rejects_unmatched_target
    (req : MessageRoutes.ForwardRequest) (newId : nat → ObjectId) (now : Date)
    (w : World.t) (i : ObjectId) (m : Message.t) (ids : list ObjectId)
    (t : ObjectId) :
  store_wf w →
  MessageRoutes.forward_messageId req = Some i →
  World.messages w !! i = Some m →
  Message.sender m = MessageRoutes.forward_user req →
  MessageRoutes.forward_conversationIds req = Some ids →
  t ∈ ids →
  (∀ c, World.conversations w !! t = Some c →
        MessageRoutes.forward_query ids (MessageRoutes.forward_user req) c
        = false) →
  MessageRoutes.forward req newId now w
  = (Store.Ok (Http.json 400 "Some conversations not found or access denied"), w).
Proof.
  intros Hwf Hi Hm Hs Hids Ht Hno.
  set (found :=
         List.filter
           (MessageRoutes.forward_query ids (MessageRoutes.forward_user req))
           (map_to_list (World.conversations w)).*2).
  destruct (found_ids
              (MessageRoutes.forward_query ids (MessageRoutes.forward_user req))
              w Hwf) as [Hnd Hin].
  fold found in Hnd, Hin.
  assert (length found ≠ length ids) as Hlen.
  { intros Heq.
    assert ((Conversation._id <$> found) ⊆+ ids) as Hsub.
    { apply NoDup_submseteq; [done|]. intros x Hx.
      destruct (Hin x Hx) as (c & Hc & Hq).
      unfold MessageRoutes.forward_query in Hq.
      apply andb_true_iff in Hq as [Hq _]. apply andb_true_iff in Hq as [Hq _].
      apply includes_true in Hq. by rewrite (Hwf _ _ Hc) in Hq. }
    apply submseteq_length_Permutation in Hsub;
      [|rewrite length_fmap; lia].
    rewrite <- Hsub in Ht. destruct (Hin t Ht) as (c & Hc & Hq).
    rewrite (Hno c Hc) in Hq. discriminate. }
  assert (wp (MessageRoutes.forward req newId now)
            (fun r w' =>
               r = Http.json 400 "Some conversations not found or access denied"
               ∧ w' = w)
            (fun _ => False) w) as H.
  { unfold MessageRoutes.forward. apply wp_bind.
    unfold wp at 1. rewrite Hi, (authorizeMessageAccess_sender _ _ _ _ Hm Hs).
    unfold Http.asyncHandler. apply wp_try_catch. rewrite Hids.
    destruct ids as [|i0 ids']; [by apply elem_of_nil in Ht|].
    simpl negb. cbv iota.
    apply wp_bind. unfold wp at 1, Store.Conversation_find.
    destruct (negb _) eqn:E; [by apply wp_ret|].
    apply negb_false_iff, Nat.eqb_eq in E. by destruct Hlen. }
  unfold wp in H.
  destruct (MessageRoutes.forward req newId now w) as [[r|e] w']; [|done].
  by destruct H as [-> ->].
Qed.

(** C2, the code at the failing input.  u2 is an active participant of c1
    and has left c2, where u1 is still active.  The query of the forward
    route tests 'participants.user' and 'participants.isActive' on the
    array as a whole, so c2 is selected through the entry of u2 and the
    active flag of u1: u2 forwards a message to [c1; c2], the answer is
    200 and a copy is created in c2 (and in c1), although u2 fails the
    active-participant check for c2. *)
Theorem forward_to_left_conversation :
  let mk u ps i now w :=
    snd (ConversationRoutes.create
           {| ConversationRoutes.create_user := u;
              ConversationRoutes.create_participants := Some ps;
              ConversationRoutes.create_type := Some ConversationType.group;
              ConversationRoutes.create_name := None |} i now w) in
  let w2 := mk "u1" ["u2"] "c2" 101%Z (mk "u1" ["u2"] "c1" 100%Z World.empty) in
  let w3 :=
    snd (ConversationRoutes.leave
           {| ConversationRoutes.req_user := "u2";
              ConversationRoutes.req_id := "c2";
              ConversationRoutes.req_conversationId := Some "c2";
              ConversationRoutes.req_participants := None;
              ConversationRoutes.req_participantId := "";
              ConversationRoutes.req_duration := None |} 150%Z w2) in
  let w4 :=
    snd (MessageRoutes.send
           {| MessageRoutes.send_user := "u2";
              MessageRoutes.send_conversationId := "c1";
              MessageRoutes.send_content := Some (Http.CStr "hello");
              MessageRoutes.send_type := None;
              MessageRoutes.send_replyTo := None;
              MessageRoutes.send_clientId := None;
              MessageRoutes.send_deviceId := None;
              MessageRoutes.send_platform := None;
              MessageRoutes.send_version := None |} "m1" 200%Z w3) in
  let r :=
    MessageRoutes.forward
      {| MessageRoutes.forward_user := "u2"; MessageRoutes.forward_id := "m1";
         MessageRoutes.forward_messageId := Some "m1";
         MessageRoutes.forward_conversationIds := Some ["c1"; "c2"] |}
      (fun n => match n with O => "f0" | _ => "f1" end) 300%Z w4 in
  let in_c2 w :=
    List.filter (fun m => equals (Message.conversation m) "c2")
      (map_to_list (World.messages w)).*2 in
  (λ c, Conversation.isActiveParticipant c "u2") <$> World.conversations w4 !! "c2"
  = Some false
  ∧ (λ c, Conversation.isActiveParticipant c "u2") <$> World.conversations w4 !! "c1"
    = Some true
  ∧ in_c2 w4 = []
  ∧ match fst r with
    | Store.Ok resp => Http.status resp = 200%nat
    | Store.Throw _ => False
    end
  ∧ length (in_c2 (snd r)) = 1%nat
  ∧ size (World.messages (snd r)) = 3%nat
  ∧ Message.conversation <$> World.messages (snd r) !! "f1" = Some "c2"
  ∧ Message.sender <$> World.messages (snd r) !! "f1" = Some "u2"
  ∧ Conversation.lastMessage <$> World.conversations (snd r) !! "c2"
    = Some (Some "f1").
Proof. vm_compute. repeat split. Qed.

(* ===================================================================== *)
(* Every reachable world is well formed                                  *)
(* ===================================================================== *)

Lemma world_wf_faults fs w : world_wf w → world_wf (World.set_faults fs w).
Proof. done. Qed.

Lemma world_wf_outbox o w : world_wf w → world_wf (World.set_outbox o w).
Proof. done. Qed.

Lemma world_wf_connectedUsers cu w :
  world_wf w → world_wf (World.set_connectedUsers cu w).
Proof. done. Qed.

Lemma world_wf_save_conversation c w :
  world_wf w →
  world_wf
    (World.set_conversations
       (<[Conversation._id c := c]> (World.conversations w)) w).
Proof. intros [H1 H2]. split; [by apply store_wf_save | done]. Qed.

Lemma world_wf_save_message m w :
  reactions_wf m → world_wf w →
  world_wf
    (World.set_messages (<[Message._id m := m]> (World.messages w)) w).
Proof.
  intros Hm [H1 H2]. split; [done|]. intros k m'. simpl.
  destruct (decide (Message._id m = k)) as [Heq|Hne].
  - rewrite <- Heq, lookup_insert_eq. by intros [= <-].
  - rewrite lookup_insert_ne by done. apply H2.
Qed.

Lemma world_wf_fmap_messages (f : Message.t → Message.t) w :
  (∀ m, reactions_wf m → reactions_wf (f m)) →
  world_wf w →
  world_wf (World.set_messages (f <$> World.messages w) w).
Proof.
  intros Hf [H1 H2]. split; [done|]. intros k m'. simpl.
  rewrite lookup_fmap. destruct (World.messages w !! k) as [m|] eqn:E; [|done].
  intros [= <-]. apply Hf. by eapply H2.
Qed.

Section keeps_rules.
Context {A B : Type}.

Lemma keeps_ret (a : A) : keeps (mret a).
Proof. intros w Hw. by apply wp_ret. Qed.

Lemma keeps_throw (e : Store.Error) : keeps (Store.throw (A := A) e).
Proof. intros w Hw. by apply wp_throw. Qed.

Lemma keeps_bind (c : Store.M B) (k : B → Store.M A) :
  keeps c → (∀ b, keeps (k b)) → keeps (c ≫= k).
Proof.
  intros Hc Hk w Hw. apply wp_bind.
  eapply wp_mono; [by apply Hc | | done].
  intros b w' Hw'. by apply Hk.
Qed.

Lemma keeps_try_catch (c h : Store.M A) :
  keeps c → keeps h → keeps (Store.try_catch c h).
Proof.
  intros Hc Hh w Hw. apply wp_try_catch.
  eapply wp_mono; [by apply Hc | done |]. intros w' Hw'. by apply Hh.
Qed.

(* a read of the world *)
Lemma keeps_read (f : World.t → A) : keeps (fun w => (Store.Ok (f w), w)).
Proof. intros w Hw. done. Qed.

(* a step that changes what well-formedness does not read *)
Lemma keeps_update (f : World.t → World.t) (a : A) :
  (∀ w, world_wf w → world_wf (f w)) →
  keeps (fun w => (Store.Ok a, f w)).
Proof. intros Hf w Hw. by apply Hf. Qed.

Lemma keeps_Message_findById_bind (i : ObjectId)
    (k : option Message.t → Store.M A) :
  (∀ m, reactions_wf m → keeps (k (Some m))) →
  keeps (k None) →
  keeps (Store.Message_findById i ≫= k).
Proof.
  intros Hsome Hnone w Hw. apply wp_bind.
  unfold wp at 1, Store.Message_findById.
  destruct (World.messages w !! i) as [m|] eqn:E.
  - apply Hsome; [|done]. by eapply (proj2 Hw).
  - by apply Hnone.
Qed.

Lemma keeps_authorizeMessageAccess_bind u p b
    (k : Http.Response + Message.t → Store.M A) :
  (∀ r, keeps (k (inl r))) →
  (∀ m, reactions_wf m → keeps (k (inr m))) →
  keeps (Auth.authorizeMessageAccess u p b ≫= k).
Proof.
  intros Hl Hr w Hw. apply wp_bind.
  unfold Auth.authorizeMessageAccess. apply wp_try_catch.
  apply wp_bind.
  assert (∀ om, (∀ m, om = Some m → reactions_wf m) →
            wp (match om with
                | Some message =>
                    if negb (equals (Message.sender message) u)
                    then
                      Store.Conversation_findById (Message.conversation message)
                      ≫= (fun conversation =>
                            match conversation with
                            | Some conversation =>
                                if negb (Conversation.isActiveParticipant
                                           conversation u)
                                then mret (inl (Http.json 403
                                  "Access denied. Not authorized to access this message."))
                                else mret (inr message)
                            | None =>
                                mret (inl (Http.json 404 "Conversation not found."))
                            end)
                    else mret (inr message)
                | None => mret (inl (Http.json 404 "Message not found."))
                end)
              (fun b => wp (k b) (fun _ => world_wf) world_wf)
              (wp (mret (inl (Http.json 500 "Server error.")))
                 (fun b => wp (k b) (fun _ => world_wf) world_wf) world_wf)
              w) as Hrest.
  { intros [m|] Hm.
    - specialize (Hm m eq_refl).
      destruct (negb _); [|by apply wp_ret, Hr].
      apply wp_bind, wp_Conversation_findById.
      destruct (World.conversations w !! _); [|by apply wp_ret, Hl].
      destruct (negb _); apply wp_ret; [by apply Hl | by apply Hr].
    - by apply wp_ret, Hl. }
  destruct p as [i|]; [|destruct b as [i|]].
  - unfold wp at 1, Store.Message_findById. apply Hrest.
    intros m Hm. by eapply (proj2 Hw).
  - unfold wp at 1, Store.Message_findById. apply Hrest.
    intros m Hm. by eapply (proj2 Hw).
  - apply wp_ret. by apply (Hrest None).
Qed.
End keeps_rules.

Lemma keeps_write (f : World.t → World.t) :
  (∀ w, world_wf w → world_wf (f w)) → keeps (Store.write f).
Proof.
  intros Hf w Hw. apply wp_write.
  destruct (World.faults w) as [|[] fs]; auto.
  apply world_wf_faults; auto.
Qed.

Lemma keeps_save_conversation c : keeps (Store.save_conversation c).
Proof.
  unfold Store.save_conversation.
  destruct (Conversation.validate c); [|apply keeps_throw].
  apply keeps_write. intros w. apply world_wf_save_conversation.
Qed.

Lemma keeps_save_message m : reactions_wf m → keeps (Store.save_message m).
Proof.
  intros Hm. unfold Store.save_message.
  destruct (Message.validate m); [|apply keeps_throw].
  apply keeps_write. intros w. by apply world_wf_save_message.
Qed.

Lemma keeps_emit t ev p : keeps (Store.emit t ev p).
Proof. apply keeps_update. intros w. apply world_wf_outbox. Qed.

Lemma keeps_for_of {X S} (l : list X) (body : S → X → Store.M S) (s : S) :
  (∀ s x, keeps (body s x)) → keeps (Store.for_of l body s).
Proof.
  intros Hbody. revert s. induction l as [|x l IH]; intros s; simpl.
  - apply (keeps_ret s).
  - apply (keeps_bind (body s x) (Store.for_of l body)); [apply Hbody | apply IH].
Qed.

Lemma keeps_authorizeConversationAccess u p b :
  keeps (Auth.authorizeConversationAccess u p b).
Proof.
  unfold Auth.authorizeConversationAccess.
  apply keeps_try_catch; [|apply keeps_ret].
  apply keeps_bind.
  - destruct p; [apply keeps_read|]. destruct b; [apply keeps_read|].
    apply keeps_ret.
  - intros [c|]; [|apply keeps_ret]. destruct (negb _); apply keeps_ret.
Qed.

Lemma reactions_wf_editMessage s now m :
  reactions_wf m → reactions_wf (Message.editMessage s now m).
Proof. done. Qed.

Lemma reactions_wf_deleteMessage u now m :
  reactions_wf m → reactions_wf (Message.deleteMessage u now m).
Proof. done. Qed.

Lemma reactions_wf_markAsRead u now m :
  reactions_wf m → reactions_wf (Message.markAsRead u now m).
Proof. unfold Message.markAsRead. by destruct (List.find _ _). Qed.

Lemma reactions_wf_push_read cid u now m :
  reactions_wf m → reactions_wf (ConversationRoutes.push_read cid u now m).
Proof.
  unfold ConversationRoutes.push_read.
  destruct (_ && _); [apply reactions_wf_markAsRead | done].
Qed.

Lemma reactions_wf_http_new_message req newId m :
  MessageRoutes.new_message req newId = Some m → reactions_wf m.
Proof.
  unfold MessageRoutes.new_message.
  destruct (MessageType.of_string _); [|done].
  destruct (MessageRoutes.send_content req); [|done].
  destruct (MessageRoutes.send_cast_content _ _); [|done].
  intros [= <-]. apply reactions_wf_new.
Qed.

Lemma reactions_wf_socket_new_message socket cid data newId m :
  SocketHandler.new_message socket cid data newId = Some m → reactions_wf m.
Proof.
  unfold SocketHandler.new_message.
  destruct (MessageType.of_string _); [|done].
  destruct (SocketHandler.send_cast_content _); [|done].
  intros [= <-]. apply reactions_wf_new.
Qed.

Create HintDb wf.
#[local] Hint Resolve reactions_wf_new reactions_wf_addReaction
  reactions_wf_removeReaction reactions_wf_editMessage
  reactions_wf_deleteMessage reactions_wf_push_read
  world_wf_connectedUsers world_wf_fmap_messages : wf.

(* one step of the proof that a handler keeps the store well formed *)
Ltac keeps_step :=
  lazymatch goal with
  | |- keeps (mret _) => apply keeps_ret
  | |- keeps (Store.throw _) => apply keeps_throw
  | |- keeps (Http.asyncHandler _) =>
      unfold Http.asyncHandler; apply keeps_try_catch
  | |- keeps (Store.try_catch _ _) => apply keeps_try_catch
  | |- keeps (Store.save_conversation _) => apply keeps_save_conversation
  | |- keeps (Store.save_message _) =>
      apply keeps_save_message; eauto with wf
  | |- keeps (Store.emit _ _ _) => apply keeps_emit
  | |- keeps (Store.write _) =>
      apply keeps_write; intros; eauto with wf
  | |- keeps (Store.for_of _ _ _) => apply keeps_for_of; intros
  | |- keeps (Auth.authorizeConversationAccess _ _ _) =>
      apply keeps_authorizeConversationAccess
  | |- keeps (Auth.authorizeMessageAccess _ _ _ ≫= _) =>
      apply keeps_authorizeMessageAccess_bind; intros
  | |- keeps (Store.Message_findById _ ≫= _) =>
      apply keeps_Message_findById_bind; intros
  | |- keeps (Store.Conversation_findById _) => apply keeps_read
  | |- keeps (Store.Conversation_find _) => apply keeps_read
  | |- keeps (Store.Conversation_findOne _) => apply keeps_read
  | |- keeps Store.get => apply keeps_read
  | |- keeps (_ ≫= _) => apply keeps_bind; [|intros]
  | |- keeps (if ?b then _ else _) => destruct b
  | |- keeps (match ?x with _ => _ end) => destruct x eqn:?
  | |- keeps (let _ := _ in _) => cbv zeta
  | |- keeps ((fun _ => _) _) => cbv beta
  end.

Ltac keeps_auto := repeat keeps_step.

Lemma handle_keeps (r : Request) (w : World.t) :
  world_wf w → world_wf (handle w r).
Proof.
  intros Hw.
  assert (∀ A (c : Store.M A), keeps c → world_wf (snd (c w))) as Hrun.
  { intros A c Hc. specialize (Hc w Hw). unfold wp in Hc.
    by destruct (c w) as [[a|e] w']. }
  destruct r; unfold handle; apply Hrun; clear Hrun.
  - unfold MessageRoutes.send, MessageRoutes.update_unread_loop. keeps_auto.
    by eapply reactions_wf_http_new_message.
  - unfold MessageRoutes.edit. keeps_auto.
  - unfold MessageRoutes.delete_. keeps_auto.
  - unfold MessageRoutes.add_reaction. keeps_auto.
  - unfold MessageRoutes.remove_reaction. keeps_auto.
  - unfold MessageRoutes.forward, MessageRoutes.forward_one,
      Message.forwardMessage. keeps_auto.
  - unfold ConversationRoutes.create, ConversationRoutes.create_new. keeps_auto.
  - unfold ConversationRoutes.read. keeps_auto.
  - unfold ConversationRoutes.add_participants. keeps_auto.
  - unfold ConversationRoutes.remove_participant. keeps_auto.
  - unfold ConversationRoutes.leave. keeps_auto.
  - unfold ConversationRoutes.mute. keeps_auto.
  - unfold ConversationRoutes.unmute. keeps_auto.
  - unfold SocketHandler.connection. keeps_auto. by intros w' Hw'.
  - unfold SocketHandler.disconnect. keeps_auto. by intros w' Hw'.
  - unfold SocketHandler.conversation_join. keeps_auto.
  - unfold SocketHandler.message_send, SocketHandler.message_send_try,
      MessageRoutes.update_unread_loop, SocketHandler.notify_loop. keeps_auto.
    by eapply reactions_wf_socket_new_message.
  - unfold SocketHandler.message_react. keeps_auto.
  - unfold SocketHandler.message_remove_reaction. keeps_auto.
Qed.

(* Every world the server reaches from the empty store holds each
   conversation under its own _id and stores no reaction token with an
   empty list of users. *)
Lemma reachable_world_wf (w : World.t) : reachable w → world_wf w.
Proof.
  induction 1 as [|w fs _ IH|w r _ IH].
  - split; [apply store_wf_empty|]. intros k m H. simpl in H.
    by rewrite lookup_empty in H.
  - by apply world_wf_faults.
  - by apply handle_keeps.
Qed.

(* ===================================================================== *)
(* Receipts                                                              *)
(* ===================================================================== *)

Lemma find_fst_none_notin (l : list (ObjectId * Date)) (u : ObjectId) :
  List.find (fun r => equals (fst r) u) l = None → u ∉ l.*1.
Proof.
  induction l as [|[v t] l IH]; simpl; [intros _; apply not_elem_of_nil|].
  destruct (equals v u) eqn:E; [done|]. intros H.
  apply not_elem_of_cons. split; [|by apply IH].
  apply equals_false in E. congruence.
Qed.

Lemma find_fst_snoc (l : list (ObjectId * Date)) (u : ObjectId) (t : Date) :
  List.find (fun r => equals (fst r) u) (l ++ [(u, t)]) ≠ None.
Proof.
  induction l as [|[v s] l IH]; simpl.
  - by rewrite equals_refl.
  - by destruct (equals v u).
Qed.

Lemma NoDup_fst_snoc (l : list (ObjectId * Date)) (u : ObjectId) (t : Date) :
  u ∉ l.*1 → NoDup l.*1 → NoDup (l ++ [(u, t)]).*1.
Proof.
  intros Hu Hl. rewrite fmap_app. apply NoDup_app. split; [done|].
  split; [|apply NoDup_singleton].
  intros x Hx Hx'. apply list_elem_of_singleton in Hx'. by subst.
Qed.

(** X1. Receipts.  markAsRead and markAsDelivered record a user at most
    once: marking again changes nothing, so the first receipt and its time
    stay; the receipts already there are kept in place; a list with one
    receipt per user stays so; the user has a receipt afterwards; and the
    two kinds of receipt do not interfere. *)
Theorem receipts_once_per_user
    (m : Message.t) (u v : ObjectId) (t t' s : Date) :
  Message.markAsRead u t' (Message.markAsRead u t m) = Message.markAsRead u t m
  ∧ Message.markAsDelivered u t' (Message.markAsDelivered u t m)
    = Message.markAsDelivered u t m
  ∧ Message.readBy m `prefix_of` Message.readBy (Message.markAsRead u t m)
  ∧ Message.deliveredTo m
    `prefix_of` Message.deliveredTo (Message.markAsDelivered u t m)
  ∧ u ∈ (Message.readBy (Message.markAsRead u t m)).*1
  ∧ u ∈ (Message.deliveredTo (Message.markAsDelivered u t m)).*1
  ∧ (NoDup (Message.readBy m).*1 →
     NoDup (Message.readBy (Message.markAsRead u t m)).*1)
  ∧ (NoDup (Message.deliveredTo m).*1 →
     NoDup (Message.deliveredTo (Message.markAsDelivered u t m)).*1)
  ∧ Message.markAsRead u t (Message.markAsDelivered v s m)
    = Message.markAsDelivered v s (Message.markAsRead u t m).
Proof.
  assert (∀ l : list (ObjectId * Date),
            List.find (fun r => equals (fst r) u) l ≠ None → u ∈ l.*1) as Hin.
  { intros l. induction l as [|[x y] l IH]; simpl; [done|].
    destruct (equals x u) eqn:E.
    - intros _. apply equals_true in E as ->. apply list_elem_of_here.
    - intros H. apply list_elem_of_further. by apply IH. }
  repeat apply conj.
  - unfold Message.markAsRead.
    destruct (List.find _ (Message.readBy m)) eqn:E; [by rewrite E|]. simpl.
    pose proof (find_fst_snoc (Message.readBy m) u t) as H.
    by destruct (List.find _ (Message.readBy m ++ _)).
  - unfold Message.markAsDelivered.
    destruct (List.find _ (Message.deliveredTo m)) eqn:E; [by rewrite E|]. simpl.
    pose proof (find_fst_snoc (Message.deliveredTo m) u t) as H.
    by destruct (List.find _ (Message.deliveredTo m ++ _)).
  - unfold Message.markAsRead. destruct (List.find _ _); [done|].
    simpl. by apply prefix_app_r.
  - unfold Message.markAsDelivered. destruct (List.find _ _); [done|].
    simpl. by apply prefix_app_r.
  - unfold Message.markAsRead.
    destruct (List.find _ _) eqn:E; [apply Hin; congruence|].
    simpl. apply Hin, find_fst_snoc.
  - unfold Message.markAsDelivered.
    destruct (List.find _ _) eqn:E; [apply Hin; congruence|].
    simpl. apply Hin, find_fst_snoc.
  - intros Hnd. unfold Message.markAsRead.
    destruct (List.find _ _) eqn:E; [done|]. simpl.
    apply NoDup_fst_snoc; [by apply find_fst_none_notin | done].
  - intros Hnd. unfold Message.markAsDelivered.
    destruct (List.find _ _) eqn:E; [done|]. simpl.
    apply NoDup_fst_snoc; [by apply find_fst_none_notin | done].
  - unfold Message.markAsRead, Message.markAsDelivered.
    destruct (List.find _ (Message.deliveredTo m)) eqn:E1;
      destruct (List.find _ (Message.readBy m)) eqn:E2; simpl;
      rewrite ?E1, ?E2; reflexivity.
Qed.

(* ===================================================================== *)
(* Reactions through the query methods                                   *)
(* ===================================================================== *)

Lemma reactors_addReaction (m : Message.t) (t t' : string) (U : ObjectId) :
  reactors (Message.addReaction t U m) t'
  = if decide (t = t')
    then if includes (reactors m t) U
         then reactors m t else reactors m t ++ [U]
    else reactors m t'.
Proof.
  unfold reactors at 1. rewrite addReaction_reactions.
  destruct (decide (t = t')) as [->|Hne].
  - by rewrite lookup_insert_eq.
  - by rewrite lookup_insert_ne.
Qed.

Lemma reactors_removeReaction (m : Message.t) (t t' : string) (U : ObjectId) :
  reactors (Message.removeReaction t U m) t'
  = if decide (t = t')
    then List.filter (fun id => negb (equals id U)) (reactors m t)
    else reactors m t'.
Proof.
  unfold reactors, Message.removeReaction.
  destruct (Message.reactions m !! t) as [us|] eqn:E; simpl.
  - destruct (List.filter _ us) as [|a l] eqn:F; simpl.
    + destruct (decide (t = t')) as [->|Hne].
      * by rewrite lookup_delete_eq.
      * by rewrite lookup_delete_ne.
    + destruct (decide (t = t')) as [->|Hne].
      * by rewrite lookup_insert_eq.
      * by rewrite lookup_insert_ne.
  - destruct (decide (t = t')) as [->|Hne]; [by rewrite E | done].
Qed.

Lemma includes_filter_out (l : list ObjectId) (U V : ObjectId) :
  includes (List.filter (fun id => negb (equals id U)) l) V
  = includes l V && negb (equals V U).
Proof.
  induction l as [|a l IH]; simpl; [done|].
  destruct (equals a U) eqn:EU; simpl.
  - rewrite IH. apply equals_true in EU as ->.
    destruct (equals U V) eqn:EV; simpl; [|done].
    apply equals_true in EV as ->. rewrite equals_refl. simpl.
    by rewrite andb_false_r.
  - rewrite IH. destruct (equals a V) eqn:EV; simpl; [|done].
    apply equals_true in EV as ->. by rewrite EU.
Qed.

Lemma length_filter_out_NoDup (l : list ObjectId) (U : ObjectId) :
  NoDup l →
  length (List.filter (fun id => negb (equals id U)) l)
  = (length l - (if includes l U then 1 else 0))%nat.
Proof.
  induction 1 as [|a l Ha Hl IH]; simpl; [done|].
  destruct (equals a U) eqn:E; simpl.
  - apply equals_true in E as ->.
    rewrite filter_out_absent; [lia|].
    destruct (includes l U) eqn:I; [|done]. by apply includes_true in I.
  - rewrite IH. destruct (includes l U) eqn:I; [|lia].
    apply includes_true in I. destruct l; [by apply elem_of_nil in I|].
    simpl. lia.
Qed.

(** X2. Reactions as the query methods see them.  After addReaction(t,U)
    hasUserReacted(t,U) is true and the count of t has grown by one unless
    U had reacted already; after removeReaction(t,U) hasUserReacted(t,U)
    is false and, when t lists no user twice, the count has dropped by one
    if U had reacted.  Neither operation changes what another user has
    reacted with, nor the users of another token.  If A and then B react
    with a token nobody used and A takes the reaction back, the token
    lists exactly B. *)
Theorem reaction_queries
    (m : Message.t) (t t' : string) (U V : ObjectId) :
  Message.hasUserReacted t U (Message.addReaction t U m) = true
  ∧ Message.hasUserReacted t U (Message.removeReaction t U m) = false
  ∧ Message.getReactionCount t (Message.addReaction t U m)
    = (Message.getReactionCount t m
       + (if Message.hasUserReacted t U m then 0 else 1))%nat
  ∧ (NoDup (reactors m t) →
     Message.getReactionCount t (Message.removeReaction t U m)
     = (Message.getReactionCount t m
        - (if Message.hasUserReacted t U m then 1 else 0))%nat)
  ∧ (V ≠ U →
     Message.hasUserReacted t V (Message.addReaction t U m)
     = Message.hasUserReacted t V m
     ∧ Message.hasUserReacted t V (Message.removeReaction t U m)
       = Message.hasUserReacted t V m)
  ∧ (t' ≠ t →
     reactors (Message.addReaction t U m) t' = reactors m t'
     ∧ reactors (Message.removeReaction t U m) t' = reactors m t')
  ∧ (reactors m t = [] → V ≠ U →
     reactors
       (Message.removeReaction t U
          (Message.addReaction t V (Message.addReaction t U m))) t
     = [V]).
Proof.
  assert (∀ m' x r, Message.hasUserReacted r x m' = includes (reactors m' r) x)
    as Hhas by done.
  assert (∀ m' r, Message.getReactionCount r m' = length (reactors m' r))
    as Hcount by done.
  repeat apply conj.
  - rewrite Hhas. apply addReaction_includes.
  - rewrite Hhas, reactors_removeReaction, decide_True by done.
    rewrite includes_filter_out, equals_refl. apply andb_false_r.
  - rewrite !Hcount, Hhas, reactors_addReaction, decide_True by done.
    destruct (includes (reactors m t) U); [lia|].
    rewrite length_app. simpl. lia.
  - intros Hnd.
    rewrite !Hcount, Hhas, reactors_removeReaction, decide_True by done.
    by apply length_filter_out_NoDup.
  - intros HV. rewrite !Hhas. split.
    + rewrite reactors_addReaction, decide_True by done.
      destruct (includes (reactors m t) U); [done|].
      unfold includes. rewrite List.existsb_app. simpl.
      assert (equals U V = false) as -> by (apply equals_false; congruence).
      by rewrite !orb_false_r.
    + rewrite reactors_removeReaction, decide_True by done.
      rewrite includes_filter_out.
      assert (equals V U = false) as -> by by apply equals_false.
      apply andb_true_r.
  - intros Ht. split.
    + by rewrite reactors_addReaction, decide_False.
    + by rewrite reactors_removeReaction, decide_False.
  - intros Hnil HV.
    rewrite reactors_removeReaction, decide_True by done.
    rewrite reactors_addReaction, decide_True by done.
    rewrite reactors_addReaction, decide_True by done.
    rewrite Hnil. simpl.
    assert (equals U V = false) as EUV by (apply equals_false; congruence).
    assert (equals V U = false) as EVU by by apply equals_false.
    rewrite EUV. simpl. by rewrite equals_refl, EVU.
Qed.

(* ===================================================================== *)
(* Participant slots                                                     *)
(* ===================================================================== *)

Lemma fmap_update_first {X Y} (g : X → Y) (p : X → bool) (f : X → X)
    (l : list X) :
  (∀ x, g (f x) = g x) → g <$> update_first p f l = g <$> l.
Proof.
  intros Hg. induction l as [|x l IH]; csimpl; [done|].
  destruct (p x); csimpl; [by rewrite Hg | by rewrite IH].
Qed.



(* ===================================================================== *)
(* Archive                                                               *)
(* ===================================================================== *)

Lemma archived_spec (c : Conversation.t) (U : ObjectId) :
  archived c U = true ↔ U ∈ (Conversation.archivedBy c).*1.
Proof.
  unfold archived. rewrite List.existsb_exists. split.
  - intros ([v t] & Hin & E). apply equals_true in E. simpl in E. subst.
    apply list_elem_of_fmap. exists (U, t). split; [done|].
    by apply list_elem_of_In.
  - intros H. apply list_elem_of_fmap in H as ([v t] & -> & Hin).
    exists (v, t). split; [by apply list_elem_of_In | apply equals_refl].
Qed.

Lemma archived_find (c : Conversation.t) (U : ObjectId) :
  archived c U = false ↔
  List.find (fun a => equals (fst a) U) (Conversation.archivedBy c) = None.
Proof.
  unfold archived.
  induction (Conversation.archivedBy c) as [|x l IH]; simpl; [done|].
  destruct (equals (fst x) U); simpl; [split; discriminate | done].
Qed.

(** X4. Archive.  archiveConversation records the user once and keeps the
    first archive time; unarchiveConversation removes every entry of the
    user; neither touches the entries of another user; and for a user who
    had not archived the conversation, archive followed by unarchive gives
    the archive list back as it was.  A list with one entry per user
    stays so. *)
Theorem archive_roundtrip
    (c : Conversation.t) (U : ObjectId) (now now' : Date) :
  archived (Conversation.archiveConversation U now c) U = true
  ∧ archived (Conversation.unarchiveConversation U c) U = false
  ∧ Conversation.archiveConversation U now'
      (Conversation.archiveConversation U now c)
    = Conversation.archiveConversation U now c
  ∧ (archived c U = false →
     Conversation.archivedBy
       (Conversation.unarchiveConversation U
          (Conversation.archiveConversation U now c))
     = Conversation.archivedBy c)
  ∧ (∀ V, V ≠ U →
       archived (Conversation.archiveConversation U now c) V = archived c V
       ∧ archived (Conversation.unarchiveConversation U c) V = archived c V)
  ∧ (NoDup (Conversation.archivedBy c).*1 →
     NoDup (Conversation.archivedBy
              (Conversation.archiveConversation U now c)).*1
     ∧ NoDup (Conversation.archivedBy
                (Conversation.unarchiveConversation U c)).*1).
Proof.
  assert (∀ l : list (ObjectId * Date),
            List.find (fun a => equals (fst a) U)
              (List.filter (fun a => negb (equals (fst a) U)) l) = None) as Hout.
  { intros l. apply (filter_out_find (fun a => equals (fst a) U)). }
  assert (∀ l : list (ObjectId * Date),
            List.find (fun a => equals (fst a) U) l = None →
            List.filter (fun a => negb (equals (fst a) U)) l = l) as Hkeep.
  { intros l. induction l as [|x l IH]; simpl; [done|].
    destruct (equals (fst x) U); simpl; [done|]. intros H. by rewrite IH. }
  repeat apply conj.
  - unfold Conversation.archiveConversation.
    destruct (List.find _ _) eqn:F.
    + destruct (archived c U) eqn:A; [done|]. apply archived_find in A.
      congruence.
    + unfold archived. simpl. rewrite List.existsb_app. simpl.
      rewrite equals_refl. simpl. apply orb_true_r.
  - apply archived_find. simpl. apply Hout.
  - unfold Conversation.archiveConversation.
    destruct (List.find _ (Conversation.archivedBy c)) eqn:F; [by rewrite F|].
    simpl. pose proof (find_fst_snoc (Conversation.archivedBy c) U now) as H.
    by destruct (List.find _ (Conversation.archivedBy c ++ _)).
  - intros A. apply archived_find in A.
    unfold Conversation.archiveConversation. rewrite A. simpl.
    rewrite List.filter_app. simpl. rewrite equals_refl. simpl.
    rewrite app_nil_r. by apply Hkeep.
  - intros V HV. split.
    + unfold Conversation.archiveConversation.
      destruct (List.find _ _); [done|].
      unfold archived. simpl. rewrite List.existsb_app. simpl.
      assert (equals U V = false) as -> by (apply equals_false; congruence).
      simpl. by rewrite !orb_false_r.
    + unfold archived. simpl.
      induction (Conversation.archivedBy c) as [|x l IH]; simpl; [done|].
      destruct (equals (fst x) U) eqn:E; simpl; [|by rewrite IH].
      apply equals_true in E.
      assert (equals (fst x) V = false) as ->
        by (apply equals_false; congruence).
      done.
  - intros Hnd. split.
    + unfold Conversation.archiveConversation.
      destruct (List.find _ _) eqn:F; [done|]. simpl.
      apply NoDup_fst_snoc; [by apply find_fst_none_notin | done].
    + simpl. by apply NoDup_fmap_filter.
Qed.

(* ===================================================================== *)
(* Mute entries                                                          *)
(* ===================================================================== *)

Section more_arrays.
Context {X : Type} (p q : X → bool).




End more_arrays.


Lemma find_mute_none_notin (l : list MuteEntry.t) (U : ObjectId) :
  List.find (fun m => equals (MuteEntry.user m) U) l = None →
  U ∉ MuteEntry.user <$> l.
Proof.
  induction l as [|x l IH]; simpl; [intros _; apply not_elem_of_nil|].
  destruct (equals (MuteEntry.user x) U) eqn:E; [done|]. intros H.
  apply not_elem_of_cons. split; [|by apply IH].
  apply equals_false in E. congruence.
Qed.



(* ===================================================================== *)
(* The access middlewares                                                *)
(* ===================================================================== *)

Ltac run_monad :=
  unfold Store.try_catch, mbind, Store.M_bind, Store.bind,
    Store.Message_findById, Store.Conversation_findById, mret, Store.M_ret,
    Store.ret, Store.throw; simpl.



(* ===================================================================== *)
(* What the message routes write                                         *)
(* ===================================================================== *)

Lemma wp_access_message u b
    (Q : Http.Response + Message.t → World.t → Prop) E w :
  (∀ r, Http.status r = 404%nat ∨ Http.status r = 403%nat → Q (inl r) w) →
  (∀ i m, b = Some i → World.messages w !! i = Some m → may_access w u m →
          Q (inr m) w) →
  wp (Auth.authorizeMessageAccess u None b) Q E w.
Proof.
  intros Hl Hr. unfold Auth.authorizeMessageAccess. apply wp_try_catch.
  destruct b as [i|]; simpl.
  - apply wp_bind. unfold wp at 1; simpl.
    destruct (World.messages w !! i) as [m|] eqn:Hm;
      [|apply wp_ret, Hl; by left].
    destruct (equals (Message.sender m) u) eqn:Hs; simpl.
    { apply wp_ret. eapply Hr; [done..|]. left. by apply equals_true. }
    apply wp_bind, wp_Conversation_findById.
    destruct (World.conversations w !! _) as [c|] eqn:Hc;
      [|apply wp_ret, Hl; by left].
    destruct (negb _) eqn:Hact; [apply wp_ret, Hl; by right|].
    apply wp_ret. eapply Hr; [done..|]. right. exists c. split; [done|].
    by apply negb_false_iff in Hact.
  - apply wp_bind, wp_ret, wp_ret, Hl. by left.
Qed.

Lemma wp_access_conversation u b
    (Q : Http.Response + Conversation.t → World.t → Prop) E w :
  (∀ r, Http.status r = 404%nat ∨ Http.status r = 403%nat → Q (inl r) w) →
  (∀ i c, b = Some i → World.conversations w !! i = Some c →
          Conversation.isActiveParticipant c u = true → Q (inr c) w) →
  wp (Auth.authorizeConversationAccess u None b) Q E w.
Proof.
  intros Hl Hr. unfold Auth.authorizeConversationAccess. apply wp_try_catch.
  destruct b as [i|]; simpl.
  - apply wp_bind, wp_Conversation_findById.
    destruct (World.conversations w !! i) as [c|] eqn:Hc;
      [|apply wp_ret, Hl; by left].
    destruct (negb _) eqn:Hact; [apply wp_ret, Hl; by right|].
    apply wp_ret. eapply Hr; [done..|]. by apply negb_false_iff in Hact.
  - apply wp_bind, wp_ret, wp_ret, Hl. by left.
Qed.

(* a handler that answers: from its weakest precondition to its result *)
Ltac by_wp :=
  match goal with
  | |- ∃ resp w', ?c ?w = (Store.Ok resp, w') ∧ @?R resp w' =>
      cut (wp c R (fun _ => False) w);
      [ let H := fresh in
        unfold wp; destruct (c w) as [[resp|e] w'];
        [intros H; by exists resp, w' | done]
      | ]
  end.

(** X7. Editing over HTTP.  PUT /api/messages/:id always answers, never
    touches the conversations, and changes the messages only when it
    answers 200: then the message named by req.body.messageId (req.params.id
    plays no part) is a text message sent by the requester, the new text is
    a non-empty string, and the only change to the collection is that this
    message is stored, under its _id, with the new text and the edit mark. *)
Theorem edit_only_own_text
    (req : MessageRoutes.EditRequest) (now : Date) (w : World.t) :
  ∃ resp w',
    MessageRoutes.edit req now w = (Store.Ok resp, w')
    ∧ World.conversations w' = World.conversations w
    ∧ ((Http.status resp ≠ 200%nat ∧ World.messages w' = World.messages w)
       ∨ ∃ i m s,
           MessageRoutes.edit_messageId req = Some i
           ∧ World.messages w !! i = Some m
           ∧ Message.sender m = MessageRoutes.edit_user req
           ∧ Message.type m = MessageType.text
           ∧ MessageRoutes.edit_content req = Some (Http.CStr s)
           ∧ s ≠ ""
           ∧ resp = Http.json_data 200 "Message edited successfully"
                      (Http.D_message (Message.editMessage s now m))
           ∧ World.messages w'
             = <[Message._id m := Message.editMessage s now m]>
                 (World.messages w)).
Proof.
  by_wp. unfold MessageRoutes.edit.
  apply wp_bind, wp_access_message.
  { intros r Hr. apply wp_ret. split; [done|]. left. split; [|done].
    destruct Hr as [-> | ->]; lia. }
  intros i m Hb Hm _. apply wp_try_catch.
  destruct (negb (Http.notEmpty _)) eqn:Hne.
  { apply wp_ret. split; [done|]. left. by split. }
  destruct (negb (equals _ _)) eqn:Hs.
  { apply wp_ret. split; [done|]. left. by split. }
  destruct (negb (MessageType.eqb _ _)) eqn:Hty.
  { apply wp_ret. split; [done|]. left. by split. }
  apply negb_false_iff in Hne, Hs, Hty. apply equals_true in Hs.
  destruct (MessageRoutes.edit_content req) as [[s|o]|] eqn:Hc; try done.
  2:{ apply wp_throw, wp_ret. split; [done|]. left. by split. }
  apply wp_bind, wp_save_message.
  destruct (Message.validate _);
    [|apply wp_ret; split; [done|]; left; by split].
  assert (s ≠ "") as Hs'.
  { simpl in Hne. by apply negb_true_iff, String.eqb_neq in Hne. }
  assert (Message.type m = MessageType.text) as Hty'
    by by destruct (Message.type m).
  apply wp_write.
  destruct (World.faults w) as [|[] fs]; simpl.
  - apply wp_ret. split; [done|]. right. by exists i, m, s.
  - apply wp_ret. split; [done|]. left. by split.
  - apply wp_ret. split; [done|]. right. by exists i, m, s.
Qed.

(** X8. Deleting over HTTP.  DELETE /api/messages/:id always answers, never
    touches the conversations, and changes the messages only when it
    answers 200: then the requester is the sender of the message named by
    req.body.messageId, or an active participant of its conversation whose
    first slot has role admin; the conversation of the message is stored
    (without it even the sender gets 500); and the only change is that the
    message is stored with the deletion mark: no document is removed, and
    the content and the reactions of the message stay. *)
Theorem delete_only_sender_or_admin
    (req : MessageRoutes.DeleteRequest) (now : Date) (w : World.t) :
  let u := MessageRoutes.delete_user req in
  ∃ resp w',
    MessageRoutes.delete_ req now w = (Store.Ok resp, w')
    ∧ World.conversations w' = World.conversations w
    ∧ ((Http.status resp ≠ 200%nat ∧ World.messages w' = World.messages w)
       ∨ ∃ i m c m',
           MessageRoutes.delete_messageId req = Some i
           ∧ World.messages w !! i = Some m
           ∧ World.conversations w !! Message.conversation m = Some c
           ∧ (Message.sender m = u
              ∨ (Conversation.isActiveParticipant c u = true
                 ∧ ∃ p, slot c u = Some p ∧ Participant.role p = Role.admin))
           ∧ Http.status resp = 200%nat
           ∧ m' = Message.deleteMessage u now m
           ∧ World.messages w' = <[Message._id m := m']> (World.messages w)
           ∧ Message.isDeleted m' = true
           ∧ Message.content m' = Message.content m
           ∧ Message.reactions m' = Message.reactions m).
Proof.
  intros u. by_wp. unfold MessageRoutes.delete_.
  remember (MessageRoutes.delete_user req) as U eqn:HU. subst u.
  apply wp_bind, wp_access_message.
  { intros r Hr. apply wp_ret. split; [done|]. left. split; [|done].
    destruct Hr as [-> | ->]; lia. }
  intros i m Hb Hm Hacc. apply wp_try_catch.
  apply wp_bind, wp_Conversation_findById.
  destruct (World.conversations w !! Message.conversation m) as [c|] eqn:Hc.
  2:{ apply wp_throw, wp_ret. split; [done|]. left. by split. }
  fold (slot c U).
  destruct (negb (equals (Message.sender m) U) && _) eqn:Hperm.
  { apply wp_ret. split; [done|]. left. by split. }
  apply wp_bind, wp_save_message.
  destruct (Message.validate _);
    [|apply wp_ret; split; [done|]; left; by split].
  assert (Message.sender m = U
          ∨ (Conversation.isActiveParticipant c U = true
             ∧ ∃ p, slot c U = Some p ∧ Participant.role p = Role.admin))
    as Hwho.
  { apply andb_false_iff in Hperm as [Hs|Ha]; apply negb_false_iff in Hs || apply negb_false_iff in Ha.
    - left. by apply equals_true.
    - destruct (equals (Message.sender m) U) eqn:Hs;
        [left; by apply equals_true|].
      right. split.
      + destruct Hacc as [Hs'|(c' & Hc' & Hact)].
        * apply equals_true in Hs'. congruence.
        * congruence.
      + destruct (slot c U) as [p|]; [|done]. exists p. split; [done|].
        by destruct (Participant.role p). }
  apply wp_write.
  destruct (World.faults w) as [|[] fs]; simpl.
  - apply wp_ret. split; [done|]. right.
    by exists i, m, c, (Message.deleteMessage U now m).
  - apply wp_ret. split; [done|]. left. by split.
  - apply wp_ret. split; [done|]. right.
    by exists i, m, c, (Message.deleteMessage U now m).
Qed.

(* ===================================================================== *)
(* Sending                                                               *)
(* ===================================================================== *)



Lemma http_new_message_fields req newId m :
  Http.notEmpty (MessageRoutes.send_content req)
  && MessageRoutes.type_isIn (MessageRoutes.send_type req) = true →
  MessageRoutes.new_message req newId = Some m →
  Message.sender m = MessageRoutes.send_user req
  ∧ Message.conversation m = MessageRoutes.send_conversationId req
  ∧ Message.replyTo m = MessageRoutes.send_replyTo req
  ∧ Message.forwardedFrom m = None
  ∧ Message.reactions m = ∅
  ∧ Message.readBy m = [] ∧ Message.deliveredTo m = []
  ∧ Message.isEdited m = false ∧ Message.isDeleted m = false
  ∧ Message.type m ≠ MessageType.system
  ∧ (∀ s, MessageRoutes.send_content req = Some (Http.CStr s) →
          Message.type m = MessageType.text
          ∧ Content.text (Message.content m) = Some s ∧ s ≠ "").
Proof.
  intros Hval. apply andb_true_iff in Hval as [Hne Hin].
  unfold MessageRoutes.new_message, MessageRoutes.type_isIn in *.
  destruct (MessageRoutes.send_type req) as [ty|]; simpl in *.
  - destruct (MessageType.of_string ty) as [t|]; [|done].
    destruct (MessageRoutes.send_content req) as [[s|o]|]; [| |done].
    + assert (s ≠ "") as Hs.
      { simpl in Hne. by apply negb_true_iff, String.eqb_neq in Hne. }
      destruct t; try done. simpl. intros [= <-]. simpl.
      do 10 (split; [done|]). by intros s' [= <-].
    + destruct t; try done; simpl; intros [= <-]; simpl;
        by do 10 (split; [done|]).
  - destruct (MessageRoutes.send_content req) as [[s|o]|]; [| |done].
    + assert (s ≠ "") as Hs.
      { simpl in Hne. by apply negb_true_iff, String.eqb_neq in Hne. }
      simpl. intros [= <-]. simpl.
      do 10 (split; [done|]). by intros s' [= <-].
    + done.
Qed.

Lemma http_send_validated req newId now w resp w' :
  MessageRoutes.send req newId now w = (Store.Ok resp, w') →
  Http.status resp = 201%nat →
  Http.notEmpty (MessageRoutes.send_content req)
  && MessageRoutes.type_isIn (MessageRoutes.send_type req) = true.
Proof.
  unfold MessageRoutes.send, Http.asyncHandler. run_monad.
  destruct (_ && _); [done|]. simpl. by intros [= <- <-].
Qed.

(** X10. What a successful HTTP send leaves behind.  After a 201 the built
    message is stored under the new id: its sender is the requester, its
    conversation the target, it carries no reactions and no receipts, it
    is neither edited nor deleted, its type is never 'system', and a string
    body makes it a text message with that (non-empty) text.  The target
    conversation, of which the sender is an active participant, points at
    the message as its last one, stamped now, with its participants as
    they were; no other message and no other conversation changes. *)
Theorem send_stores_message
    (req : MessageRoutes.SendRequest) (newId : ObjectId) (now : Date)
    (w w' : World.t) (resp : Http.Response)
    (Hwf : store_wf w)
    (Hrun : MessageRoutes.send req newId now w = (Store.Ok resp, w'))
    (Hst : Http.status resp = 201%nat) :
  let u := MessageRoutes.send_user req in
  let cid := MessageRoutes.send_conversationId req in
  ∃ c m c',
    World.conversations w !! cid = Some c
    ∧ Conversation.isActiveParticipant c u = true
    ∧ World.messages w' !! newId = Some m
    ∧ (∀ k, k ≠ newId → World.messages w' !! k = World.messages w !! k)
    ∧ Message._id m = newId
    ∧ Message.sender m = u
    ∧ Message.conversation m = cid
    ∧ Message.reactions m = ∅
    ∧ Message.readBy m = [] ∧ Message.deliveredTo m = []
    ∧ Message.isEdited m = false ∧ Message.isDeleted m = false
    ∧ Message.type m ≠ MessageType.system
    ∧ (∀ s, MessageRoutes.send_content req = Some (Http.CStr s) →
            Message.type m = MessageType.text
            ∧ Content.text (Message.content m) = Some s ∧ s ≠ "")
    ∧ World.conversations w' !! cid = Some c'
    ∧ (∀ k, k ≠ cid → World.conversations w' !! k = World.conversations w !! k)
    ∧ Conversation.lastMessage c' = Some newId
    ∧ Conversation.lastMessageAt c' = now
    ∧ Conversation.participants c' = Conversation.participants c
    ∧ Conversation._id c' = cid.
Proof.
  intros u cid.
  destruct (http_send_success req newId now w resp w' Hwf Hrun Hst)
    as (c & m & Hc & Hact & Hm & Hms & Hcs).
  pose proof (http_send_validated _ _ _ _ _ _ Hrun Hst) as Hval.
  destruct (http_new_message_fields req newId m Hval Hm)
    as (? & ? & ? & ? & ? & ? & ? & ? & ? & ? & ?).
  destruct (bump_unread_frame (MessageRoutes.send_user req)
              (Conversation.participants c)
              (Conversation.set_lastMessage newId now c))
    as (Hid & Hps & Hlast & Hat & _ & _).
  subst u cid.
  exists c, m,
    (bump_unread (MessageRoutes.send_user req) (Conversation.participants c)
       (Conversation.set_lastMessage newId now c)).
  split; [done|]. split; [done|].
  split; [by rewrite Hms, lookup_insert_eq|].
  split; [intros k Hk; by rewrite Hms, lookup_insert_ne|].
  split; [by eapply http_new_message_id|].
  do 9 (split; [done|]).
  split; [by rewrite Hcs, lookup_insert_eq|].
  split; [intros k Hk; by rewrite Hcs, lookup_insert_ne|].
  split; [by rewrite Hlast|]. split; [by rewrite Hat|].
  split; [by rewrite Hps|]. rewrite Hid. simpl. by apply Hwf.
Qed.

Lemma send_stores_witness :
  let w :=
    snd (ConversationRoutes.create
           {| ConversationRoutes.create_user := "u1";
              ConversationRoutes.create_participants := Some ["u2"];
              ConversationRoutes.create_type := Some ConversationType.direct;
              ConversationRoutes.create_name := None |}
           "c1" 100%Z World.empty) in
  let req :=
    {| MessageRoutes.send_user := "u1";
       MessageRoutes.send_conversationId := "c1";
       MessageRoutes.send_content := Some (Http.CStr "hi");
       MessageRoutes.send_type := None;
       MessageRoutes.send_replyTo := None;
       MessageRoutes.send_clientId := None;
       MessageRoutes.send_deviceId := None;
       MessageRoutes.send_platform := None;
       MessageRoutes.send_version := None |} in
  ∃ m c',
    World.messages (snd (MessageRoutes.send req "m1" 200%Z w)) !! "m1" = Some m
    ∧ Content.text (Message.content m) = Some "hi"
    ∧ World.conversations (snd (MessageRoutes.send req "m1" 200%Z w)) !! "c1"
      = Some c'
    ∧ Conversation.lastMessage c' = Some "m1".
Proof.
  intros w req.
  destruct (MessageRoutes.send req "m1" 200%Z w) as [res w'] eqn:Hrun.
  assert (∃ resp, res = Store.Ok resp ∧ Http.status resp = 201%nat)
    as (resp & -> & Hst).
  { vm_compute in Hrun. injection Hrun as <- _. eexists. split; reflexivity. }
  assert (store_wf w) as Hwf.
  { apply (store_wf_singleton
             (Conversation.new "c1" ConversationType.direct None
                [ConversationRoutes.participant "u1" Role.admin 100%Z;
                 ConversationRoutes.participant "u2" Role.member 100%Z] 100%Z)).
    vm_compute. reflexivity. }
  destruct (send_stores_message req "m1" 200%Z w w' resp Hwf Hrun Hst)
    as (c & m & c' & _ & _ & Hm & _ & _ & _ & _ & _ & _ & _ & _ & _ & _
        & Htext & Hc' & _ & Hlast & _).
  exists m, c'. split; [exact Hm|].
  split; [exact (proj1 (proj2 (Htext "hi" eq_refl)))|].
  split; [exact Hc' | exact Hlast].
Defined.

(* ===================================================================== *)
(* What 'message:send' emits                                             *)
(* ===================================================================== *)

(* the notification loop, exactly *)
Lemma notify_loop_exact socket cid m ps (w0 w : World.t)
    (E : World.t → Prop) :
  World.connectedUsers w = World.connectedUsers w0 →
  wp (Store.for_of ps
        (fun (_ : unit) participant =>
           if negb (equals (Participant.user participant)
                      (SocketHandler.userId socket))
              && Participant.isActive participant
           then
             Store.get ≫= (fun w =>
               match World.connectedUsers w !! Participant.user participant with
               | Some _ => mret tt
               | None =>
                   Store.emit
                     (World.to_room ("user:" +:+ Participant.user participant))
                     "notification:new"
                     (World.P_notification
                        (SocketHandler.firstName socket +:+ " "
                           +:+ SocketHandler.lastName socket)
                        (Message.displayContent m) cid (Message._id m))
               end)
           else mret tt)
        tt)
    (fun _ w' =>
       World.outbox w'
       = World.outbox w
         ++ (notification socket cid m
             <$> notified w0 (SocketHandler.userId socket) ps)
       ∧ World.connectedUsers w' = World.connectedUsers w0
       ∧ World.messages w' = World.messages w
       ∧ World.conversations w' = World.conversations w)
    E w.
Proof.
  revert w. induction ps as [|p ps IH]; intros w Hcu; simpl.
  - apply wp_ret. unfold notified. simpl. by rewrite app_nil_r.
  - apply (wp_bind _ (Store.for_of ps _)).
    unfold notified. simpl. unfold SocketHandler.isOnline at 1.
    destruct (negb _ && _) eqn:Hcond; simpl.
    + apply wp_bind, wp_get. rewrite Hcu.
      destruct (World.connectedUsers w0 !! Participant.user p) as [pr|] eqn:Hp.
      * rewrite bool_decide_eq_true_2 by eauto. simpl.
        apply wp_ret. by apply IH.
      * rewrite bool_decide_eq_false_2 by (by intros [? ?]). simpl.
        apply wp_emit.
        eapply wp_mono; [apply IH; by simpl | | done].
        intros [] w' (Ho & ? & ? & ?). simpl in *.
        split; [|done]. by rewrite Ho, <- app_assoc.
    + apply wp_ret. by apply IH.
Qed.

(** X11. What 'message:send' emits.  The handler never changes the
    presence registry and appends to the outbox either one error event for
    the sender's socket, or, for an active participant whose message was
    built and stored: 'message:new' to the conversation room but the
    sender's socket, 'message:sent' with the client id to the sender's
    socket, and then one 'notification:new' to the user room of each active
    slot of another user who has no registered socket, in slot order.  The
    sender and the users who are online get no notification. *)
Theorem message_send_emits
    (socket : SocketHandler.Socket) (cid : ObjectId)
    (data : SocketHandler.SendData) (newId : ObjectId) (now : Date)
    (w : World.t) :
  let w' := snd (SocketHandler.message_send socket cid data newId now w) in
  let S := SocketHandler.userId socket in
  World.connectedUsers w' = World.connectedUsers w
  ∧ ((∃ reason,
        World.outbox w' = World.outbox w ++ [error_to socket reason]
        ∧ reason ∈ ["Conversation not found";
                    "Not a participant of this conversation";
                    "Failed to send message"])
     ∨ ∃ c m,
         World.conversations w !! cid = Some c
         ∧ Conversation.isActiveParticipant c S = true
         ∧ SocketHandler.new_message socket cid data newId = Some m
         ∧ World.messages w' !! newId = Some m
         ∧ World.outbox w'
           = World.outbox w
             ++ [ {| World.target :=
                       World.to_room_except ("conversation:" +:+ cid)
                         (SocketHandler.id socket);
                     World.event := "message:new";
                     World.payload := World.P_message m |};
                  {| World.target := World.to_socket (SocketHandler.id socket);
                     World.event := "message:sent";
                     World.payload :=
                       World.P_sent (SocketHandler.clientId data) m |} ]
             ++ (notification socket cid m
                 <$> notified w S (Conversation.participants c))
         ∧ (∀ u, u ∈ notified w S (Conversation.participants c) →
                 u ≠ S ∧ SocketHandler.isOnline w u = false)).
Proof.
  intros w' S. subst w'.
  set (R := fun w' : World.t =>
    World.connectedUsers w' = World.connectedUsers w
    ∧ ((∃ reason,
          World.outbox w' = World.outbox w ++ [error_to socket reason]
          ∧ reason ∈ ["Conversation not found";
                      "Not a participant of this conversation";
                      "Failed to send message"])
       ∨ ∃ c m,
           World.conversations w !! cid = Some c
           ∧ Conversation.isActiveParticipant c S = true
           ∧ SocketHandler.new_message socket cid data newId = Some m
           ∧ World.messages w' !! newId = Some m
           ∧ World.outbox w'
             = World.outbox w
               ++ [ {| World.target :=
                         World.to_room_except ("conversation:" +:+ cid)
                           (SocketHandler.id socket);
                       World.event := "message:new";
                       World.payload := World.P_message m |};
                    {| World.target := World.to_socket (SocketHandler.id socket);
                       World.event := "message:sent";
                       World.payload :=
                         World.P_sent (SocketHandler.clientId data) m |} ]
               ++ (notification socket cid m
                   <$> notified w S (Conversation.participants c))
           ∧ (∀ u, u ∈ notified w S (Conversation.participants c) →
                   u ≠ S ∧ SocketHandler.isOnline w u = false))).
  cut (wp (SocketHandler.message_send socket cid data newId now)
         (fun _ => R) (fun _ => False) w).
  { unfold wp.
    by destruct (SocketHandler.message_send socket cid data newId now w)
      as [[[]|e] w']. }
  (* a world that differs from w in the store only *)
  set (J := fun w1 : World.t =>
    World.outbox w1 = World.outbox w
    ∧ World.connectedUsers w1 = World.connectedUsers w).
  assert (∀ w1, J w1 →
            wp (Store.emit (World.to_socket (SocketHandler.id socket)) "error"
                  (World.P_error "Failed to send message"))
              (fun _ => R) (fun _ => False) w1) as Hfail.
  { intros w1 [Ho Hcu]. apply wp_emit. split; [done|]. left.
    exists "Failed to send message". simpl. rewrite Ho.
    split; [done|]. set_solver. }
  unfold SocketHandler.message_send. apply wp_try_catch.
  unfold SocketHandler.message_send_try.
  apply wp_bind, wp_Conversation_findById.
  destruct (World.conversations w !! cid) as [c|] eqn:Hc.
  2:{ apply wp_emit. split; [done|]. left.
      exists "Conversation not found". split; [done|]. set_solver. }
  destruct (negb _) eqn:Hact.
  { apply wp_emit. split; [done|]. left.
    exists "Not a participant of this conversation". split; [done|].
    set_solver. }
  apply negb_false_iff in Hact.
  destruct (SocketHandler.new_message socket cid data newId) as [m|] eqn:Hm.
  2:{ apply wp_throw. by apply Hfail. }
  pose proof (socket_new_message_id _ _ _ _ _ Hm) as Hid.
  apply wp_bind, wp_save_message.
  destruct (Message.validate m); [|by apply Hfail].
  (* after the message is stored *)
  assert (∀ w1, J w1 → World.messages w1 !! newId = Some m →
            wp (Store.save_conversation
                  (Conversation.set_lastMessage (Message._id m) now c) ≫=
                (fun _ =>
                   MessageRoutes.update_unread_loop (SocketHandler.userId socket)
                     (Conversation.set_lastMessage (Message._id m) now c) ≫=
                   (fun conversation =>
                      Store.emit
                        (World.to_room_except ("conversation:" +:+ cid)
                           (SocketHandler.id socket))
                        "message:new" (World.P_message m) ≫=
                      (fun _ =>
                         Store.emit (World.to_socket (SocketHandler.id socket))
                           "message:sent"
                           (World.P_sent (SocketHandler.clientId data) m) ≫=
                         (fun _ =>
                            SocketHandler.notify_loop socket cid m
                              conversation)))))
              (fun _ => R)
              (wp (Store.emit (World.to_socket (SocketHandler.id socket))
                     "error" (World.P_error "Failed to send message"))
                 (fun _ => R) (fun _ => False)) w1) as Hrest.
  { intros w1 HJ1 Hm1. apply wp_bind, wp_save_conversation.
    destruct (Conversation.validate _); [|by apply Hfail].
    assert (∀ w2, J w2 → World.messages w2 !! newId = Some m →
              wp (MessageRoutes.update_unread_loop (SocketHandler.userId socket)
                    (Conversation.set_lastMessage (Message._id m) now c) ≫=
                  (fun conversation =>
                     Store.emit
                       (World.to_room_except ("conversation:" +:+ cid)
                          (SocketHandler.id socket))
                       "message:new" (World.P_message m) ≫=
                     (fun _ =>
                        Store.emit (World.to_socket (SocketHandler.id socket))
                          "message:sent"
                          (World.P_sent (SocketHandler.clientId data) m) ≫=
                        (fun _ =>
                           SocketHandler.notify_loop socket cid m
                             conversation))))
                (fun _ => R)
                (wp (Store.emit (World.to_socket (SocketHandler.id socket))
                       "error" (World.P_error "Failed to send message"))
                   (fun _ => R) (fun _ => False)) w2) as Hloop.
    { intros w2 HJ2 Hm2. apply wp_bind.
      unfold MessageRoutes.update_unread_loop.
      eapply wp_mono;
        [apply (wp_for_of _ _
                  (fun c' w3 =>
                     J w3 ∧ World.messages w3 !! newId = Some m
                     ∧ Conversation.participants c' = Conversation.participants c)
                  (fun w3 => J w3)); [done|] | | ].
      - intros c1 p w3 _ ([Ho3 Hcu3] & Hm3 & Hps).
        destruct (negb _ && _); [|by apply wp_ret].
        apply wp_bind, wp_save_conversation.
        destruct (Conversation.validate _); [|done].
        apply wp_write.
        destruct (World.faults w3) as [|[] fs]; simpl; [|done|];
          by apply wp_ret.
      - intros c' w3 ([Ho3 Hcu3] & Hm3 & Hps). simpl.
        apply wp_bind, wp_emit, wp_bind, wp_emit.
        unfold SocketHandler.notify_loop.
        eapply wp_mono;
          [apply (notify_loop_exact socket cid m _ w); by simpl | | done].
        intros [] w4 (Ho4 & Hcu4 & Hm4 & _). simpl in *.
        split; [done|]. right. exists c, m.
        do 3 (split; [done|]). split; [congruence|]. split.
        + rewrite Ho4, Ho3, Hps. by rewrite <- !app_assoc.
        + intros u Hu. unfold notified in Hu.
          apply list_elem_of_fmap in Hu as (p & -> & Hp).
          apply list_elem_of_In, filter_In in Hp as [_ Hp].
          apply andb_true_iff in Hp as [Hp Hoff].
          apply andb_true_iff in Hp as [Hp _].
          apply negb_true_iff in Hp, Hoff. by apply equals_false in Hp.
      - intros w3 HJ3. by apply Hfail. }
    apply wp_write.
    destruct (World.faults w1) as [|[] fs]; simpl.
    - apply Hloop; [by destruct HJ1 | done].
    - apply Hfail. by destruct HJ1.
    - apply Hloop; [by destruct HJ1 | done]. }
  apply wp_write.
  destruct (World.faults w) as [|[] fs]; simpl.
  - apply Hrest; [done|]. simpl. by rewrite Hid, lookup_insert_eq.
  - by apply Hfail.
  - apply Hrest; [done|]. simpl. by rewrite Hid, lookup_insert_eq.
Qed.

(* ===================================================================== *)
(* What the conversation routes write                                    *)
(* ===================================================================== *)

Lemma active_has_slot (c : Conversation.t) (u : ObjectId) :
  Conversation.isActiveParticipant c u = true → ∃ p, slot c u = Some p.
Proof.
  unfold Conversation.isActiveParticipant, slot.
  induction (Conversation.participants c) as [|x l IH]; simpl; [done|].
  destruct (equals (Participant.user x) u); simpl; [eauto | exact IH].
Qed.

Lemma status_404_403 (r : Http.Response) (n : nat) :
  Http.status r = 404%nat ∨ Http.status r = 403%nat →
  n ≠ 404%nat → n ≠ 403%nat → Http.status r ≠ n.
Proof. intros [-> | ->]; congruence. Qed.

(** X12. Leaving.  POST /api/conversations/:id/leave always answers and
    never touches the messages.  It changes the conversations only when it
    answers 200: then the requester is an active participant of the
    conversation named by req.body.conversationId, and in a group not the
    holder of its only admin slot (a slot counts whether or not its user
    is still active); the only change is that the conversation is stored
    with the requester's first slot marked as left.  With one slot for the
    requester, they are then no longer an active participant. *)
Theorem leave_rules
    (req : ConversationRoutes.Request) (now : Date) (w : World.t) :
  let u := ConversationRoutes.req_user req in
  ∃ resp w',
    ConversationRoutes.leave req now w = (Store.Ok resp, w')
    ∧ World.messages w' = World.messages w
    ∧ ((Http.status resp ≠ 200%nat
        ∧ World.conversations w' = World.conversations w)
       ∨ ∃ i c,
           ConversationRoutes.req_conversationId req = Some i
           ∧ World.conversations w !! i = Some c
           ∧ Conversation.isActiveParticipant c u = true
           ∧ (Conversation.type c = ConversationType.group →
              ∃ p, slot c u = Some p
                   ∧ ¬ (Participant.role p = Role.admin
                        ∧ length (admins c) = 1%nat))
           ∧ Http.status resp = 200%nat
           ∧ World.conversations w'
             = <[Conversation._id c := Conversation.removeParticipant u now c]>
                 (World.conversations w)
           ∧ ((length (entries c u) ≤ 1)%nat →
              Conversation.isActiveParticipant
                (Conversation.removeParticipant u now c) u = false)).
Proof.
  intros u. by_wp. unfold ConversationRoutes.leave.
  remember (ConversationRoutes.req_user req) as U eqn:HU. subst u.
  match goal with |- wp _ ?Q _ _ => set (R := Q) end.
  apply wp_bind, wp_access_conversation.
  { intros r Hr. apply wp_ret. split; [done|]. left. split; [|done].
    by apply status_404_403. }
  intros i c Hb Hc Hact. apply wp_try_catch. cbv zeta.
  fold (slot c U). fold (admins c).
  assert ((Conversation.type c = ConversationType.group →
           ∃ p, slot c U = Some p
                ∧ ¬ (Participant.role p = Role.admin
                     ∧ length (admins c) = 1%nat)) →
          wp (Store.save_conversation (Conversation.removeParticipant U now c)
              ≫= (fun _ => mret (Http.json 200 "Left conversation successfully")))
            R (wp (mret (Http.json 500 "Something went wrong!")) R
                 (fun _ => False)) w) as Hremove.
  { intros Hrule. apply wp_bind, wp_save_conversation.
    destruct (Conversation.validate _);
      [|apply wp_ret; split; [done|]; left; by split].
    apply wp_write.
    destruct (World.faults w) as [|[] fs]; simpl; apply wp_ret;
      (split; [done|]); [right | left; by split | right];
      exists i, c; repeat (split; [done|]);
      apply removeParticipant_inactive. }
  destruct (Conversation.type c) eqn:Hty; simpl.
  - apply Hremove. by intros.
  - destruct (slot c U) as [p|] eqn:Hp.
    2:{ apply wp_throw, wp_ret. split; [done|]. left. by split. }
    destruct (Role.eqb _ _ && _) eqn:Hsole.
    { apply wp_ret. split; [done|]. left. by split. }
    apply Hremove. intros _. exists p. split; [done|]. intros [Hr Hl].
    rewrite Hr, Hl in Hsole. done.
Qed.

(** X13. Removing a participant.  DELETE
    /api/conversations/:id/participants/:participantId always answers and
    never touches the messages.  It changes the conversations only when it
    answers 200: then the requester is an active participant of the
    conversation named by req.body.conversationId, the target has a slot in
    it, and in a group the requester's first slot is admin or moderator
    and the target's first slot is not admin (a direct conversation asks
    for neither); the only change is that the conversation is stored with
    the target's first slot marked as left. *)
Theorem remove_participant_rules
    (req : ConversationRoutes.Request) (now : Date) (w : World.t) :
  let u := ConversationRoutes.req_user req in
  let t := ConversationRoutes.req_participantId req in
  ∃ resp w',
    ConversationRoutes.remove_participant req now w = (Store.Ok resp, w')
    ∧ World.messages w' = World.messages w
    ∧ ((Http.status resp ≠ 200%nat
        ∧ World.conversations w' = World.conversations w)
       ∨ ∃ i c pt,
           ConversationRoutes.req_conversationId req = Some i
           ∧ World.conversations w !! i = Some c
           ∧ Conversation.isActiveParticipant c u = true
           ∧ slot c t = Some pt
           ∧ (Conversation.type c = ConversationType.group →
              Participant.role pt ≠ Role.admin
              ∧ ∃ pu, slot c u = Some pu
                      ∧ Participant.role pu ≠ Role.member)
           ∧ Http.status resp = 200%nat
           ∧ World.conversations w'
             = <[Conversation._id c := Conversation.removeParticipant t now c]>
                 (World.conversations w)).
Proof.
  intros u t. by_wp. unfold ConversationRoutes.remove_participant.
  remember (ConversationRoutes.req_user req) as U eqn:HU.
  remember (ConversationRoutes.req_participantId req) as T eqn:HT.
  subst u t.
  match goal with |- wp _ ?Q _ _ => set (R := Q) end.
  apply wp_bind, wp_access_conversation.
  { intros r Hr. apply wp_ret. split; [done|]. left. split; [|done].
    by apply status_404_403. }
  intros i c Hb Hc Hact. apply wp_try_catch. cbv zeta.
  fold (slot c T). fold (slot c U).
  destruct (slot c T) as [pt|] eqn:Hpt.
  2:{ apply wp_ret. split; [done|]. left. by split. }
  assert ((Conversation.type c = ConversationType.group →
           Participant.role pt ≠ Role.admin
           ∧ ∃ pu, slot c U = Some pu ∧ Participant.role pu ≠ Role.member) →
          wp (Store.save_conversation (Conversation.removeParticipant T now c)
              ≫= (fun _ => mret (Http.json 200 "Participant removed successfully")))
            R (wp (mret (Http.json 500 "Something went wrong!")) R
                 (fun _ => False)) w) as Hremove.
  { intros Hrule. apply wp_bind, wp_save_conversation.
    destruct (Conversation.validate _);
      [|apply wp_ret; split; [done|]; left; by split].
    apply wp_write.
    destruct (World.faults w) as [|[] fs]; simpl; apply wp_ret;
      (split; [done|]); [right | left; by split | right];
      by exists i, c, pt. }
  destruct (active_has_slot c U Hact) as [pu Hpu]. rewrite Hpu.
  destruct (Conversation.type c) eqn:Hty; simpl.
  - apply Hremove. by intros.
  - destruct (negb (ConversationRoutes.role_may_manage _)) eqn:Hman.
    { apply wp_ret. split; [done|]. left. by split. }
    destruct (Role.eqb (Participant.role pt) Role.admin) eqn:Hadm.
    { apply wp_ret. split; [done|]. left. by split. }
    apply Hremove. intros _. split.
    + intros Hr. by rewrite Hr in Hadm.
    + exists pu. split; [done|]. intros Hr. by rewrite Hr in Hman.
Qed.






Lemma markAsRead_has (u : ObjectId) (now : Date) (m : Message.t) :
  u ∈ (Message.readBy (Message.markAsRead u now m)).*1.
Proof.
  unfold Message.markAsRead.
  destruct (List.find _ _) as [r|] eqn:F.
  - apply find_some in F as [Hin Hr]. apply equals_true in Hr as <-.
    apply list_elem_of_fmap. exists r. split; [done|]. by apply list_elem_of_In.
  - simpl. rewrite fmap_app. set_solver.
Qed.

Lemma existsb_fst_in (u : ObjectId) (l : list (ObjectId * Date)) :
  List.existsb (fun r => equals (fst r) u) l = true → u ∈ l.*1.
Proof.
  intros H. apply existsb_exists in H as (r & Hin & Hr).
  apply equals_true in Hr as <-.
  apply list_elem_of_fmap. exists r. split; [done|]. by apply list_elem_of_In.
Qed.

(** X16. Marking a conversation read.  PUT /api/conversations/:id/read
    always answers and changes no message unless it answers 200.  Then the
    requester is an active participant of the conversation named by
    req.body.conversationId; the conversation is stored with the
    requester's unread counter at 0 and every other counter as it was;
    every message of that conversation carries a read receipt of the
    requester; and the messages of other conversations, and those the
    requester had read before, are exactly as they were. *)
Theorem read_marks_conversation
    (req : ConversationRoutes.Request) (now : Date) (w : World.t) :
  let u := ConversationRoutes.req_user req in
  ∃ resp w',
    ConversationRoutes.read req now w = (Store.Ok resp, w')
    ∧ ((Http.status resp ≠ 200%nat ∧ World.messages w' = World.messages w)
       ∨ ∃ i c c',
           ConversationRoutes.req_conversationId req = Some i
           ∧ World.conversations w !! i = Some c
           ∧ Conversation.isActiveParticipant c u = true
           ∧ Http.status resp = 200%nat
           ∧ World.conversations w'
             = <[Conversation._id c := c']> (World.conversations w)
           ∧ unread c' u = 0%Z
           ∧ (∀ v, v ≠ u → unread c' v = unread c v)
           ∧ Conversation.participants c' = Conversation.participants c
           ∧ (∀ k, is_Some (World.messages w' !! k)
                   ↔ is_Some (World.messages w !! k))
           ∧ (∀ k m', World.messages w' !! k = Some m' →
                      Message.conversation m' = Conversation._id c →
                      u ∈ (Message.readBy m').*1)
           ∧ (∀ k m, World.messages w !! k = Some m →
                     Message.conversation m ≠ Conversation._id c
                     ∨ u ∈ (Message.readBy m).*1 →
                     World.messages w' !! k = Some m)).
Proof.
  intros u. by_wp. unfold ConversationRoutes.read.
  remember (ConversationRoutes.req_user req) as U eqn:HU. subst u.
  match goal with |- wp _ ?Q _ _ => set (R := Q) end.
  apply wp_bind, wp_access_conversation.
  { intros r Hr. apply wp_ret. left. split; [|done].
    by apply status_404_403. }
  intros i c Hb Hc Hact. apply wp_try_catch. cbv zeta.
  assert (∀ w1 : World.t,
            World.conversations w1
            = <[Conversation._id c := Conversation.resetUnreadCount U c]>
                (World.conversations w) →
            World.messages w1
            = ConversationRoutes.push_read (Conversation._id c) U now
              <$> World.messages w →
            R (Http.json 200 "Conversation marked as read") w1) as Hok.
  { intros w1 Hcs Hms. right.
    exists i, c, (Conversation.resetUnreadCount U c).
    do 5 (split; [done|]).
    split; [unfold unread; simpl; by rewrite lookup_insert_eq|].
    split.
    { intros v Hv. unfold unread. simpl. by rewrite lookup_insert_ne. }
    split; [done|].
    split; [intros k; by rewrite Hms, lookup_fmap, fmap_is_Some|].
    split.
    - intros k m'. rewrite Hms, lookup_fmap.
      destruct (World.messages w !! k) as [m|]; [|done]. simpl.
      intros [= <-]. unfold ConversationRoutes.push_read.
      destruct (equals (Message.conversation m) (Conversation._id c)) eqn:E;
        simpl.
      + intros _. destruct (List.existsb _ _) eqn:Hex; simpl.
        * by apply existsb_fst_in.
        * apply markAsRead_has.
      + intros Heq. apply equals_false in E. done.
    - intros k m Hm Hcase. rewrite Hms, lookup_fmap, Hm. simpl. f_equal.
      unfold ConversationRoutes.push_read.
      destruct (equals (Message.conversation m) (Conversation._id c)) eqn:E;
        simpl; [|done].
      destruct (List.existsb _ _) eqn:Hex; simpl; [done|].
      destruct Hcase as [Hne | Hin].
      + apply equals_true in E. done.
      + unfold Message.markAsRead.
        destruct (List.find _ _) eqn:F; [done|].
        by apply find_fst_none_notin in F. }
  apply wp_bind, wp_save_conversation.
  destruct (Conversation.validate _); [|apply wp_ret; left; by split].
  apply wp_write.
  destruct (World.faults w) as [|[|] fs] eqn:Hf; simpl.
  - apply wp_bind, wp_write. simpl. rewrite Hf. apply wp_ret. by apply Hok.
  - apply wp_ret. left. by split.
  - apply wp_bind, wp_write. simpl.
    destruct fs as [|[|] fs']; simpl; apply wp_ret;
      [by apply Hok | left; by split | by apply Hok].
Qed.

(* ---- adding participants ---- *)

Lemma addParticipant_id p r now c :
  Conversation._id (Conversation.addParticipant p r now c) = Conversation._id c.
Proof. unfold Conversation.addParticipant. by destruct (List.find _ _). Qed.

Lemma add_all_id ps now c :
  Conversation._id (add_all ps now c) = Conversation._id c.
Proof.
  revert c. induction ps as [|p ps IH]; intros c; simpl; [done|].
  unfold add_all in *. simpl. by rewrite IH, addParticipant_id.
Qed.

Lemma add_all_snoc ps p now c :
  add_all (ps ++ [p]) now c
  = Conversation.addParticipant p Role.member now (add_all ps now c).
Proof. unfold add_all. by rewrite fold_left_app. Qed.

Lemma addParticipant_prefix p r now c :
  Conversation.participants c
  `prefix_of` Conversation.participants (Conversation.addParticipant p r now c).
Proof.
  unfold Conversation.addParticipant. destruct (List.find _ _); [done|].
  simpl. by apply prefix_app_r.
Qed.

Lemma addParticipant_slot p r now c : p ∈ slot_users (Conversation.addParticipant p r now c).
Proof.
  unfold Conversation.addParticipant, slot_users.
  destruct (List.find _ _) as [x|] eqn:F.
  - apply find_some in F as [Hin Hx]. apply equals_true in Hx as <-.
    apply list_elem_of_fmap. exists x. split; [done|]. by apply list_elem_of_In.
  - simpl. rewrite fmap_app. set_solver.
Qed.

Lemma add_all_prefix ps now c :
  Conversation.participants c `prefix_of` Conversation.participants (add_all ps now c).
Proof.
  induction ps as [|p ps IH] using rev_ind; [done|].
  rewrite add_all_snoc. etrans; [exact IH | apply addParticipant_prefix].
Qed.

Lemma add_all_slots ps now c p :
  p ∈ ps → p ∈ slot_users (add_all ps now c).
Proof.
  induction ps as [|q ps IH] using rev_ind; [by intros ?%elem_of_nil|].
  rewrite add_all_snoc. intros [Hp | ->%list_elem_of_singleton]%elem_of_app.
  - specialize (IH Hp). unfold slot_users in *.
    destruct (addParticipant_prefix q Role.member now (add_all ps now c))
      as [l ->].
    rewrite fmap_app. apply elem_of_app. by left.
  - apply addParticipant_slot.
Qed.

(* the conversations after the loop has stored the documents of d *)
Lemma add_participants_loop (now : Date) (c0 : Conversation.t)
    (cs0 : gmap ObjectId Conversation.t) (ms0 : gmap ObjectId Message.t)
    (rest done : list ObjectId) (w : World.t) :
  let after d :=
    match d with
    | [] => cs0
    | _ => <[Conversation._id c0 := add_all d now c0]> cs0
    end in
  World.conversations w = after done →
  World.messages w = ms0 →
  wp (Store.for_of rest
        (fun conversation participantId =>
           Store.save_conversation
             (Conversation.addParticipant participantId Role.member now
                conversation) ≫=
           (fun _ =>
              mret (Conversation.addParticipant participantId Role.member now
                      conversation)))
        (add_all done now c0))
    (fun c' w' =>
       c' = add_all (done ++ rest) now c0
       ∧ World.conversations w' = after (done ++ rest)
       ∧ World.messages w' = ms0)
    (fun w' =>
       World.messages w' = ms0
       ∧ ∃ d, d `prefix_of` (done ++ rest) ∧ World.conversations w' = after d)
    w.
Proof.
  intros after. revert done w.
  induction rest as [|x rest IH]; intros done w Hcs Hms; simpl.
  - apply wp_ret. by rewrite app_nil_r.
  - apply (wp_bind _ (Store.for_of rest _)).
    assert (∀ w1, World.conversations w1 = after done →
                  World.messages w1 = ms0 →
                  World.messages w1 = ms0
                  ∧ ∃ d, d `prefix_of` (done ++ x :: rest)
                         ∧ World.conversations w1 = after d) as Hstop.
    { intros w1 H1 H2. split; [done|]. exists done. split; [|done].
      by apply prefix_app_r. }
    apply wp_bind, wp_save_conversation.
    destruct (Conversation.validate _); [|by apply Hstop].
    rewrite <- add_all_snoc.
    assert (∀ cs, cs = after done →
              <[Conversation._id (add_all (done ++ [x]) now c0) :=
                  add_all (done ++ [x]) now c0]> cs
              = after (done ++ [x])) as Hstore.
    { intros cs ->. rewrite add_all_id. unfold after.
      destruct done as [|d0 done']; simpl; [done|].
      by rewrite insert_insert_eq. }
    assert (∀ w1, World.conversations w1 = after (done ++ [x]) →
                  World.messages w1 = ms0 →
                  wp (Store.for_of rest
                        (fun conversation participantId =>
                           Store.save_conversation
                             (Conversation.addParticipant participantId
                                Role.member now conversation) ≫=
                           (fun _ =>
                              mret (Conversation.addParticipant participantId
                                      Role.member now conversation)))
                        (add_all (done ++ [x]) now c0))
                    (fun c' w' =>
                       c' = add_all (done ++ x :: rest) now c0
                       ∧ World.conversations w' = after (done ++ x :: rest)
                       ∧ World.messages w' = ms0)
                    (fun w' =>
                       World.messages w' = ms0
                       ∧ ∃ d, d `prefix_of` (done ++ x :: rest)
                              ∧ World.conversations w' = after d)
                    w1) as Hnext.
    { intros w1 H1 H2.
      rewrite (cons_middle x done rest), app_assoc. by apply IH. }
    apply wp_write.
    destruct (World.faults w) as [|[] fs]; simpl.
    + apply wp_ret, Hnext; simpl; [by apply Hstore | done].
    + by apply Hstop.
    + apply wp_ret, Hnext; simpl; [by apply Hstore | done].
Qed.

(** X17. Adding participants.  POST /api/conversations/:id/participants
    always answers and never touches the messages.  It changes the
    conversations only for an active participant of the conversation
    named by req.body.conversationId whose first slot, in a group, is
    admin or moderator.  The listed users are added one by one, each with
    a save of its own, so what is stored is the conversation after a
    non-empty prefix of the list, and after the whole list on a 200.  The
    slots the conversation had stay as they were, at the front, and every
    user of the stored prefix has a slot. *)
Theorem add_participants_rules
    (req : ConversationRoutes.Request) (now : Date) (w : World.t) :
  let u := ConversationRoutes.req_user req in
  ∃ resp w',
    ConversationRoutes.add_participants req now w = (Store.Ok resp, w')
    ∧ World.messages w' = World.messages w
    ∧ ((Http.status resp ≠ 200%nat
        ∧ World.conversations w' = World.conversations w)
       ∨ ∃ i c pu ps d,
           ConversationRoutes.req_conversationId req = Some i
           ∧ World.conversations w !! i = Some c
           ∧ Conversation.isActiveParticipant c u = true
           ∧ slot c u = Some pu
           ∧ (Conversation.type c = ConversationType.group →
              Participant.role pu ≠ Role.member)
           ∧ ConversationRoutes.req_participants req = Some ps
           ∧ d `prefix_of` ps ∧ d ≠ []
           ∧ (Http.status resp = 200%nat ∧ d = ps
              ∨ Http.status resp = 500%nat)
           ∧ World.conversations w'
             = <[Conversation._id c := add_all d now c]> (World.conversations w)
           ∧ Conversation.participants c
             `prefix_of` Conversation.participants (add_all d now c)
           ∧ (∀ p, p ∈ d → p ∈ slot_users (add_all d now c))).
Proof.
  intros u. by_wp. unfold ConversationRoutes.add_participants.
  remember (ConversationRoutes.req_user req) as U eqn:HU. subst u.
  match goal with |- wp _ ?Q _ _ => set (R := Q) end.
  apply wp_bind, wp_access_conversation.
  { intros r Hr. apply wp_ret. split; [done|]. left. split; [|done].
    by apply status_404_403. }
  intros i c Hb Hc Hact. apply wp_try_catch. fold (slot c U).
  destruct (ConversationRoutes.req_participants req) as [[|p0 ps]|] eqn:Hps;
    try (apply wp_ret; split; [done|]; left; by split).
  destruct (active_has_slot c U Hact) as [pu Hpu]. rewrite Hpu.
  destruct (_ && _) eqn:Hperm.
  { apply wp_ret. split; [done|]. left. by split. }
  assert (Conversation.type c = ConversationType.group →
          Participant.role pu ≠ Role.member) as Hrole.
  { intros Hty Hr. rewrite Hty, Hr in Hperm. done. }
  apply wp_bind.
  eapply wp_mono;
    [apply (add_participants_loop now c (World.conversations w)
              (World.messages w) (p0 :: ps) [] w); done | | ].
  - intros c' w1 (-> & Hcs & Hms). apply wp_ret. split; [done|]. right.
    exists i, c, pu, (p0 :: ps), (p0 :: ps).
    do 7 (split; [done|]). split; [done|]. split; [by left|].
    split; [done|]. split; [apply add_all_prefix|].
    intros p. apply add_all_slots.
  - intros w1 (Hms & d & Hd & Hcs). apply wp_ret. split; [done|].
    destruct d as [|d0 d'].
    + left. by split.
    + right. exists i, c, pu, (p0 :: ps), (d0 :: d').
      do 7 (split; [done|]). split; [done|]. split; [by right|].
      split; [done|]. split; [apply add_all_prefix|].
      intros p. apply add_all_slots.
Qed.

(* ===================================================================== *)
(* Reactions, over HTTP and over the socket                              *)
(* ===================================================================== *)

(* a socket handler: from its weakest precondition to its result *)
Ltac by_wp_unit :=
  match goal with
  | |- ∃ w', ?c ?w = (Store.Ok tt, w') ∧ @?R w' =>
      cut (wp c (fun _ => R) (fun _ => False) w);
      [ let H := fresh in
        unfold wp; destruct (c w) as [[[]|e] w'];
        [intros H; by exists w' | done]
      | ]
  end.

(* message.save() of a message, followed by an answer *)
Lemma wp_save_message_then {A} (m : Message.t) (k : Store.M A)
    (Q : A → World.t → Prop) (E : World.t → Prop) (w : World.t) :
  (∀ w1, World.messages w1 = <[Message._id m := m]> (World.messages w) →
         World.conversations w1 = World.conversations w →
         World.connectedUsers w1 = World.connectedUsers w →
         World.outbox w1 = World.outbox w →
         wp k Q E w1) →
  (∀ w1, World.messages w1 = World.messages w →
         World.conversations w1 = World.conversations w →
         World.connectedUsers w1 = World.connectedUsers w →
         World.outbox w1 = World.outbox w →
         E w1) →
  wp (Store.save_message m ≫= (fun _ => k)) Q E w.
Proof.
  intros Hok Hfail. apply wp_bind, wp_save_message.
  destruct (Message.validate m); [|by apply Hfail].
  apply wp_write.
  destruct (World.faults w) as [|[] fs]; simpl;
    [by apply Hok | by apply Hfail | by apply Hok].
Qed.

Lemma removeReaction_id r u m :
  Message._id (Message.removeReaction r u m) = Message._id m.
Proof.
  unfold Message.removeReaction. destruct (_ !! _); [|done].
  by destruct (_ =? _)%nat.
Qed.

(** X18. Who may react.  The four reaction handlers never touch the
    conversations and change at most one message, the one the request
    names, by adding or removing the requester's own reaction.  Over HTTP,
    adding and removing ask that the requester is the sender of the
    message or an active participant of its conversation, and adding asks
    for a non-empty token.  Over the socket, 'message:react' asks for an
    active participant of the stored conversation, sender or not, and
    takes any token; 'message:remove_reaction' asks for nothing but the
    message. *)
Theorem reaction_handlers (w : World.t) :
  (∀ req : MessageRoutes.ReactionRequest,
     let u := MessageRoutes.reaction_user req in
     ∃ resp w',
       MessageRoutes.add_reaction req w = (Store.Ok resp, w')
       ∧ World.conversations w' = World.conversations w
       ∧ ((Http.status resp ≠ 200%nat ∧ World.messages w' = World.messages w)
          ∨ ∃ i m r,
              MessageRoutes.reaction_messageId req = Some i
              ∧ World.messages w !! i = Some m
              ∧ may_access w u m
              ∧ MessageRoutes.reaction_reaction req = Some r ∧ r ≠ ""
              ∧ resp = Http.json_data 200 "Reaction added successfully"
                         (Http.D_reaction r
                            (Message.getReactionCount r
                               (Message.addReaction r u m)))
              ∧ World.messages w'
                = <[Message._id m := Message.addReaction r u m]>
                    (World.messages w)))
  ∧ (∀ req : MessageRoutes.RemoveReactionRequest,
       let u := MessageRoutes.unreact_user req in
       let r := MessageRoutes.unreact_reaction req in
       ∃ resp w',
         MessageRoutes.remove_reaction req w = (Store.Ok resp, w')
         ∧ World.conversations w' = World.conversations w
         ∧ ((Http.status resp ≠ 200%nat
             ∧ World.messages w' = World.messages w)
            ∨ ∃ i m,
                MessageRoutes.unreact_messageId req = Some i
                ∧ World.messages w !! i = Some m
                ∧ may_access w u m
                ∧ Http.status resp = 200%nat
                ∧ World.messages w'
                  = <[Message._id m := Message.removeReaction r u m]>
                      (World.messages w)))
  ∧ (∀ socket mid r,
       let u := SocketHandler.userId socket in
       ∃ w',
         SocketHandler.message_react socket mid r w = (Store.Ok tt, w')
         ∧ World.conversations w' = World.conversations w
         ∧ (World.messages w' = World.messages w
            ∨ ∃ m c,
                World.messages w !! mid = Some m
                ∧ World.conversations w !! Message.conversation m = Some c
                ∧ Conversation.isActiveParticipant c u = true
                ∧ World.messages w'
                  = <[Message._id m := Message.addReaction r u m]>
                      (World.messages w)))
  ∧ (∀ socket mid r,
       let u := SocketHandler.userId socket in
       ∃ w',
         SocketHandler.message_remove_reaction socket mid r w
         = (Store.Ok tt, w')
         ∧ World.conversations w' = World.conversations w
         ∧ (World.messages w' = World.messages w
            ∨ ∃ m,
                World.messages w !! mid = Some m
                ∧ World.messages w'
                  = <[Message._id m := Message.removeReaction r u m]>
                      (World.messages w))).
Proof.
  repeat apply conj.
  - intros req u. by_wp. unfold MessageRoutes.add_reaction.
    remember (MessageRoutes.reaction_user req) as U eqn:HU. subst u.
    apply wp_bind, wp_access_message.
    { intros r Hr. apply wp_ret. split; [done|]. left. split; [|done].
      by apply status_404_403. }
    intros i m Hb Hm Hacc. apply wp_try_catch.
    destruct (MessageRoutes.reaction_reaction req) as [r|] eqn:Hr;
      [|apply wp_ret; split; [done|]; left; by split].
    destruct (String.eqb r "") eqn:Hne;
      [apply wp_ret; split; [done|]; left; by split|].
    apply String.eqb_neq in Hne.
    apply wp_save_message_then.
    + intros w1 Hms Hcs _ _. apply wp_ret. split; [done|]. right.
      rewrite addReaction_id in Hms. by exists i, m, r.
    + intros w1 Hms Hcs _ _. apply wp_ret. split; [done|]. left. by split.
  - intros req u r. by_wp. unfold MessageRoutes.remove_reaction.
    remember (MessageRoutes.unreact_user req) as U eqn:HU. subst u.
    apply wp_bind, wp_access_message.
    { intros r' Hr. apply wp_ret. split; [done|]. left. split; [|done].
      by apply status_404_403. }
    intros i m Hb Hm Hacc. apply wp_try_catch. cbv zeta.
    apply wp_save_message_then.
    + intros w1 Hms Hcs _ _. apply wp_ret. split; [done|]. right.
      rewrite removeReaction_id in Hms. by exists i, m.
    + intros w1 Hms Hcs _ _. apply wp_ret. split; [done|]. left. by split.
  - intros socket mid r u. by_wp_unit. unfold SocketHandler.message_react.
    remember (SocketHandler.userId socket) as U eqn:HU. subst u.
    apply wp_try_catch. apply wp_bind. unfold wp at 1; simpl.
    destruct (World.messages w !! mid) as [m|] eqn:Hm;
      [|apply wp_emit; split; [done|]; by left].
    apply wp_bind, wp_Conversation_findById.
    destruct (World.conversations w !! Message.conversation m) as [c|] eqn:Hc;
      [|apply wp_throw, wp_emit; split; [done|]; by left].
    destruct (negb _) eqn:Hact;
      [apply wp_emit; split; [done|]; by left|].
    apply negb_false_iff in Hact. cbv zeta.
    apply wp_save_message_then.
    + intros w1 Hms Hcs _ _. apply wp_emit. split; [done|]. right.
      rewrite addReaction_id in Hms. by exists m, c.
    + intros w1 Hms Hcs _ _. apply wp_emit. split; [done|]. by left.
  - intros socket mid r u. by_wp_unit.
    unfold SocketHandler.message_remove_reaction.
    remember (SocketHandler.userId socket) as U eqn:HU. subst u.
    apply wp_try_catch. apply wp_bind. unfold wp at 1; simpl.
    destruct (World.messages w !! mid) as [m|] eqn:Hm;
      [|apply wp_emit; split; [done|]; by left].
    cbv zeta. apply wp_save_message_then.
    + intros w1 Hms Hcs _ _. apply wp_emit. split; [done|]. right.
      rewrite removeReaction_id in Hms. by exists m.
    + intros w1 Hms Hcs _ _. apply wp_emit. split; [done|]. by left.
Qed.

(* ===================================================================== *)
(* A user's own settings of a conversation                               *)
(* ===================================================================== *)

(* the routes that run one document method on req.conversation *)
Lemma access_save_route (u : ObjectId) (b : option ObjectId)
    (f : Conversation.t → Conversation.t) (msg : string) (w : World.t) :
  (∀ c, Conversation._id (f c) = Conversation._id c) →
  ∃ resp w',
    (Auth.authorizeConversationAccess u None b ≫= (fun access =>
       match access with
       | inl response => mret response
       | inr conversation =>
           Http.asyncHandler
             (Store.save_conversation (f conversation) ≫=
              (fun _ => mret (Http.json 200 msg)))
       end)) w = (Store.Ok resp, w')
    ∧ World.messages w' = World.messages w
    ∧ ((Http.status resp ≠ 200%nat
        ∧ World.conversations w' = World.conversations w)
       ∨ ∃ i c,
           b = Some i
           ∧ World.conversations w !! i = Some c
           ∧ Conversation.isActiveParticipant c u = true
           ∧ Http.status resp = 200%nat
           ∧ World.conversations w'
             = <[Conversation._id c := f c]> (World.conversations w)).
Proof.
  intros Hid. by_wp.
  apply wp_bind, wp_access_conversation.
  { intros r Hr. apply wp_ret. split; [done|]. left. split; [|done].
    by apply status_404_403. }
  intros i c Hb Hc Hact. apply wp_try_catch.
  apply wp_bind, wp_save_conversation.
  destruct (Conversation.validate _);
    [|apply wp_ret; split; [done|]; left; by split].
  apply wp_write. rewrite Hid.
  destruct (World.faults w) as [|[] fs]; simpl; apply wp_ret;
    (split; [done|]); [right | left; by split | right]; by exists i, c.
Qed.

(** X19. Archive and mute settings over HTTP.  Each of the routes archive,
    unarchive, mute and unmute always answers and never touches the
    messages.  It changes the conversations only when it answers 200: then
    the requester is an active participant of the conversation named by
    req.body.conversationId, and the only change is that this conversation
    is stored after the requester's own archive, unarchive, mute or unmute.
    None of the four touches the participants, the unread counters or the
    last message of the conversation, and archiving leaves the mute list,
    muting the archive list, alone. *)
Theorem settings_routes
    (req : ConversationRoutes.Request) (now : Date) (w : World.t) :
  let u := ConversationRoutes.req_user req in
  let runs (route : Store.M Http.Response)
           (f : Conversation.t → Conversation.t) :=
    (∃ resp w',
       route w = (Store.Ok resp, w')
       ∧ World.messages w' = World.messages w
       ∧ ((Http.status resp ≠ 200%nat
           ∧ World.conversations w' = World.conversations w)
          ∨ ∃ i c,
              ConversationRoutes.req_conversationId req = Some i
              ∧ World.conversations w !! i = Some c
              ∧ Conversation.isActiveParticipant c u = true
              ∧ Http.status resp = 200%nat
              ∧ World.conversations w'
                = <[Conversation._id c := f c]> (World.conversations w)))
    ∧ ∀ c, Conversation.participants (f c) = Conversation.participants c
           ∧ Conversation.unreadCount (f c) = Conversation.unreadCount c
           ∧ Conversation.lastMessage (f c) = Conversation.lastMessage c
           ∧ Conversation.lastMessageAt (f c) = Conversation.lastMessageAt c
           ∧ (Conversation.archivedBy (f c) = Conversation.archivedBy c
              ∨ Conversation.mutedBy (f c) = Conversation.mutedBy c) in
  runs (ConversationRoutes.archive req now)
       (Conversation.archiveConversation u now)
  ∧ runs (ConversationRoutes.unarchive req)
         (Conversation.unarchiveConversation u)
  ∧ runs (ConversationRoutes.mute req now)
         (Conversation.muteConversation u (ConversationRoutes.req_duration req)
            now)
  ∧ runs (ConversationRoutes.unmute req)
         (Conversation.unmuteConversation u).
Proof.
  intros u runs. subst runs. cbv beta.
  assert (∀ c, Conversation._id (Conversation.archiveConversation u now c)
               = Conversation._id c) as Ha.
  { intros c. unfold Conversation.archiveConversation.
    by destruct (List.find _ _). }
  assert (∀ c, Conversation._id
                 (Conversation.muteConversation u
                    (ConversationRoutes.req_duration req) now c)
               = Conversation._id c) as Hm.
  { intros c. unfold Conversation.muteConversation.
    by destruct (List.find _ _). }
  repeat apply conj.
  - apply (access_save_route u _ (Conversation.archiveConversation u now)
             "Conversation archived successfully" w Ha).
  - intros c. unfold Conversation.archiveConversation.
    destruct (List.find _ _); simpl; repeat split; by right.
  - by apply (access_save_route u _ (Conversation.unarchiveConversation u)
                "Conversation unarchived successfully" w).
  - intros c. repeat split; by right.
  - apply (access_save_route u _
             (Conversation.muteConversation u
                (ConversationRoutes.req_duration req) now)
             "Conversation muted successfully" w Hm).
  - intros c. unfold Conversation.muteConversation.
    destruct (List.find _ _); simpl; repeat split; by left.
  - by apply (access_save_route u _ (Conversation.unmuteConversation u)
                "Conversation unmuted successfully" w).
  - intros c. repeat split; by left.
Qed.

(** X20. Joining a conversation over the socket.  'conversation:join'
    never touches the messages or the presence registry, and emits exactly
    one event, to the joining socket.  It is 'conversation:joined', and
    the conversation is stored with the joiner's unread counter at 0 and
    nothing else changed, only when the conversation is stored and the
    joiner is an active participant of it; otherwise the event is an error
    and the conversations stay as they were.  Unlike the HTTP read route,
    joining adds no read receipt. *)
Theorem join_resets_own_counter
    (socket : SocketHandler.Socket) (cid : ObjectId) (w : World.t) :
  let u := SocketHandler.userId socket in
  ∃ w',
    SocketHandler.conversation_join socket cid w = (Store.Ok tt, w')
    ∧ World.messages w' = World.messages w
    ∧ World.connectedUsers w' = World.connectedUsers w
    ∧ ((∃ reason,
          World.outbox w' = World.outbox w ++ [error_to socket reason]
          ∧ World.conversations w' = World.conversations w)
       ∨ ∃ c c',
           World.conversations w !! cid = Some c
           ∧ Conversation.isActiveParticipant c u = true
           ∧ World.outbox w'
             = World.outbox w
               ++ [{| World.target := World.to_socket (SocketHandler.id socket);
                      World.event := "conversation:joined";
                      World.payload := World.P_conversation cid |}]
           ∧ World.conversations w'
             = <[Conversation._id c := c']> (World.conversations w)
           ∧ unread c' u = 0%Z
           ∧ (∀ v, v ≠ u → unread c' v = unread c v)
           ∧ Conversation.participants c' = Conversation.participants c
           ∧ Conversation.lastMessage c' = Conversation.lastMessage c).
Proof.
  intros u. by_wp_unit. unfold SocketHandler.conversation_join.
  remember (SocketHandler.userId socket) as U eqn:HU. subst u.
  apply wp_try_catch, wp_bind, wp_Conversation_findById.
  destruct (World.conversations w !! cid) as [c|] eqn:Hc.
  2:{ apply wp_emit. do 2 (split; [done|]). left. by eexists. }
  destruct (negb _) eqn:Hact.
  { apply wp_emit. do 2 (split; [done|]). left. by eexists. }
  apply negb_false_iff in Hact. cbv zeta.
  apply wp_bind, wp_save_conversation.
  destruct (Conversation.validate _);
    [|apply wp_emit; do 2 (split; [done|]); left; by eexists].
  assert (unread (Conversation.resetUnreadCount U c) U = 0%Z
          ∧ (∀ v, v ≠ U → unread (Conversation.resetUnreadCount U c) v
                            = unread c v)) as [H0 Hother].
  { unfold unread. simpl. split; [by rewrite lookup_insert_eq|].
    intros v Hv. by rewrite lookup_insert_ne. }
  apply wp_write.
  destruct (World.faults w) as [|[] fs]; simpl; apply wp_emit;
    do 2 (split; [done|]);
    [right | left; by eexists | right];
    by exists c, (Conversation.resetUnreadCount U c).
Qed.

(* ===================================================================== *)
(* Forwarding                                                            *)
(* ===================================================================== *)

Lemma wp_write_any (f : World.t → World.t) (Q : unit → World.t → Prop)
    (w : World.t) :
  (∀ w1, Q tt w1) → wp (Store.write f) Q (fun _ => True) w.
Proof.
  intros HQ. apply wp_write. by destruct (World.faults w) as [|[] fs].
Qed.

Lemma wp_save_message_any (m : Message.t) (Q : unit → World.t → Prop)
    (w : World.t) :
  (∀ w1, Q tt w1) → wp (Store.save_message m) Q (fun _ => True) w.
Proof.
  intros HQ. apply wp_save_message.
  destruct (Message.validate m); [by apply wp_write_any | done].
Qed.

Lemma wp_save_conversation_any (c : Conversation.t)
    (Q : unit → World.t → Prop) (w : World.t) :
  (∀ w1, Q tt w1) → wp (Store.save_conversation c) Q (fun _ => True) w.
Proof.
  intros HQ. apply wp_save_conversation.
  destruct (Conversation.validate c); [by apply wp_write_any | done].
Qed.

(* the copies the forwarding loop collects when it completes *)
Lemma forward_loop_copies (m : Message.t) (u : ObjectId)
    (newId : nat → ObjectId) (now : Date) (l : list Conversation.t)
    (n : nat) (acc : list Message.t) (w : World.t) :
  wp (Store.for_of l (MessageRoutes.forward_one m u newId now) (n, acc))
    (fun r _ =>
       r = ((n + length l)%nat,
            acc ++ imap (fun k c =>
                           Message.forwardMessage (newId (n + k)%nat)
                             (Conversation._id c) u m) l))
    (fun _ => True) w.
Proof.
  revert n acc w. induction l as [|c l IH]; intros n acc w; simpl.
  - apply wp_ret. by rewrite Nat.add_0_r, app_nil_r.
  - apply (wp_bind _ (Store.for_of l _)).
    unfold MessageRoutes.forward_one at 2. simpl.
    apply wp_bind, wp_save_message_any. intros w1.
    apply wp_bind, wp_save_conversation_any. intros w2.
    apply wp_ret.
    eapply wp_mono; [apply IH | | done].
    intros r _ ->. simpl. f_equal; [lia|].
    rewrite <- app_assoc. simpl. rewrite Nat.add_0_r. do 2 f_equal.
    apply imap_ext. intros k x _. simpl. do 2 f_equal. lia.
Qed.

Lemma forward_copies_fields (m : Message.t) (u : ObjectId)
    (newId : nat → ObjectId) (l : list Conversation.t) (n : nat) :
  Message.conversation
  <$> imap (fun k c =>
              Message.forwardMessage (newId (n + k)%nat) (Conversation._id c) u m)
        l
  = Conversation._id <$> l
  ∧ Message._id
    <$> imap (fun k c =>
                Message.forwardMessage (newId (n + k)%nat) (Conversation._id c)
                  u m) l
    = newId <$> seq n (length l).
Proof.
  revert n. induction l as [|c l IH]; intros n; [done|]. csimpl.
  rewrite Nat.add_0_r.
  destruct (IH (S n)) as [IH1 IH2].
  assert (imap ((fun k c0 =>
                   Message.forwardMessage (newId (n + k)%nat)
                     (Conversation._id c0) u m) ∘ S) l
          = imap (fun k c0 =>
                    Message.forwardMessage (newId (S n + k)%nat)
                      (Conversation._id c0) u m) l) as ->.
  { apply imap_ext. intros k x _. simpl. do 2 f_equal. lia. }
  by rewrite IH1, IH2.
Qed.

(** X21. The targets of a forward.  On a store that holds each
    conversation under its own id, POST /api/messages/:id/forward always
    answers, and an answer other than 200 and 500 leaves the world as it
    was.  A 200 means that the requester may access the message named by
    req.body.messageId, that the target ids are distinct and not empty,
    and that each of them names a stored conversation which the query of
    the route selects.  The answer then lists one copy per target: sent by
    the requester into that conversation, carrying the type and the
    content of the original, naming the original and its sender, and
    fresh otherwise: no reactions, no receipts, and no deletion mark even
    when the original carries one. *)
Theorem forward_targets
    (req : MessageRoutes.ForwardRequest) (newId : nat → ObjectId) (now : Date)
    (w : World.t) (Hwf : store_wf w) :
  let u := MessageRoutes.forward_user req in
  ∃ resp w',
    MessageRoutes.forward req newId now w = (Store.Ok resp, w')
    ∧ ((Http.status resp ≠ 200%nat ∧ Http.status resp ≠ 500%nat ∧ w' = w)
       ∨ Http.status resp = 500%nat
       ∨ ∃ i m ids found copies,
           MessageRoutes.forward_messageId req = Some i
           ∧ World.messages w !! i = Some m
           ∧ may_access w u m
           ∧ MessageRoutes.forward_conversationIds req = Some ids
           ∧ ids ≠ [] ∧ NoDup ids
           ∧ Conversation._id <$> found ≡ₚ ids
           ∧ (∀ c, c ∈ found →
                   World.conversations w !! Conversation._id c = Some c
                   ∧ MessageRoutes.forward_query ids u c = true)
           ∧ resp = Http.json_data 200 "Message forwarded successfully"
                      (Http.D_messages copies)
           ∧ Message.conversation <$> copies = Conversation._id <$> found
           ∧ Message._id <$> copies = newId <$> seq 0 (length ids)
           ∧ (∀ f, f ∈ copies →
                   Message.sender f = u
                   ∧ Message.type f = Message.type m
                   ∧ Message.content f = Message.content m
                   ∧ Message.forwardedFrom f
                     = Some {| Message.message := Message._id m;
                               Message.user := Message.sender m |}
                   ∧ Message.reactions f = ∅
                   ∧ Message.readBy f = []
                   ∧ Message.isDeleted f = false)).
Proof.
  intros u. by_wp. unfold MessageRoutes.forward.
  remember (MessageRoutes.forward_user req) as U eqn:HU. subst u.
  match goal with |- wp _ ?Q _ _ => set (R := Q) end.
  apply wp_bind, wp_access_message.
  { intros r Hr. apply wp_ret. left.
    split; [by apply status_404_403|]. split; [by apply status_404_403|done]. }
  intros i m Hb Hm Hacc. apply wp_try_catch.
  destruct (MessageRoutes.forward_conversationIds req) as [ids|] eqn:Hids;
    [|apply wp_ret; by left].
  destruct (negb (MessageRoutes.isArray_min1 _)) eqn:Hmin;
    [apply wp_ret; by left|].
  assert (ids ≠ []) as Hne by (by destruct ids).
  apply wp_bind. unfold wp at 1, Store.Conversation_find.
  set (found := List.filter (MessageRoutes.forward_query ids U)
                  (map_to_list (World.conversations w)).*2).
  destruct (negb (length found =? length ids)%nat) eqn:Hlen;
    [apply wp_ret; by left|].
  apply negb_false_iff, Nat.eqb_eq in Hlen.
  destruct (found_ids (MessageRoutes.forward_query ids U) w Hwf) as [Hnd Hin].
  fold found in Hnd, Hin.
  assert (∀ c, c ∈ found →
               World.conversations w !! Conversation._id c = Some c
               ∧ MessageRoutes.forward_query ids U c = true) as Hfound.
  { intros c Hc. apply list_elem_of_In, List.filter_In in Hc as [Hc Hq].
    split; [|done].
    apply list_elem_of_In, list_elem_of_fmap in Hc as ([k c'] & -> & Hkc).
    apply elem_of_map_to_list in Hkc. simpl. by rewrite (Hwf _ _ Hkc). }
  assert (Conversation._id <$> found ≡ₚ ids) as Hperm.
  { apply submseteq_length_Permutation; [|rewrite length_fmap; lia].
    apply NoDup_submseteq; [done|]. intros x Hx.
    apply list_elem_of_fmap in Hx as (c & -> & Hc).
    destruct (Hfound c Hc) as [_ Hq].
    unfold MessageRoutes.forward_query in Hq.
    apply andb_true_iff in Hq as [Hq _]. apply andb_true_iff in Hq as [Hq _].
    by apply includes_true in Hq. }
  apply wp_bind.
  eapply wp_mono;
    [apply (forward_loop_copies m U newId now found 0 [] w) | | ].
  2:{ intros w1 _. apply wp_ret. right. by left. }
  intros r w1 ->. apply wp_ret. right. right. simpl.
  exists i, m, ids, found,
    (imap (fun k c => Message.forwardMessage (newId k) (Conversation._id c) U m)
       found).
  do 5 (split; [done|]). split; [by rewrite <- Hperm|].
  do 3 (split; [done|]).
  split; [apply (forward_copies_fields m U newId found 0)|].
  split; [rewrite <- Hlen; apply (forward_copies_fields m U newId found 0)|].
  intros f Hf. apply elem_of_lookup_imap in Hf as (k & c & -> & _). done.
Qed.

Lemma forward_targets_witness :
  let w1 :=
    handle World.empty
      (R_create
         {| ConversationRoutes.create_user := "u1";
            ConversationRoutes.create_participants := Some ["u2"];
            ConversationRoutes.create_type := Some ConversationType.group;
            ConversationRoutes.create_name := None |} "c1" 100%Z) in
  let w2 :=
    handle w1
      (R_send
         {| MessageRoutes.send_user := "u2";
            MessageRoutes.send_conversationId := "c1";
            MessageRoutes.send_content := Some (Http.CStr "hello");
            MessageRoutes.send_type := None;
            MessageRoutes.send_replyTo := None;
            MessageRoutes.send_clientId := None;
            MessageRoutes.send_deviceId := None;
            MessageRoutes.send_platform := None;
            MessageRoutes.send_version := None |} "m1" 200%Z) in
  ∃ resp w',
    MessageRoutes.forward
      {| MessageRoutes.forward_user := "u2"; MessageRoutes.forward_id := "m1";
         MessageRoutes.forward_messageId := Some "m1";
         MessageRoutes.forward_conversationIds := Some ["c1"] |}
      (fun _ => "f0") 300%Z w2
    = (Store.Ok resp, w')
    ∧ Http.status resp = 200%nat.
Proof.
  intros w1 w2.
  assert (store_wf w2) as Hwf.
  { apply reachable_world_wf.
    apply reachable_handle, reachable_handle, reachable_empty. }
  destruct (forward_targets
              {| MessageRoutes.forward_user := "u2";
                 MessageRoutes.forward_id := "m1";
                 MessageRoutes.forward_messageId := Some "m1";
                 MessageRoutes.forward_conversationIds := Some ["c1"] |}
              (fun _ => "f0") 300%Z w2 Hwf) as (resp & w' & Hrun & _).
  exists resp, w'. split; [exact Hrun|].
  vm_compute in Hrun. injection Hrun as <- _. reflexivity.
Defined.

(* ===================================================================== *)
(* The invariant of the store                                            *)
(* ===================================================================== *)

(* ---- the document methods keep their document well formed ---- *)

Lemma message_ok_new id conv sndr ty c reply fwd md :
  Message.validate (Message.new id conv sndr ty c reply fwd md) = true →
  message_ok (Message.new id conv sndr ty c reply fwd md).
Proof.
  intros Hv. split; [apply reactions_wf_new|].
  split; [intros t; unfold reactors; simpl; rewrite lookup_empty; apply NoDup_nil_2|].
  split; [apply NoDup_nil_2|]. split; [done|]. split; [done|].
  simpl. split; [done | by intros [? ?]].
Qed.

Lemma addReaction_frame t u m :
  Message.readBy (Message.addReaction t u m) = Message.readBy m
  ∧ Message.validate (Message.addReaction t u m) = Message.validate m
  ∧ Message.isEdited (Message.addReaction t u m) = Message.isEdited m
  ∧ Message.type (Message.addReaction t u m) = Message.type m
  ∧ Message.isDeleted (Message.addReaction t u m) = Message.isDeleted m
  ∧ Message.deletedBy (Message.addReaction t u m) = Message.deletedBy m.
Proof. unfold Message.addReaction. by destruct (negb _). Qed.

Lemma removeReaction_frame t u m :
  Message.readBy (Message.removeReaction t u m) = Message.readBy m
  ∧ Message.validate (Message.removeReaction t u m) = Message.validate m
  ∧ Message.isEdited (Message.removeReaction t u m) = Message.isEdited m
  ∧ Message.type (Message.removeReaction t u m) = Message.type m
  ∧ Message.isDeleted (Message.removeReaction t u m) = Message.isDeleted m
  ∧ Message.deletedBy (Message.removeReaction t u m) = Message.deletedBy m.
Proof.
  unfold Message.removeReaction. destruct (_ !! _); [|done].
  by destruct (_ =? _)%nat.
Qed.

Lemma message_ok_addReaction t u m :
  message_ok m → message_ok (Message.addReaction t u m).
Proof.
  intros (Hwf & Hnd & Hrd & Hv & He & Hd). unfold message_ok.
  destruct (addReaction_frame t u m) as (-> & -> & -> & -> & -> & ->).
  split; [by apply reactions_wf_addReaction|]. split; [|done].
  intros t'. rewrite reactors_addReaction.
  destruct (decide (t = t')) as [->|]; [|done].
  destruct (includes (reactors m t') u) eqn:E; [done|].
  apply NoDup_app. split; [done|]. split; [|apply NoDup_singleton].
  intros x Hx ->%list_elem_of_singleton.
  apply includes_true in Hx. congruence.
Qed.

Lemma NoDup_List_filter {X} (q : X → bool) (l : list X) :
  NoDup l → NoDup (List.filter q l).
Proof.
  induction 1 as [|x l Hx Hl IH]; simpl; [apply NoDup_nil_2|].
  destruct (q x); [|done]. apply NoDup_cons. split; [|done].
  intros Hin. apply Hx.
  apply list_elem_of_In, List.filter_In in Hin as [Hin _].
  by apply list_elem_of_In.
Qed.

Lemma message_ok_removeReaction t u m :
  message_ok m → message_ok (Message.removeReaction t u m).
Proof.
  intros (Hwf & Hnd & Hrd & Hv & He & Hd). unfold message_ok.
  destruct (removeReaction_frame t u m) as (-> & -> & -> & -> & -> & ->).
  split; [by apply reactions_wf_removeReaction|]. split; [|done].
  intros t'. rewrite reactors_removeReaction.
  destruct (decide (t = t')) as [->|]; [|done].
  by apply NoDup_List_filter.
Qed.

Lemma message_ok_markAsRead u now m :
  message_ok m → message_ok (Message.markAsRead u now m).
Proof.
  intros (Hwf & Hnd & Hrd & Hv & He & Hd). unfold Message.markAsRead.
  destruct (List.find _ _) eqn:F; [done|].
  split; [done|]. split; [done|]. split; [|done]. simpl.
  apply NoDup_fst_snoc; [by apply find_fst_none_notin | done].
Qed.

Lemma message_ok_push_read cid u now m :
  message_ok m → message_ok (ConversationRoutes.push_read cid u now m).
Proof.
  unfold ConversationRoutes.push_read.
  destruct (_ && _); [apply message_ok_markAsRead | done].
Qed.

Lemma push_read_id cid u now m :
  Message._id (ConversationRoutes.push_read cid u now m) = Message._id m.
Proof.
  unfold ConversationRoutes.push_read, Message.markAsRead.
  destruct (_ && _); [|done]. by destruct (List.find _ _).
Qed.

Lemma message_ok_editMessage s now m :
  message_ok m →
  MessageType.eqb (Message.type m) MessageType.text = true →
  Message.validate (Message.editMessage s now m) = true →
  message_ok (Message.editMessage s now m).
Proof.
  intros (Hwf & Hnd & Hrd & Hv & He & Hd) Hty Hv'.
  split; [done|]. split; [done|]. split; [done|]. split; [done|].
  split; [|done]. intros _. simpl. by destruct (Message.type m).
Qed.

Lemma message_ok_deleteMessage u now m :
  message_ok m → message_ok (Message.deleteMessage u now m).
Proof.
  intros (Hwf & Hnd & Hrd & Hv & He & Hd).
  split; [done|]. split; [done|]. split; [done|]. split; [done|].
  split; [done|]. simpl. split; [by eexists | done].
Qed.

Lemma message_ok_http_new_message req newId m :
  MessageRoutes.new_message req newId = Some m →
  Message.validate m = true → message_ok m.
Proof.
  unfold MessageRoutes.new_message.
  destruct (MessageType.of_string _); [|done].
  destruct (MessageRoutes.send_content req); [|done].
  destruct (MessageRoutes.send_cast_content _ _); [|done].
  intros [= <-]. apply message_ok_new.
Qed.

Lemma message_ok_socket_new_message socket cid data newId m :
  SocketHandler.new_message socket cid data newId = Some m →
  Message.validate m = true → message_ok m.
Proof.
  unfold SocketHandler.new_message.
  destruct (MessageType.of_string _); [|done].
  destruct (SocketHandler.send_cast_content _); [|done].
  intros [= <-]. apply message_ok_new.
Qed.

Lemma conversation_ok_new id ty nm u ps now :
  Conversation.validate
    (Conversation.new id ty nm
       (ConversationRoutes.participant u Role.admin now
          :: List.map (fun p => ConversationRoutes.participant p Role.member now)
               ps) now) = true →
  conversation_ok
    (Conversation.new id ty nm
       (ConversationRoutes.participant u Role.admin now
          :: List.map (fun p => ConversationRoutes.participant p Role.member now)
               ps) now).
Proof.
  intros Hv. split.
  { intros v n H. simpl in H. by rewrite lookup_empty in H. }
  split; [apply NoDup_nil_2|]. split; [apply NoDup_nil_2|].
  split; [done|]. split; [simpl; apply elem_of_cons; by left|].
  simpl. apply Forall_cons. split; [done|].
  apply Forall_forall. intros p Hp.
  apply list_elem_of_In, in_map_iff in Hp as (x & <- & _). done.
Qed.

Lemma conversation_ok_set_lastMessage i now c :
  conversation_ok c → conversation_ok (Conversation.set_lastMessage i now c).
Proof. done. Qed.

Lemma conversation_ok_updateUnreadCount u c :
  conversation_ok c → conversation_ok (Conversation.updateUnreadCount u 1 c).
Proof.
  intros (H1 & H2). split; [by apply counters_nonneg_update | done].
Qed.

Lemma conversation_ok_resetUnreadCount u c :
  conversation_ok c → conversation_ok (Conversation.resetUnreadCount u c).
Proof.
  intros (H1 & H2). split; [by apply counters_nonneg_reset | done].
Qed.

Lemma conversation_ok_addParticipant u r now c :
  conversation_ok c → conversation_ok (Conversation.addParticipant u r now c).
Proof.
  intros (H1 & H2 & H3 & H4 & H5 & H6). unfold Conversation.addParticipant.
  destruct (List.find _ _); [done|].
  do 4 (split; [done|]). simpl. split.
  - rewrite fmap_app. apply elem_of_app. by left.
  - apply Forall_app. split; [done|]. by apply Forall_singleton.
Qed.

Lemma Forall_update_first {X} (P : X → Prop) (p : X → bool) (f : X → X)
    (l : list X) :
  (∀ x, P (f x)) → Forall P l → Forall P (update_first p f l).
Proof.
  intros Hf. induction 1 as [|x l Hx Hl IH]; simpl; [done|].
  destruct (p x); apply Forall_cons; auto.
Qed.

Lemma conversation_ok_removeParticipant u now c :
  conversation_ok c → conversation_ok (Conversation.removeParticipant u now c).
Proof.
  intros (H1 & H2 & H3 & H4 & H5 & H6).
  do 4 (split; [done|]). simpl. split.
  - by rewrite fmap_update_first.
  - apply Forall_update_first; [|done]. intros x. by split.
Qed.

Lemma conversation_ok_archiveConversation u now c :
  conversation_ok c → conversation_ok (Conversation.archiveConversation u now c).
Proof.
  intros (H1 & H2 & H3 & H4 & H5 & H6). unfold Conversation.archiveConversation.
  destruct (List.find _ _) eqn:F; [done|].
  do 2 (split; [done|]). split; [|done]. simpl.
  apply NoDup_fst_snoc; [by apply find_fst_none_notin | done].
Qed.

Lemma conversation_ok_unarchiveConversation u c :
  conversation_ok c → conversation_ok (Conversation.unarchiveConversation u c).
Proof.
  intros (H1 & H2 & H3 & H4 & H5 & H6).
  do 2 (split; [done|]). split; [|done]. simpl. by apply NoDup_fmap_filter.
Qed.

Lemma conversation_ok_muteConversation u d now c :
  conversation_ok c → conversation_ok (Conversation.muteConversation u d now c).
Proof.
  intros (H1 & H2 & H3 & H4 & H5 & H6). unfold Conversation.muteConversation.
  destruct (List.find _ _) eqn:F; (split; [done|]); (split; [|done]); simpl.
  - by rewrite fmap_update_first.
  - rewrite fmap_app. apply NoDup_app. split; [done|].
    split; [|apply NoDup_singleton].
    intros x Hx ->%list_elem_of_singleton.
    by apply find_mute_none_notin in F.
Qed.

Lemma conversation_ok_unmuteConversation u c :
  conversation_ok c → conversation_ok (Conversation.unmuteConversation u c).
Proof.
  intros (H1 & H2 & H3 & H4 & H5 & H6).
  split; [done|]. split; [|done]. simpl. by apply NoDup_fmap_filter.
Qed.

(* ---- the writes keep the store well formed ---- *)

Lemma world_ok_faults fs w : world_ok w → world_ok (World.set_faults fs w).
Proof. done. Qed.

Lemma world_ok_outbox o w : world_ok w → world_ok (World.set_outbox o w).
Proof. done. Qed.

Lemma world_ok_connectedUsers cu w :
  world_ok w → world_ok (World.set_connectedUsers cu w).
Proof. done. Qed.

Lemma world_ok_save_message m w :
  message_ok m → world_ok w →
  world_ok (World.set_messages (<[Message._id m := m]> (World.messages w)) w).
Proof.
  intros Hm (H1 & H2 & H3 & H4). split; [done|]. split; [|split; [|done]].
  - intros k m'. simpl.
    destruct (decide (Message._id m = k)) as [Heq|Hne].
    + rewrite <- Heq, lookup_insert_eq. by intros [= <-].
    + rewrite lookup_insert_ne by done. apply H2.
  - intros k m'. simpl.
    destruct (decide (Message._id m = k)) as [Heq|Hne].
    + rewrite <- Heq, lookup_insert_eq. by intros [= <-].
    + rewrite lookup_insert_ne by done. apply H3.
Qed.

Lemma world_ok_save_conversation c w :
  conversation_ok c → world_ok w →
  world_ok
    (World.set_conversations
       (<[Conversation._id c := c]> (World.conversations w)) w).
Proof.
  intros Hc (H1 & H2 & H3 & H4).
  split; [by apply store_wf_save|]. do 2 (split; [done|]).
  intros k c'. simpl.
  destruct (decide (Conversation._id c = k)) as [Heq|Hne].
  - rewrite <- Heq, lookup_insert_eq. by intros [= <-].
  - rewrite lookup_insert_ne by done. apply H4.
Qed.

Lemma world_ok_push_read cid u now w :
  world_ok w →
  world_ok
    (World.set_messages
       (ConversationRoutes.push_read cid u now <$> World.messages w) w).
Proof.
  intros (H1 & H2 & H3 & H4). split; [done|]. split; [|split; [|done]].
  - intros k m'. simpl. rewrite lookup_fmap.
    destruct (World.messages w !! k) as [m|] eqn:E; [|done].
    intros [= <-]. rewrite push_read_id. by apply H2.
  - intros k m'. simpl. rewrite lookup_fmap.
    destruct (World.messages w !! k) as [m|] eqn:E; [|done].
    intros [= <-]. apply message_ok_push_read. by eapply H3.
Qed.

Lemma world_ok_deleteMany_messages cid w :
  world_ok w → world_ok (ConversationRoutes.deleteMany_messages cid w).
Proof.
  intros (H1 & H2 & H3 & H4). split; [done|]. split; [|split; [|done]].
  - intros k m Hm. simpl in Hm.
    apply map_lookup_filter_Some in Hm as [Hm _]. by apply H2.
  - intros k m Hm. simpl in Hm.
    apply map_lookup_filter_Some in Hm as [Hm _]. by eapply H3.
Qed.

Lemma world_ok_remove_conversation cid w :
  world_ok w → world_ok (ConversationRoutes.remove_conversation cid w).
Proof.
  intros (H1 & H2 & H3 & H4). split; [|split; [done|split; [done|]]].
  - intros k c Hc. simpl in Hc.
    apply lookup_delete_Some in Hc as [_ Hc]. by apply H1.
  - intros k c Hc. simpl in Hc.
    apply lookup_delete_Some in Hc as [_ Hc]. by eapply H4.
Qed.

Lemma world_ok_empty : world_ok World.empty.
Proof.
  split; [apply store_wf_empty|].
  split; [|split]; intros k x H; simpl in H; by rewrite lookup_empty in H.
Qed.

(* ---- the steps of a handler keep the invariant ---- *)

Section keeps_ok_rules.
Context {A B : Type}.

Lemma keeps_ok_ret (a : A) (P : A → Prop) : P a → keeps_ok (mret a) P.
Proof. intros Ha w Hw. by apply wp_ret. Qed.

Lemma keeps_ok_throw (e : Store.Error) (P : A → Prop) :
  keeps_ok (Store.throw e) P.
Proof. intros w Hw. by apply wp_throw. Qed.

Lemma keeps_ok_bind (c : Store.M B) (k : B → Store.M A)
    (P : B → Prop) (Q : A → Prop) :
  keeps_ok c P → (∀ b, P b → keeps_ok (k b) Q) → keeps_ok (c ≫= k) Q.
Proof.
  intros Hc Hk w Hw. apply wp_bind.
  eapply wp_mono; [by apply Hc | | done].
  intros b w' [Hb Hw']. by apply Hk.
Qed.

Lemma keeps_ok_try_catch (c h : Store.M A) (P : A → Prop) :
  keeps_ok c P → keeps_ok h P → keeps_ok (Store.try_catch c h) P.
Proof.
  intros Hc Hh w Hw. apply wp_try_catch.
  eapply wp_mono; [by apply Hc | done |]. intros w' Hw'. by apply Hh.
Qed.

Lemma keeps_ok_mono (c : Store.M A) (P Q : A → Prop) :
  keeps_ok c P → (∀ a, P a → Q a) → keeps_ok c Q.
Proof.
  intros Hc HPQ w Hw. eapply wp_mono; [by apply Hc | | done].
  intros a w' [Ha Hw']. auto.
Qed.

(* a step that writes outside the two collections *)
Lemma keeps_ok_update (f : World.t → World.t) (a : A) :
  (∀ w, world_ok w → world_ok (f w)) →
  keeps_ok (fun w => (Store.Ok a, f w)) (fun _ => True).
Proof. intros Hf w Hw. split; [done|]. by apply Hf. Qed.
End keeps_ok_rules.

Lemma keeps_ok_Message_findById i :
  keeps_ok (Store.Message_findById i) (fun om => ∀ m, om = Some m → message_ok m).
Proof.
  intros w Hw. split; [|done]. intros m Hm.
  destruct Hw as (_ & _ & H3 & _). by eapply H3.
Qed.

Lemma keeps_ok_Conversation_findById i :
  keeps_ok (Store.Conversation_findById i)
    (fun oc => ∀ c, oc = Some c → conversation_ok c).
Proof.
  intros w Hw. split; [|done]. intros c Hc.
  destruct Hw as (_ & _ & _ & H4). by eapply H4.
Qed.

Lemma keeps_ok_Conversation_find q :
  keeps_ok (Store.Conversation_find q) (Forall conversation_ok).
Proof.
  intros w Hw. split; [|done]. apply Forall_forall. intros c Hc.
  apply list_elem_of_In, List.filter_In in Hc as [Hc _].
  apply list_elem_of_In, list_elem_of_fmap in Hc as ([k c'] & -> & Hkc).
  apply elem_of_map_to_list in Hkc.
  destruct Hw as (_ & _ & _ & H4). by eapply H4.
Qed.

Lemma keeps_ok_Conversation_findOne q :
  keeps_ok (Store.Conversation_findOne q) (fun _ => True).
Proof. intros w Hw. done. Qed.

Lemma keeps_ok_get : keeps_ok Store.get (fun _ => True).
Proof. intros w Hw. done. Qed.

Lemma keeps_ok_write (f : World.t → World.t) :
  (∀ w, world_ok w → world_ok (f w)) →
  keeps_ok (Store.write f) (fun _ => True).
Proof.
  intros Hf w Hw. apply wp_write.
  destruct (World.faults w) as [|[] fs]; [auto | done |].
  split; [done|]. by apply world_ok_faults, Hf.
Qed.

Lemma keeps_ok_save_message m :
  (Message.validate m = true → message_ok m) →
  keeps_ok (Store.save_message m) (fun _ => True).
Proof.
  intros Hm. unfold Store.save_message.
  destruct (Message.validate m); [|apply keeps_ok_throw].
  apply keeps_ok_write. intros w. by apply world_ok_save_message, Hm.
Qed.

Lemma keeps_ok_save_conversation c :
  (Conversation.validate c = true → conversation_ok c) →
  keeps_ok (Store.save_conversation c) (fun _ => True).
Proof.
  intros Hc. unfold Store.save_conversation.
  destruct (Conversation.validate c); [|apply keeps_ok_throw].
  apply keeps_ok_write. intros w. by apply world_ok_save_conversation, Hc.
Qed.

Lemma keeps_ok_emit t ev p : keeps_ok (Store.emit t ev p) (fun _ => True).
Proof. apply keeps_ok_update. intros w. apply world_ok_outbox. Qed.

Lemma keeps_ok_for_of {X S} (l : list X) (body : S → X → Store.M S) (s : S)
    (P : S → Prop) :
  P s → (∀ s x, x ∈ l → P s → keeps_ok (body s x) P) →
  keeps_ok (Store.for_of l body s) P.
Proof.
  intros Hs Hbody. revert s Hs. induction l as [|x l IH]; intros s Hs; simpl.
  - by apply (keeps_ok_ret s).
  - apply (keeps_ok_bind (body s x) (Store.for_of l body) P).
    + apply Hbody; [|done]. apply elem_of_cons. by left.
    + intros s' Hs'. apply IH; [|done].
      intros s'' y Hy. apply Hbody. apply elem_of_cons. by right.
Qed.

Lemma keeps_ok_authorizeMessageAccess u p b :
  keeps_ok (Auth.authorizeMessageAccess u p b)
    (fun r => ∀ m, r = inr m → message_ok m).
Proof.
  unfold Auth.authorizeMessageAccess.
  apply keeps_ok_try_catch; [|by apply keeps_ok_ret].
  eapply (keeps_ok_bind _ _ (fun om => ∀ m, om = Some m → message_ok m)).
  - destruct p as [i|]; [apply keeps_ok_Message_findById|].
    destruct b as [i|]; [apply keeps_ok_Message_findById|].
    by apply keeps_ok_ret.
  - intros [m|] Hm; [|by apply keeps_ok_ret].
    specialize (Hm m eq_refl).
    destruct (negb _); [|apply keeps_ok_ret; by intros ? [= <-]].
    eapply keeps_ok_bind; [apply keeps_ok_Conversation_findById|].
    intros [c|] _; [|by apply keeps_ok_ret].
    destruct (negb _); apply keeps_ok_ret; [done | by intros ? [= <-]].
Qed.

Lemma keeps_ok_authorizeConversationAccess u p b :
  keeps_ok (Auth.authorizeConversationAccess u p b)
    (fun r => ∀ c, r = inr c → conversation_ok c).
Proof.
  unfold Auth.authorizeConversationAccess.
  apply keeps_ok_try_catch; [|by apply keeps_ok_ret].
  eapply (keeps_ok_bind _ _ (fun oc => ∀ c, oc = Some c → conversation_ok c)).
  - destruct p as [i|]; [apply keeps_ok_Conversation_findById|].
    destruct b as [i|]; [apply keeps_ok_Conversation_findById|].
    by apply keeps_ok_ret.
  - intros [c|] Hc; [|by apply keeps_ok_ret].
    specialize (Hc c eq_refl).
    destruct (negb _); apply keeps_ok_ret; [done | by intros ? [= <-]].
Qed.

Create HintDb ok.
#[local] Hint Resolve message_ok_addReaction message_ok_removeReaction
  message_ok_deleteMessage message_ok_new
  conversation_ok_set_lastMessage conversation_ok_updateUnreadCount
  conversation_ok_resetUnreadCount conversation_ok_addParticipant
  conversation_ok_removeParticipant conversation_ok_archiveConversation
  conversation_ok_unarchiveConversation conversation_ok_muteConversation
  conversation_ok_unmuteConversation conversation_ok_new
  world_ok_connectedUsers world_ok_push_read world_ok_deleteMany_messages
  world_ok_remove_conversation : ok.

(* a primitive step, with the property of its result *)
Ltac ok_prim :=
  lazymatch goal with
  | |- keeps_ok (mret _) _ => apply keeps_ok_ret
  | |- keeps_ok (Store.throw _) _ => apply keeps_ok_throw
  | |- keeps_ok (Store.save_message _) _ =>
      apply keeps_ok_save_message; intros
  | |- keeps_ok (Store.save_conversation _) _ =>
      apply keeps_ok_save_conversation; intros
  | |- keeps_ok (Store.emit _ _ _) _ => apply keeps_ok_emit
  | |- keeps_ok (Store.write _) _ => apply keeps_ok_write; intros
  | |- keeps_ok (Store.Message_findById _) _ => apply keeps_ok_Message_findById
  | |- keeps_ok (Store.Conversation_findById _) _ =>
      apply keeps_ok_Conversation_findById
  | |- keeps_ok (Store.Conversation_find _) _ => apply keeps_ok_Conversation_find
  | |- keeps_ok (Store.Conversation_findOne _) _ =>
      apply keeps_ok_Conversation_findOne
  | |- keeps_ok Store.get _ => apply keeps_ok_get
  | |- keeps_ok (Auth.authorizeMessageAccess _ _ _) _ =>
      apply keeps_ok_authorizeMessageAccess
  | |- keeps_ok (Auth.authorizeConversationAccess _ _ _) _ =>
      apply keeps_ok_authorizeConversationAccess
  | |- keeps_ok (Store.for_of _ _ ?s) _ =>
      first [ apply (keeps_ok_for_of _ _ s conversation_ok); [|intros]
            | apply (keeps_ok_for_of _ _ s (fun _ => True)); [done|intros] ]
  | |- keeps_ok (fun w => (Store.Ok _, _)) _ => apply keeps_ok_update; intros
  end.

(* one step of the proof that a handler keeps the invariant *)
Ltac ok_step :=
  lazymatch goal with
  | |- keeps_ok (Http.asyncHandler _) _ =>
      unfold Http.asyncHandler; apply keeps_ok_try_catch
  | |- keeps_ok (Store.try_catch _ _) _ => apply keeps_ok_try_catch
  | |- keeps_ok (_ ≫= _) _ => eapply keeps_ok_bind; [ok_prim | intros]
  | |- keeps_ok (if ?b then _ else _) _ => destruct b eqn:?
  | |- keeps_ok (match ?x with _ => _ end) _ => destruct x eqn:?
  | |- keeps_ok (let _ := _ in _) _ => cbv zeta
  | |- keeps_ok ((fun _ => _) _) _ => cbv beta
  | |- keeps_ok _ _ => ok_prim
  end.

Ltac ok_auto := repeat ok_step; try done; eauto with ok.

Lemma run_keeps (s : Step) (w : World.t) : world_ok w → world_ok (run w s).
Proof.
  intros Hw.
  assert (∀ A (c : Store.M A), keeps_ok c (fun _ => True) → world_ok (snd (c w)))
    as Hrun.
  { intros A c Hc. specialize (Hc w Hw). unfold wp in Hc.
    destruct (c w) as [[a|e] w']; [by destruct Hc | done]. }
  destruct s as [r| | |]; [destruct r|..]; unfold run, handle; apply Hrun;
    clear Hrun.
  - unfold MessageRoutes.send, MessageRoutes.update_unread_loop. ok_auto.
    by eapply message_ok_http_new_message.
  - unfold MessageRoutes.edit. ok_auto.
    apply message_ok_editMessage; eauto. by apply negb_false_iff.
  - unfold MessageRoutes.delete_. ok_auto.
  - unfold MessageRoutes.add_reaction. ok_auto.
  - unfold MessageRoutes.remove_reaction. ok_auto.
  - unfold MessageRoutes.forward, MessageRoutes.forward_one,
      Message.forwardMessage. ok_auto.
    apply conversation_ok_set_lastMessage. eapply Forall_forall; eauto.
  - unfold ConversationRoutes.create, ConversationRoutes.create_new. ok_auto.
  - unfold ConversationRoutes.read. ok_auto.
  - unfold ConversationRoutes.add_participants. ok_auto.
  - unfold ConversationRoutes.remove_participant. ok_auto.
  - unfold ConversationRoutes.leave. ok_auto.
  - unfold ConversationRoutes.mute. ok_auto.
  - unfold ConversationRoutes.unmute. ok_auto.
  - unfold SocketHandler.connection. ok_auto.
  - unfold SocketHandler.disconnect. ok_auto.
  - unfold SocketHandler.conversation_join. ok_auto.
  - unfold SocketHandler.message_send, SocketHandler.message_send_try,
      MessageRoutes.update_unread_loop, SocketHandler.notify_loop. ok_auto.
    by eapply message_ok_socket_new_message.
  - unfold SocketHandler.message_react. ok_auto.
  - unfold SocketHandler.message_remove_reaction. ok_auto.
  - unfold ConversationRoutes.archive. ok_auto.
  - unfold ConversationRoutes.unarchive. ok_auto.
  - unfold ConversationRoutes.delete_. ok_auto.
Qed.

(** X22. The invariant of the store.  In every world the server reaches
    from an empty store, by any sequence of the modelled requests and with
    any faults of the store on the way, each message and each conversation
    sits under its own id, and: no message lists a user twice under a
    reaction token or among its read receipts, or keeps a token without
    users; its text is within the bound of the schema; only text messages
    carry the edit mark; the deletion mark comes with the user who set it.
    No conversation has a negative unread counter, lists a user twice in
    its mute list or its archive list, or is without a slot of role admin;
    its name is within the bound of the schema; and each of its slots is
    active exactly when it has no leaving date. *)
Theorem reachable_store_invariant (w : World.t) :
  reachable_all w →
  (∀ k m, World.messages w !! k = Some m → Message._id m = k ∧ message_ok m)
  ∧ (∀ k c, World.conversations w !! k = Some c →
            Conversation._id c = k ∧ conversation_ok c).
Proof.
  intros Hr.
  assert (world_ok w) as (H1 & H2 & H3 & H4).
  { induction Hr as [|w fs _ IH|w s _ IH].
    - apply world_ok_empty.
    - by apply world_ok_faults.
    - by apply run_keeps. }
  split; intros k x Hx; split; eauto.
Qed.

Lemma reachable_store_invariant_witness :
  let w1 :=
    run World.empty
      (Step_request
         (R_create
            {| ConversationRoutes.create_user := "u1";
               ConversationRoutes.create_participants := Some ["u2"];
               ConversationRoutes.create_type := Some ConversationType.group;
               ConversationRoutes.create_name := None |} "c1" 100%Z)) in
  let w2 :=
    run w1
      (Step_request
         (R_message_react
            {| SocketHandler.id := "s1"; SocketHandler.userId := "u2";
               SocketHandler.firstName := "U"; SocketHandler.lastName := "Two";
               SocketHandler.deviceId := None; SocketHandler.platform := None;
               SocketHandler.version := None |} "m1" "like")) in
  ∃ c, World.conversations w2 !! "c1" = Some c
       ∧ Conversation._id c = "c1" ∧ conversation_ok c.
Proof.
  intros w1 w2.
  assert (reachable_all w2) as Hr
    by apply reachable_all_run, reachable_all_run, reachable_all_empty.
  destruct (World.conversations w2 !! "c1") as [c|] eqn:Hc.
  - exists c. split; [reflexivity|].
    exact (proj2 (reachable_store_invariant w2 Hr) "c1" c Hc).
  - vm_compute in Hc. discriminate Hc.
Defined.

(* ===================================================================== *)
(* Deleting a conversation for one user                                  *)
(* ===================================================================== *)

(** X23. deleteForUser marks a conversation as deleted for one user and
    nothing more: the user is marked once, however often the method runs;
    earlier marks stay in place; and the participants, with every user's
    membership, the unread counters and the last message are untouched, so
    the user remains a participant of the conversation. *)
Theorem deleteForUser_marks_once
    (c : Conversation.t) (u : ObjectId) (now now' : Date) :
  u ∈ (Conversation.deletedBy (Conversation.deleteForUser u now c)).*1
  ∧ Conversation.deleteForUser u now' (Conversation.deleteForUser u now c)
    = Conversation.deleteForUser u now c
  ∧ Conversation.deletedBy c
    `prefix_of` Conversation.deletedBy (Conversation.deleteForUser u now c)
  ∧ (NoDup (Conversation.deletedBy c).*1 →
     NoDup (Conversation.deletedBy (Conversation.deleteForUser u now c)).*1)
  ∧ Conversation.participants (Conversation.deleteForUser u now c)
    = Conversation.participants c
  ∧ (∀ v, Conversation.isActiveParticipant (Conversation.deleteForUser u now c) v
          = Conversation.isActiveParticipant c v)
  ∧ Conversation.unreadCount (Conversation.deleteForUser u now c)
    = Conversation.unreadCount c
  ∧ Conversation.lastMessage (Conversation.deleteForUser u now c)
    = Conversation.lastMessage c.
Proof.
  unfold Conversation.deleteForUser.
  destruct (List.find _ (Conversation.deletedBy c)) as [d|] eqn:F.
  - rewrite F. repeat split; try done.
    apply find_some in F as [Hin Hd]. apply equals_true in Hd as <-.
    apply list_elem_of_fmap. exists d. split; [done|].
    by apply list_elem_of_In.
  - simpl.
    destruct (List.find _ (Conversation.deletedBy c ++ [(u, now)])) eqn:F';
      [|by apply find_fst_snoc in F'].
    repeat split; try done.
    + rewrite fmap_app. apply elem_of_app. right. simpl.
      by apply list_elem_of_singleton.
    + by apply prefix_app_r.
    + intros Hnd. apply NoDup_fst_snoc; [by apply find_fst_none_notin | done].
Qed.

(* ===================================================================== *)
(* Users: presence and the block list                                    *)
(* ===================================================================== *)

(** X24. The block list and the presence flags of a user.  blockUser lists
    a user once, however often it runs, and unblockUser removes them:
    isBlocked answers true after the one and false after the other,
    nobody else's entry changes, and blocking then unblocking a user who
    was not blocked restores the list.  Neither method writes blockedBy,
    so isBlockedBy never changes through them.  updateOnlineStatus(false)
    always sets the status to offline, and updateOnlineStatus(true) keeps
    the status it finds: a user who goes offline and comes back is online
    with status offline. *)
Theorem user_block_list_and_presence
    (u : User.t) (v x : ObjectId) (now now' : Date) :
  User.isBlocked v (User.blockUser v u) = true
  ∧ User.isBlocked v (User.unblockUser v u) = false
  ∧ User.blockUser v (User.blockUser v u) = User.blockUser v u
  ∧ (User.isBlocked v u = false →
     User.blockedUsers (User.unblockUser v (User.blockUser v u))
     = User.blockedUsers u)
  ∧ (x ≠ v →
     User.isBlocked x (User.blockUser v u) = User.isBlocked x u
     ∧ User.isBlocked x (User.unblockUser v u) = User.isBlocked x u)
  ∧ (NoDup (User.blockedUsers u) →
     NoDup (User.blockedUsers (User.blockUser v u))
     ∧ NoDup (User.blockedUsers (User.unblockUser v u)))
  ∧ User.isBlockedBy x (User.blockUser v u) = User.isBlockedBy x u
  ∧ User.isBlockedBy x (User.unblockUser v u) = User.isBlockedBy x u
  ∧ User.status (User.updateOnlineStatus false now u) = UserStatus.offline
  ∧ User.status (User.updateOnlineStatus true now u) = User.status u
  ∧ User.isOnline
      (User.updateOnlineStatus true now' (User.updateOnlineStatus false now u))
    = true
  ∧ User.status
      (User.updateOnlineStatus true now' (User.updateOnlineStatus false now u))
    = UserStatus.offline.
Proof.
  assert (∀ l, includes l v = false →
               List.filter (fun id => negb (equals id v)) (l ++ [v]) = l) as Hrt.
  { intros l Hl. rewrite List.filter_app. simpl. rewrite equals_refl. simpl.
    rewrite app_nil_r. by apply filter_out_absent. }
  repeat apply conj; [| | | | | | |done..].
  - unfold User.isBlocked, User.blockUser.
    destruct (includes (User.blockedUsers u) v) eqn:E; simpl; [exact E|].
    fold (includes (User.blockedUsers u ++ [v]) v).
    apply includes_true, elem_of_app. right. by apply list_elem_of_singleton.
  - unfold User.isBlocked, User.unblockUser. simpl.
    fold (includes (List.filter (fun id => negb (equals id v))
                      (User.blockedUsers u)) v).
    rewrite includes_filter_out, equals_refl. apply andb_false_r.
  - unfold User.blockUser.
    destruct (includes (User.blockedUsers u) v) eqn:E; simpl.
    + by rewrite E.
    + assert (includes (User.blockedUsers u ++ [v]) v = true) as ->; [|done].
      apply includes_true, elem_of_app. right. by apply list_elem_of_singleton.
  - intros Hnot. unfold User.blockUser.
    change (includes (User.blockedUsers u) v = false) in Hnot.
    rewrite Hnot. simpl.
    by apply Hrt.
  - intros Hx. split.
    + unfold User.isBlocked, User.blockUser.
      destruct (includes (User.blockedUsers u) v); simpl; [done|].
      rewrite existsb_app. simpl.
      assert (equals v x = false) as -> by (apply equals_false; congruence).
      by rewrite !orb_false_r.
    + unfold User.isBlocked, User.unblockUser. simpl.
      fold (includes (List.filter (fun id => negb (equals id v))
                        (User.blockedUsers u)) x).
      rewrite includes_filter_out.
      assert (equals x v = false) as -> by by apply equals_false.
      apply andb_true_r.
  - intros Hnd. split.
    + unfold User.blockUser.
      destruct (includes (User.blockedUsers u) v) eqn:E; simpl; [done|].
      apply NoDup_app. split; [done|]. split; [|apply NoDup_singleton].
      intros y Hy ->%list_elem_of_singleton.
      apply includes_true in Hy. congruence.
    + simpl. by apply NoDup_List_filter.
  - unfold User.blockUser. by destruct (negb _).
Qed.
